(** * The token notifier endpoint (api/notifier.js)

    A shallow embedding of the HTTP handler that stores and serves the
    access token of a trading API in a blob object store.

    The handler talks to two things outside itself: the clock
    ([new Date()], [Date.now()]) and the blob service (through [fetch]).
    Both are effects of a small program monad; a run threads the state of
    an arbitrary service and records every clock reading and every request
    together with the answer it got.  *)

From Stdlib Require Import ZArith List String Ascii Bool Lia DecimalString.
From Stdlib Require DecimalZ.
Import ListNotations.

Local Open Scope string_scope.
Local Open Scope Z_scope.

(** ** JavaScript values *)

Module Js.

(** A value a JSON text can hold at a field of the token record or of the
    request body.  Numbers are the integer-valued ones (epoch milliseconds,
    status codes); their arithmetic below is exact integer arithmetic,
    which agrees with the doubles of the engine below 2^53. *)
Inductive json : Type :=
| JNull
| JBool (b : bool)
| JNum (n : Z)
| JStr (s : string).

(** A run-time value: what a property read or an expression yields. *)
Inductive jsval : Type :=
| VUndefined
| VNull
| VBool (b : bool)
| VNum (n : Z)
| VNaN
| VStr (s : string).

Definition of_json (j : json) : jsval :=
  match j with
  | JNull => VNull
  | JBool b => VBool b
  | JNum n => VNum n
  | JStr s => VStr s
  end.

(** A JSON object: its members in the order of the text. *)
Definition doc : Type := list (string * json).

Fixpoint lookup (k : string) (d : doc) : option json :=
  match d with
  | [] => None
  | (k', v) :: d' =>
      match lookup k d' with
      | Some w => Some w            (* the last of two equal names wins *)
      | None => if (k' =? k)%string then Some v else None
      end
  end.

(** [o.k] on an object built by [JSON.parse]. *)
Definition get (k : string) (d : doc) : jsval :=
  match lookup k d with
  | Some j => of_json j
  | None => VUndefined
  end.

(** ToBoolean. *)
Definition truthy (v : jsval) : bool :=
  match v with
  | VUndefined | VNull | VNaN => false
  | VBool b => b
  | VNum n => negb (n =? 0)
  | VStr s => negb (s =? EmptyString)%string
  end.

(** [JSON.stringify] on an object literal: a member whose value is
    [undefined] is left out, [NaN] is written [null]. *)
Definition stringify_value (v : jsval) : option json :=
  match v with
  | VUndefined => None
  | VNull | VNaN => Some JNull
  | VBool b => Some (JBool b)
  | VNum n => Some (JNum n)
  | VStr s => Some (JStr s)
  end.

Fixpoint JSON_stringify (o : list (string * jsval)) : doc :=
  match o with
  | [] => []
  | (k, v) :: o' =>
      match stringify_value v with
      | Some j => (k, j) :: JSON_stringify o'
      | None => JSON_stringify o'
      end
  end.

(** Decimal text of an integer, as in a template literal (the engine
    switches to exponent notation from 1e21 on, far beyond any time value
    or status). *)
Definition dec (n : Z) : string := NilZero.string_of_int (Z.to_int n).

(** ToString; a number is printed in plain decimal, as the engine prints
    the integers below 1e21. *)
Definition ToString (v : jsval) : string :=
  match v with
  | VUndefined => "undefined"
  | VNull => "null"
  | VBool true => "true"
  | VBool false => "false"
  | VNum n => dec n
  | VNaN => "NaN"
  | VStr s => s
  end.

(** *** parseInt

    A string is the UTF-8 text of the JavaScript string, byte by byte.
    parseInt skips the white space and line terminators of the language
    at the front: TAB, LF, VT, FF, CR and SP, which are one byte each,
    U+00A0 (two bytes), and U+1680, U+2000 to U+200A, U+2028, U+2029,
    U+202F, U+205F, U+3000 and U+FEFF (three bytes each).  The value is the
    exact integer the digits denote. *)

Definition is_space (c : ascii) : bool :=
  let n := nat_of_ascii c in
  ((9 <=? n) && (n <=? 13) || (n =? 32))%nat.

(** The first byte of a white space character of two bytes, and of one of
    three bytes. *)
Definition leads_two (c : ascii) : bool := (nat_of_ascii c =? 194)%nat.

Definition leads_three (c : ascii) : bool :=
  let n := nat_of_ascii c in
  ((n =? 225) || (n =? 226) || (n =? 227) || (n =? 239))%nat.

(** U+00A0 is C2 A0. *)
Definition is_space_two (c1 c2 : ascii) : bool :=
  ((nat_of_ascii c1 =? 194) && (nat_of_ascii c2 =? 160))%nat.

(** U+1680 is E1 9A 80; U+2000 to U+200A are E2 80 80 to E2 80 8A; U+2028
    and U+2029 are E2 80 A8 and E2 80 A9; U+202F is E2 80 AF; U+205F is
    E2 81 9F; U+3000 is E3 80 80; U+FEFF is EF BB BF. *)
Definition is_space_three (c1 c2 c3 : ascii) : bool :=
  let a := nat_of_ascii c1 in
  let b := nat_of_ascii c2 in
  let c := nat_of_ascii c3 in
  ((a =? 225) && (b =? 154) && (c =? 128)
   || (a =? 226) && (b =? 128)
        && ((128 <=? c) && (c <=? 138) || (c =? 168) || (c =? 169) || (c =? 175))
   || (a =? 226) && (b =? 129) && (c =? 159)
   || (a =? 227) && (b =? 128) && (c =? 128)
   || (a =? 239) && (b =? 187) && (c =? 191))%nat.

Fixpoint skip_spaces (s : string) : string :=
  match s with
  | String c1 s1 =>
      if is_space c1 then skip_spaces s1
      else if leads_two c1 then
        match s1 with
        | String c2 s2 => if is_space_two c1 c2 then skip_spaces s2 else s
        | EmptyString => s
        end
      else if leads_three c1 then
        match s1 with
        | String c2 (String c3 s3) =>
            if is_space_three c1 c2 c3 then skip_spaces s3 else s
        | _ => s
        end
      else s
  | EmptyString => s
  end.

(** The value of a digit in the given radix, if it is one. *)
Definition digit_of (radix : Z) (c : ascii) : option Z :=
  let n := Z.of_nat (nat_of_ascii c) in
  let d :=
    if (48 <=? n) && (n <=? 57) then Some (n - 48)
    else if (97 <=? n) && (n <=? 122) then Some (n - 87)
    else if (65 <=? n) && (n <=? 90) then Some (n - 55)
    else None in
  match d with
  | Some v => if v <? radix then Some v else None
  | None => None
  end.

(** The number denoted by the longest run of digits at the front of [s],
    continuing from [acc]; [None] when no digit has been [seen]. *)
Fixpoint digits (radix : Z) (s : string) (seen : bool) (acc : Z) : option Z :=
  match s with
  | String c s' =>
      match digit_of radix c with
      | Some d => digits radix s' true (acc * radix + d)
      | None => if seen then Some acc else None
      end
  | EmptyString => if seen then Some acc else None
  end.

Definition strip_hex (s : string) : option string :=
  match s with
  | String "0" (String "x" r) => Some r
  | String "0" (String "X" r) => Some r
  | _ => None
  end.

(** [parseInt(s)] without a radix argument; [None] is NaN. *)
Definition parse_int_string (s : string) : option Z :=
  let s1 := skip_spaces s in
  let '(sign, s2) :=
    match s1 with
    | String "-" r => (-1, r)
    | String "+" r => (1, r)
    | _ => (1, s1)
    end in
  let '(radix, s3) :=
    match strip_hex s2 with
    | Some r => (16, r)
    | None => (10, s2)
    end in
  match digits radix s3 false 0 with
  | Some v => Some (sign * v)
  | None => None
  end.

Definition parseInt (v : jsval) : option Z := parse_int_string (ToString v).

(** *** The engine

    The handler calls the parseInt of the engine it runs on, on whatever the
    request body or the stored record holds at [expires_at].  What the engine
    makes of a number there goes through the text it prints for the number
    (exponent notation from 1e21 on, the shortest digits that read back);
    the handler's behaviour does not depend on any of this, so the
    embedding takes the engine's parseInt as given and every statement about
    the handler holds whatever it is.  [None] is NaN; the result is an
    integer otherwise (an infinite one is beyond every date, like any
    integer past 8.64e15). *)
Class Engine : Type := { engine_parseInt : jsval -> option Z }.

(** The engine that the sample runs use: [parseInt] above, which reads
    strings as the language defines and numbers printed in plain decimal. *)
#[global] Instance model_engine : Engine := {| engine_parseInt := parseInt |}.

(** *** Date *)

(** TimeClip: a time value beyond 8.64e15 ms of the epoch makes an invalid
    date, whose time value is NaN ([None]). *)
Definition new_Date (v : option Z) : option Z :=
  match v with
  | Some t => if Z.abs t <=? 8640000000000000 then Some t else None
  | None => None
  end.

(** [now > d] on dates: false when [d] is invalid. *)
Definition date_gt (now : Z) (d : option Z) : bool :=
  match d with
  | Some t => t <? now
  | None => false
  end.

(** [Math.round((d - now) / (1000 * 60 * 60))]: to the nearest integer,
    a half going up; NaN when the date is invalid. *)
Definition round_hours (d : option Z) (now : Z) : jsval :=
  match d with
  | Some t => VNum ((t - now + 1800000) / 3600000)
  | None => VNaN
  end.

Fixpoint zeros (n : nat) : string :=
  match n with
  | O => EmptyString
  | S n' => "0" ++ zeros n'
  end.

(** [s.padStart(width, "0")]. *)
Definition pad (width : nat) (s : string) : string :=
  zeros (width - String.length s) ++ s.

(** Year, month and day of a day number counted from 1970-01-01. *)
Definition civil_of_days (days : Z) : Z * Z * Z :=
  let z := days + 719468 in
  let era := z / 146097 in
  let doe := z - era * 146097 in
  let yoe := (doe - doe / 1460 + doe / 36524 - doe / 146096) / 365 in
  let doy := doe - (365 * yoe + yoe / 4 - yoe / 100) in
  let mp := (5 * doy + 2) / 153 in
  let d := doy - (153 * mp + 2) / 5 + 1 in
  let m := if mp <? 10 then mp + 3 else mp - 9 in
  let y := yoe + era * 400 + (if m <=? 2 then 1 else 0) in
  (y, m, d).

Definition year_text (y : Z) : string :=
  if (0 <=? y) && (y <=? 9999) then pad 4 (dec y)
  else (if y <? 0 then "-" else "+") ++ pad 6 (dec (Z.abs y)).

(** [Date.prototype.toISOString] of a valid time value. *)
Definition toISOString (t : Z) : string :=
  let days := t / 86400000 in
  let ms := t mod 86400000 in
  let '(y, m, d) := civil_of_days days in
  year_text y ++ "-" ++ pad 2 (dec m) ++ "-" ++ pad 2 (dec d) ++ "T"
    ++ pad 2 (dec (ms / 3600000)) ++ ":"
    ++ pad 2 (dec (ms / 60000 mod 60)) ++ ":"
    ++ pad 2 (dec (ms / 1000 mod 60)) ++ "."
    ++ pad 3 (dec (ms mod 1000)) ++ "Z".

(** [hay.includes(needle)]. *)
Fixpoint includes (needle hay : string) : bool :=
  if prefix needle hay then true
  else match hay with
       | String _ hay' => includes needle hay'
       | EmptyString => false
       end.

End Js.

Import Js.

(** ** Requests, answers and programs *)

Module Net.

(** The arguments of one [fetch] call. *)
Record request : Type := {
  rq_method : string;
  rq_url : string;
  rq_authorization : option string;
  rq_content_type : option string;
  rq_body : option doc              (* a JSON text, by its members *)
}.

(** One entry of the [blobs] array of a listing.  [uploadedAt] is the time
    value of [new Date(blob.uploadedAt)]; the service sends an ISO-8601
    instant there. *)
Record blob : Type := {
  url : string;
  pathname : string;
  uploadedAt : Z
}.

(** What [JSON.parse] makes of a body the blob service sends: a listing,
    whose [blobs] member is an array of descriptors, or some other object
    with scalar members (a stored token record, an acknowledgement, an
    error report). *)
Inductive jsondata : Type :=
| Listing (blobs : list blob)
| Object (d : doc).

(** A response: its status, the text of its body ([.text()]) and what
    parsing that text as JSON gives ([.json()], [JSON.parse]); [inl msg] is
    the SyntaxError of a body that is not JSON. *)
Record reply : Type := {
  status : Z;
  raw : string;
  parsed : string + jsondata
}.

Definition ok (r : reply) : bool := (200 <=? status r) && (status r <=? 299).

(** The promise of a [fetch] settles: rejected with an error, or resolved
    with a response. *)
Inductive outcome : Type :=
| Rejected (msg : string)
| Resolved (r : reply).

(** Programs over the two effects.  An exception is the [message] of the
    thrown error. *)
Inductive prog (A : Type) : Type :=
| Ret (a : A)
| Throw (msg : string)
| Clock (k : Z -> prog A)                                (* new Date(), Date.now() *)
| Await (rq : request) (k : outcome -> prog A)           (* one fetch, settled *)
| AwaitAll (rqs : list request) (k : list outcome -> prog A).
    (* fetches issued together, all settled before the program goes on *)

Arguments Ret {A} a.
Arguments Throw {A} msg.
Arguments Clock {A} k.
Arguments Await {A} rq k.
Arguments AwaitAll {A} rqs k.

Fixpoint bind {A B : Type} (p : prog A) (f : A -> prog B) : prog B :=
  match p with
  | Ret a => f a
  | Throw m => Throw m
  | Clock k => Clock (fun t => bind (k t) f)
  | Await rq k => Await rq (fun o => bind (k o) f)
  | AwaitAll rqs k => AwaitAll rqs (fun os => bind (k os) f)
  end.

(** [try { p } catch (e) { h(e.message) }]. *)
Fixpoint try_catch {A : Type} (p : prog A) (h : string -> prog A) : prog A :=
  match p with
  | Ret a => Ret a
  | Throw m => h m
  | Clock k => Clock (fun t => try_catch (k t) h)
  | Await rq k => Await rq (fun o => try_catch (k o) h)
  | AwaitAll rqs k => AwaitAll rqs (fun os => try_catch (k os) h)
  end.

Notation "x <- p ;; q" := (bind p (fun x => q))
  (at level 61, p at next level, right associativity).

(** [await fetch(...)]: a rejection is thrown. *)
Definition fetch (rq : request) : prog reply :=
  Await rq (fun o =>
    match o with
    | Rejected m => Throw m
    | Resolved r => Ret r
    end).

(** [await response.json()], [JSON.parse(await response.text())]. *)
Definition json_body (r : reply) : prog jsondata :=
  match parsed r with
  | inl m => Throw m
  | inr j => Ret j
  end.

(** *** Runs *)

(** The outside world: a clock and a blob service over some state. *)
Record service (S : Type) : Type := {
  tick : S -> Z * S;
  serve : request -> S -> outcome * S
}.

Arguments tick {S} _ _.
Arguments serve {S} _ _ _.

(** What a run leaves behind, in the order it happened. *)
Inductive event : Type :=
| Read (t : Z)
| One (rq : request) (o : outcome)
| AllOf (batch : list (request * outcome)).

Inductive result (A : Type) : Type :=
| Returned (a : A)
| Uncaught (msg : string).

Arguments Returned {A} a.
Arguments Uncaught {A} msg.

Section Run.
Context {S : Type} (sv : service S).

(** The requests of a batch reach the service one after the other. *)
Fixpoint serve_all (rqs : list request) (s : S) : list outcome * S :=
  match rqs with
  | [] => ([], s)
  | rq :: rqs' =>
      let (o, s1) := serve sv rq s in
      let (os, s2) := serve_all rqs' s1 in
      (o :: os, s2)
  end.

Fixpoint exec {A : Type} (p : prog A) (s : S) : result A * S * list event :=
  match p with
  | Ret a => (Returned a, s, [])
  | Throw m => (Uncaught m, s, [])
  | Clock k =>
      let (t, s1) := tick sv s in
      let '(r, s2, l) := exec (k t) s1 in
      (r, s2, Read t :: l)
  | Await rq k =>
      let (o, s1) := serve sv rq s in
      let '(r, s2, l) := exec (k o) s1 in
      (r, s2, One rq o :: l)
  | AwaitAll rqs k =>
      let (os, s1) := serve_all rqs s in
      let '(r, s2, l) := exec (k os) s1 in
      (r, s2, AllOf (combine rqs os) :: l)
  end.
End Run.

Definition outcome_of {A S : Type} (x : result A * S * list event) : result A :=
  fst (fst x).
Definition state_of {A S : Type} (x : result A * S * list event) : S :=
  snd (fst x).
Definition log_of {A S : Type} (x : result A * S * list event) : list event :=
  snd x.

(** The requests of a log, a batch in the order of issue. *)
Fixpoint requests (l : list event) : list request :=
  match l with
  | [] => []
  | Read _ :: l' => requests l'
  | One rq _ :: l' => rq :: requests l'
  | AllOf b :: l' => (map fst b ++ requests l')%list
  end.

End Net.

Import Net.

(** ** The handler *)

Module Notifier.

Definition TOKEN_PREFIX : string := "upstox_access_token".

Definition baseUrl : string := "https://blob.vercel-storage.com".

(** [req]: the method and the parsed body; [None] is a body that is
    [undefined]. *)
Record http_request : Type := {
  method : string;
  body : option doc
}.

(** What [res] has been told when the handler returns. *)
Record http_response : Type := {
  res_status : Z;
  res_headers : list (string * string);
  res_body : option doc             (* [None]: ended without a body *)
}.

Definition cors : list (string * string) :=
  [ ("Access-Control-Allow-Origin", "*");
    ("Access-Control-Allow-Methods", "GET, POST, OPTIONS");
    ("Access-Control-Allow-Headers", "Content-Type, X-API-Key, Authorization") ].

(** [res.status(st).json(o)]. *)
Definition respond (st : Z) (o : list (string * jsval)) : http_response :=
  {| res_status := st; res_headers := cors; res_body := Some (JSON_stringify o) |}.

(** [res.status(st).end()]. *)
Definition respond_end (st : Z) : http_response :=
  {| res_status := st; res_headers := cors; res_body := None |}.

Definition bearer (blobToken : string) : option string :=
  Some ("Bearer " ++ blobToken).

Definition list_request (blobToken : string) : request :=
  {| rq_method := "GET";
     rq_url := baseUrl ++ "?prefix=" ++ TOKEN_PREFIX;
     rq_authorization := bearer blobToken;
     rq_content_type := None;
     rq_body := None |}.

Definition delete_request (blobToken : string) (b : blob) : request :=
  {| rq_method := "DELETE";
     rq_url := url b;
     rq_authorization := bearer blobToken;
     rq_content_type := None;
     rq_body := None |}.

Definition uniqueFilename (now : Z) : string :=
  TOKEN_PREFIX ++ "_" ++ dec now ++ ".json".

Definition put_request (blobToken : string) (now : Z) (tokenData : list (string * jsval))
  : request :=
  {| rq_method := "PUT";
     rq_url := baseUrl ++ "/" ++ uniqueFilename now;
     rq_authorization := bearer blobToken;
     rq_content_type := Some "application/json";
     rq_body := Some (JSON_stringify tokenData) |}.

Definition read_request (b : blob) : request :=
  {| rq_method := "GET";
     rq_url := url b;
     rq_authorization := None;
     rq_content_type := None;
     rq_body := None |}.

(** From here on the handler calls parseInt: the engine's. *)
Section WithEngine.
Context {E : Engine}.

(** [expires_at ? Math.round((new Date(parseInt(expires_at)) - new Date())
    / (1000 * 60 * 60)) : null]; the clock is read only on the first arm. *)
Definition hours_left (expires_at : jsval) : prog jsval :=
  if truthy expires_at
  then Clock (fun now => Ret (round_hours (new_Date (engine_parseInt expires_at)) now))
  else Ret VNull.

(** Lines 53-81: list the token files and ask for each to be deleted;
    whatever goes wrong here is logged and dropped. *)
Definition cleanup (blobToken : string) : prog unit :=
  try_catch
    (listResponse <- fetch (list_request blobToken) ;;
     if ok listResponse then
       listData <- json_body listResponse ;;
       match listData with
       | Listing [] => Ret tt
       | Listing blobs =>
           (* each delete catches its own failure *)
           AwaitAll (map (delete_request blobToken) blobs) (fun _ => Ret tt)
       | Object d =>
           match get "blobs" d with
           | VStr s =>
               if (s =? EmptyString)%string then Ret tt
               else Throw "listData.blobs.map is not a function"
           | _ => Ret tt
           end
       end
     else Ret tt)
    (fun _ => Ret tt).

Definition tokenData_of (d : doc) (timestamp : string) (hours : jsval)
  : list (string * jsval) :=
  [ ("access_token", get "access_token" d);
    ("expires_at", get "expires_at" d);
    ("issued_at", get "issued_at" d);
    ("client_id", get "client_id" d);
    ("user_id", get "user_id" d);
    ("stored_at", VStr timestamp);
    ("expires_in_hours", hours) ].

Definition missing_token : http_response :=
  respond 400
    [ ("success", VBool false);
      ("message", VStr "access_token is required") ].

Definition token_stored (d : doc) (timestamp : string) (hours : jsval)
  : http_response :=
  respond 200
    [ ("success", VBool true);
      ("message", VStr "Access token updated successfully");
      ("expires_in_hours", hours);
      ("stored_at", VStr timestamp);
      ("client_id", get "client_id" d) ].

Definition store_failed (msg : string) : http_response :=
  respond 500
    [ ("success", VBool false);
      ("message", VStr "Failed to update access token");
      ("error", VStr msg) ].

(** Lines 27-119. *)
Definition handle_post (blobToken timestamp : string) (req : http_request)
  : prog http_response :=
  match body req with
  | None =>
      Throw "Cannot destructure property 'access_token' of 'req.body' as it is undefined."
  | Some d =>
      if negb (truthy (get "access_token" d)) then Ret missing_token
      else
        hours <- hours_left (get "expires_at" d) ;;
        let tokenData := tokenData_of d timestamp hours in
        try_catch
          (_ <- cleanup blobToken ;;
           Clock (fun now =>
             storeResponse <- fetch (put_request blobToken now tokenData) ;;
             if negb (ok storeResponse) then
               Throw ("Blob API error: " ++ dec (status storeResponse)
                        ++ " - " ++ raw storeResponse)
             else
               _ <- json_body storeResponse ;;
               Ret (token_stored d timestamp hours)))
          (fun msg => Ret (store_failed msg))
  end.

(** [blobs.sort(cmp)]: stable; [cmp a b <= 0] keeps [a] before [b]. *)
Fixpoint insert_by (cmp : blob -> blob -> Z) (x : blob) (l : list blob) : list blob :=
  match l with
  | [] => [x]
  | y :: l' => if cmp x y <=? 0 then x :: l else y :: insert_by cmp x l'
  end.

Fixpoint sort_by (cmp : blob -> blob -> Z) (l : list blob) : list blob :=
  match l with
  | [] => []
  | x :: l' => insert_by cmp x (sort_by cmp l')
  end.

(** [(a, b) => new Date(b.uploadedAt) - new Date(a.uploadedAt)]. *)
Definition newest_first (a b : blob) : Z := uploadedAt b - uploadedAt a.

Definition not_found : http_response :=
  respond 404
    [ ("success", VBool false);
      ("message", VStr "No access token found. Please generate a new token first.") ].

(** [tokenData.k] on the parsed content of the token file. *)
Definition token_field (tokenData : jsondata) (k : string) : jsval :=
  match tokenData with
  | Object d => get k d
  | Listing _ => VUndefined
  end.

Definition token_expired (t : Z) : http_response :=
  respond 410
    [ ("success", VBool false);
      ("message", VStr "Token has expired. Please generate a new token.");
      ("expired_at", VStr (toISOString t)) ].

Definition token_found (tokenData : jsondata) (isExpired timeUntilExpiry : jsval)
  : http_response :=
  respond 200
    [ ("success", VBool true);
      ("access_token", token_field tokenData "access_token");
      ("expires_at", token_field tokenData "expires_at");
      ("expires_in_hours", timeUntilExpiry);
      ("client_id", token_field tokenData "client_id");
      ("user_id", token_field tokenData "user_id");
      ("stored_at", token_field tokenData "stored_at");
      ("is_valid", VBool (negb (truthy isExpired))) ].

Definition retrieve_failed (msg : string) : http_response :=
  respond 500
    [ ("success", VBool false);
      ("message", VStr "Failed to retrieve token");
      ("error", VStr msg) ].

(** Lines 187-202: what the GET answers when something was thrown. *)
Definition get_failure (msg : string) : http_response :=
  if includes "404" msg || includes "not found" msg then not_found
  else retrieve_failed msg.

(** Lines 152-185: fetch the chosen file and report on the token in it. *)
Definition serve_token (latestTokenFile : blob) : prog http_response :=
  tokenResponse <- fetch (read_request latestTokenFile) ;;
  if negb (ok tokenResponse) then
    Throw ("Failed to fetch token content: " ++ dec (status tokenResponse))
  else
    tokenData <- json_body tokenResponse ;;
    let expires_at := token_field tokenData "expires_at" in
    isExpired <-
      (if truthy expires_at
       then Clock (fun now =>
              Ret (VBool (date_gt now (new_Date (engine_parseInt expires_at)))))
       else Ret expires_at) ;;
    timeUntilExpiry <- hours_left expires_at ;;
    if truthy isExpired then
      match new_Date (engine_parseInt expires_at) with
      | Some t => Ret (token_expired t)
      | None => Throw "Invalid time value"
      end
    else Ret (token_found tokenData isExpired timeUntilExpiry).

(** Lines 121-203. *)
Definition handle_get (blobToken : string) : prog http_response :=
  try_catch
    (listResponse <- fetch (list_request blobToken) ;;
     if negb (ok listResponse) then
       Throw ("Failed to list token files: " ++ dec (status listResponse))
     else
       listData <- json_body listResponse ;;
       match listData with
       | Listing [] => Ret not_found
       | Listing blobs =>
           match sort_by newest_first blobs with
           | latestTokenFile :: _ => serve_token latestTokenFile
           | [] => Throw "Cannot read properties of undefined (reading 'pathname')"
           end
       | Object d =>
           if truthy (get "blobs" d)
           then Throw "listData.blobs.sort is not a function"
           else Ret not_found
       end)
    (fun msg => Ret (get_failure msg)).

Definition not_configured : http_response :=
  respond 500
    [ ("success", VBool false);
      ("message", VStr "Blob storage not configured") ].

(** [!process.env.BLOB_READ_WRITE_TOKEN] is false: the variable is set and
    not empty. *)
Definition configured (BLOB_READ_WRITE_TOKEN : option string) : option string :=
  match BLOB_READ_WRITE_TOKEN with
  | Some t => if (t =? EmptyString)%string then None else Some t
  | None => None
  end.

Definition method_not_allowed (m : string) : http_response :=
  respond 405
    [ ("success", VBool false);
      ("message", VStr ("Method " ++ m ++ " not allowed")) ].

Definition internal_error (msg : string) : http_response :=
  respond 500
    [ ("success", VBool false);
      ("message", VStr "Internal server error");
      ("error", VStr msg) ].

(** The exported handler; the environment variable comes first. *)
Definition handler (BLOB_READ_WRITE_TOKEN : option string) (req : http_request)
  : prog http_response :=
  Clock (fun t0 =>
    let timestamp := toISOString t0 in
    if (method req =? "OPTIONS")%string then Ret (respond_end 200)
    else
      try_catch
        (match configured BLOB_READ_WRITE_TOKEN with
         | None => Ret not_configured
         | Some blobToken =>
             if (method req =? "POST")%string then
               handle_post blobToken timestamp req
             else if (method req =? "GET")%string then
               handle_get blobToken
             else Ret (method_not_allowed (method req))
         end)
        (fun msg => Ret (internal_error msg))).

End WithEngine.

End Notifier.

Import Notifier.

(** ** A blob store to run against

    The store the handler is deployed with is not part of the repository.
    This one keeps blobs by pathname, lists by prefix, deletes by URL and
    can be told to fail chosen requests; it stands for the service in the
    statements about what is left in the store. *)

Module BlobStore.

Record entry : Type := {
  descriptor : blob;
  content : doc
}.

(** How a request can go wrong before the store acts on it. *)
Inductive fault : Type :=
| Unreachable (msg : string)            (* the fetch rejects *)
| Refused (st : Z) (text : string).     (* an error status, nothing done *)

Record world : Type := {
  now : Z;
  entries : list entry;
  faults : list (option fault)          (* one per request to come *)
}.

Fixpoint strip_prefix (p s : string) : option string :=
  match p, s with
  | EmptyString, _ => Some s
  | String a p', String b s' => if Ascii.eqb a b then strip_prefix p' s' else None
  | String _ _, EmptyString => None
  end.

Definition public_url (path : string) : string :=
  "https://store.public.blob.vercel-storage.com/" ++ path.

Definition quote_mark : string := String (ascii_of_nat 34) EmptyString.

Definition quoted (s : string) : string := quote_mark ++ s ++ quote_mark.

Definition json_text (j : json) : string :=
  match j with
  | JNull => "null"
  | JBool true => "true"
  | JBool false => "false"
  | JNum n => dec n
  | JStr s => quoted s
  end.

Fixpoint members_text (d : doc) : string :=
  match d with
  | [] => EmptyString
  | [(k, v)] => quoted k ++ ":" ++ json_text v
  | (k, v) :: d' => quoted k ++ ":" ++ json_text v ++ "," ++ members_text d'
  end.

Definition doc_text (d : doc) : string := "{" ++ members_text d ++ "}".

Definition blob_doc (b : blob) : doc :=
  [ ("url", JStr (url b));
    ("pathname", JStr (pathname b));
    ("uploadedAt", JStr (toISOString (uploadedAt b))) ].

Fixpoint blobs_text (l : list blob) : string :=
  match l with
  | [] => EmptyString
  | [b] => doc_text (blob_doc b)
  | b :: l' => doc_text (blob_doc b) ++ "," ++ blobs_text l'
  end.

Definition json_reply (st : Z) (text : string) (j : jsondata) : outcome :=
  Resolved {| status := st; raw := text; parsed := inr j |}.

Definition text_reply (st : Z) (text : string) : outcome :=
  Resolved {| status := st; raw := text;
              parsed := inl "Unexpected token in JSON at position 0" |}.

Definition has_prefix (p : string) (e : entry) : bool :=
  prefix p (pathname (descriptor e)).

Definition at_url (u : string) (e : entry) : bool :=
  (url (descriptor e) =? u)%string.

Definition at_path (path : string) (e : entry) : bool :=
  (pathname (descriptor e) =? path)%string.

(** The store acting, at time [t], on a request that reached it: the
    answer and the blobs it keeps. *)
Definition act (rq : request) (t : Z) (es : list entry) : outcome * list entry :=
  if (rq_method rq =? "GET")%string then
    match strip_prefix (baseUrl ++ "?prefix=") (rq_url rq) with
    | Some p =>
        let found := map descriptor (filter (has_prefix p) es) in
        (json_reply 200 ("{" ++ quoted "blobs" ++ ":[" ++ blobs_text found ++ "]}")
           (Listing found), es)
    | None =>
        match find (at_url (rq_url rq)) es with
        | Some e => (json_reply 200 (doc_text (content e)) (Object (content e)), es)
        | None => (text_reply 404 "Not Found", es)
        end
    end
  else if (rq_method rq =? "DELETE")%string then
    (json_reply 200 "{}" (Object []),
     filter (fun e => negb (at_url (rq_url rq) e)) es)
  else if (rq_method rq =? "PUT")%string then
    match strip_prefix (baseUrl ++ "/") (rq_url rq), rq_body rq with
    | Some path, Some d =>
        let b := {| url := public_url path; pathname := path; uploadedAt := t |} in
        (json_reply 200 (doc_text (blob_doc b)) (Object (blob_doc b)),
         (filter (fun e => negb (at_path path e)) es
            ++ [{| descriptor := b; content := d |}])%list)
    | _, _ => (text_reply 400 "Bad Request", es)
    end
  else (text_reply 405 "Method Not Allowed", es).

Definition fail (f : fault) : outcome :=
  match f with
  | Unreachable msg => Rejected msg
  | Refused st text => text_reply st text
  end.

(** A request meets the next planned fault, if there is one, and the
    store otherwise. *)
Definition blob_serve (rq : request) (w : world) : outcome * world :=
  match hd None (faults w) with
  | Some f =>
      (fail f, {| now := now w; entries := entries w; faults := tl (faults w) |})
  | None =>
      let (o, es) := act rq (now w) (entries w) in
      (o, {| now := now w; entries := es; faults := tl (faults w) |})
  end.

(** Each reading of the clock is a millisecond later than the last. *)
Definition blob_tick (w : world) : Z * world :=
  (now w, {| now := now w + 1; entries := entries w; faults := faults w |}).

Definition blob_service : service world :=
  {| tick := blob_tick; serve := blob_serve |}.

(** The pathnames in the store that start with the token prefix. *)
Definition token_keys (w : world) : list string :=
  map (fun e => pathname (descriptor e)) (filter (has_prefix TOKEN_PREFIX) (entries w)).

(** What is left of the blobs after a delete for each of [bs]. *)
Definition without (bs : list blob) (es : list entry) : list entry :=
  fold_left (fun es b => filter (fun e => negb (at_url (url b) e)) es) bs es.

(** No request to come is planned to fail. *)
Definition fault_free (w : world) : Prop :=
  Forall (fun f => f = None) (faults w).

End BlobStore.

Import BlobStore.


(** ** Reading runs *)

(** A member of the JSON body of the response. *)
Definition field (k : string) (r : http_response) : option json :=
  match res_body r with
  | Some d => lookup k d
  | None => None
  end.

(** The blobs a listing call has reported: those of an OK response whose
    body is a listing. *)
Definition listed (o : outcome) : list blob :=
  match o with
  | Resolved r =>
      if ok r then
        match parsed r with
        | inr (Listing bs) => bs
        | _ => []
        end
      else []
  | Rejected _ => []
  end.

(** The events of the deletes: nothing when no blob was listed, else one
    batch with a delete for each listed blob. *)
Definition deletions (blobToken : string) (bs : list blob) (outs : list outcome)
  : list event :=
  match bs with
  | [] => []
  | _ => [AllOf (combine (map (delete_request blobToken) bs) outs)]
  end.

(** Why the PUT did not store, if it did not. *)
Definition store_error (o : outcome) : option string :=
  match o with
  | Rejected m => Some m
  | Resolved r =>
      if ok r then
        match parsed r with
        | inl m => Some m
        | inr _ => None
        end
      else Some ("Blob API error: " ++ dec (status r) ++ " - " ++ raw r)
  end.

(** The store took the PUT: an OK response with a JSON body. *)
Definition stored (o : outcome) : Prop :=
  exists r j, o = Resolved r /\ ok r = true /\ parsed r = inr j.

(** The PUT failed: rejected, or answered with an error status. *)
Definition put_failed (o : outcome) : Prop :=
  match o with
  | Rejected _ => True
  | Resolved r => ok r = false
  end.

Definition post_response (d : doc) (timestamp : string) (hours : jsval) (o : outcome)
  : http_response :=
  match store_error o with
  | None => token_stored d timestamp hours
  | Some msg => store_failed msg
  end.

(** What the listing call of a GET leads to: an answer at once, or the
    token file to fetch. *)
Definition listing_result (o : outcome) : http_response + blob :=
  match o with
  | Rejected m => inl (get_failure m)
  | Resolved r =>
      if ok r then
        match parsed r with
        | inl m => inl (get_failure m)
        | inr (Listing []) => inl not_found
        | inr (Listing bs) =>
            match sort_by newest_first bs with
            | latest :: _ => inr latest
            | [] => inl (get_failure
                           "Cannot read properties of undefined (reading 'pathname')")
            end
        | inr (Object d) =>
            if truthy (get "blobs" d)
            then inl (get_failure "listData.blobs.sort is not a function")
            else inl not_found
        end
      else inl (get_failure ("Failed to list token files: " ++ dec (status r)))
  end.

(** What the fetch of the token file leads to: an answer at once, or the
    parsed content. *)
Definition token_result (o : outcome) : http_response + jsondata :=
  match o with
  | Rejected m => inl (get_failure m)
  | Resolved r =>
      if ok r then
        match parsed r with
        | inl m => inl (get_failure m)
        | inr j => inr j
        end
      else inl (get_failure ("Failed to fetch token content: " ++ dec (status r)))
  end.

Definition or_else (a b : option json) : option json :=
  match a with
  | Some w => Some w
  | None => b
  end.

(** The member [k] of the text [JSON.stringify] writes for an object
    literal, read off the literal. *)
Fixpoint lookup_value (k : string) (o : list (string * jsval)) : option json :=
  match o with
  | [] => None
  | (k', v) :: o' =>
      or_else (lookup_value k o')
              (if (k' =? k)%string then stringify_value v else None)
  end.

(** The name [k], if the request body [d] has such a member. *)
Definition supplied (k : string) (d : doc) : list string :=
  match lookup k d with
  | Some _ => [k]
  | None => []
  end.

(** What the handler's tests of [expires_at] take for no expiry: the
    member is missing, or it holds null, false, 0 or the empty string. *)
Definition no_expiry (o : option json) : Prop :=
  o = None \/ o = Some JNull \/ o = Some (JBool false)
  \/ o = Some (JNum 0) \/ o = Some (JStr EmptyString).

(** [Math.round((new Date(parseInt(expires_at)) - now) / 3600000)] as
    JSON writes it: a number, or null for NaN. *)
Definition hours_json {E : Engine} (expires_at : jsval) (now : Z) : json :=
  match new_Date (engine_parseInt expires_at) with
  | Some t => JNum ((t - now + 1800000) / 3600000)
  | None => JNull
  end.

(** The response says the token is good and hands out the stored one. *)
Definition reports_valid (resp : http_response) (d : doc) : Prop :=
  res_status resp = 200
  /\ field "success" resp = Some (JBool true)
  /\ field "is_valid" resp = Some (JBool true)
  /\ field "access_token" resp = lookup "access_token" d.

(** The response says the token ran out at [t]. *)
Definition reports_expired (resp : http_response) (t : Z) : Prop :=
  res_status resp = 410
  /\ field "success" resp = Some (JBool false)
  /\ field "expired_at" resp = Some (JStr (toISOString t)).

(** The response is an error with the given status. *)
Definition refuses (resp : http_response) (st : Z) : Prop :=
  res_status resp = st /\ field "success" resp = Some (JBool false).

(** The response is the success of a POST. *)
Definition accepts (resp : http_response) : Prop :=
  res_status resp = 200 /\ field "success" resp = Some (JBool true).

Definition is_get (rq : request) : Prop := rq_method rq = "GET".

(** The members of the request body that the token record takes over. *)
Definition token_fields : list string :=
  ["access_token"; "expires_at"; "issued_at"; "client_id"; "user_id"].

(** *** Sample runs *)

Definition sample_world : world :=
  {| now := 1700000000000; entries := []; faults := [] |}.

Definition sample_post : http_request :=
  {| method := "POST";
     body := Some [ ("access_token", JStr "tok");
                    ("expires_at", JStr "1700003600000");
                    ("client_id", JStr "c1") ] |}.

Definition sample_get : http_request := {| method := "GET"; body := None |}.

(** A POST that brings the token and nothing else. *)
Definition sample_post_bare : http_request :=
  {| method := "POST"; body := Some [("access_token", JStr "tok")] |}.

Definition sample_delete : http_request := {| method := "DELETE"; body := None |}.

Definition sample_env : option string := Some "secret".

(** A store that holds an earlier token file and will not answer the next
    request. *)
Definition sample_world_stale : world :=
  {| now := 1700000000000;
     entries :=
       [ {| descriptor :=
              {| url := public_url "upstox_access_token_1699990000000.json";
                 pathname := "upstox_access_token_1699990000000.json";
                 uploadedAt := 1699990000000 |};
            content := [("access_token", JStr "old")] |} ];
     faults := [Some (Unreachable "fetch failed")] |}.

(** The store of [sample_world_stale], answering every request. *)
Definition sample_world_kept : world :=
  {| now := 1700000000000;
     entries := entries sample_world_stale;
     faults := [] |}.

(** The store of [sample_world_stale], set to answer the listing and the
    one delete and then to refuse the PUT. *)
Definition sample_world_put_fails : world :=
  {| now := 1700000000000;
     entries := entries sample_world_stale;
     faults := [None; None; Some (Refused 503 "Service Unavailable")] |}.

(** A service that plays back the answers it is given, one per request,
    under a clock that stands still. *)
Definition scripted (t : Z) : service (list outcome) :=
  {| tick := fun s => (t, s);
     serve := fun _ s =>
       match s with
       | o :: s' => (o, s')
       | [] => (Rejected "fetch failed", [])
       end |}.

Definition json_answer (st : Z) (j : jsondata) : reply :=
  {| status := st; raw := "{}"; parsed := inr j |}.

Definition sample_blobs : list blob :=
  [ {| url := "https://store/a"; pathname := "upstox_access_token_1.json";
       uploadedAt := 1699990000000 |};
    {| url := "https://store/b"; pathname := "upstox_access_token_3.json";
       uploadedAt := 1699999000000 |};
    {| url := "https://store/c"; pathname := "upstox_access_token_2.json";
       uploadedAt := 1699995000000 |} ].

Definition sample_listing : reply := json_answer 200 (Listing sample_blobs).

Definition sample_newest : blob :=
  {| url := "https://store/b"; pathname := "upstox_access_token_3.json";
     uploadedAt := 1699999000000 |}.

(** Answers under which the whole cleanup goes wrong and the PUT goes
    through: the listing reports three blobs, the first delete is
    rejected, the other two are refused. *)
Definition sample_cleanup_failing : list outcome :=
  [ Resolved sample_listing;
    Rejected "socket hang up";
    Resolved {| status := 500; raw := "Internal Server Error";
                parsed := inl "Unexpected token I in JSON at position 0" |};
    Resolved {| status := 403; raw := "Forbidden";
                parsed := inl "Unexpected token F in JSON at position 0" |};
    Resolved (json_answer 200 (Object [])) ].

(** The store has lost the blob: 404 with a body that is not JSON. *)
Definition sample_gone : reply :=
  {| status := 404; raw := "Not Found";
     parsed := inl "Unexpected token N in JSON at position 0" |}.

(** Two blobs uploaded at the same instant after an older one. *)
Definition sample_tied : list blob :=
  [ {| url := "https://store/a"; pathname := "upstox_access_token_1.json";
       uploadedAt := 1699990000000 |};
    {| url := "https://store/b"; pathname := "upstox_access_token_2.json";
       uploadedAt := 1699999000000 |};
    {| url := "https://store/c"; pathname := "upstox_access_token_3.json";
       uploadedAt := 1699999000000 |} ].

(** A stored record with an expiry and one without. *)
Definition sample_record (expires_at : string) : doc :=
  [ ("access_token", JStr "tok");
    ("expires_at", JStr expires_at);
    ("stored_at", JStr "2023-11-14T22:13:20.000Z");
    ("expires_in_hours", JNum 1) ].


(** A stored record whose expires_at is the number 0, the first
    millisecond of 1970. *)
Definition sample_record_zero : doc :=
  [ ("access_token", JStr "tok"); ("expires_at", JNum 0) ].

(** A POST of a token that ran out long before the sample clock. *)
Definition sample_post_past : http_request :=
  {| method := "POST";
     body := Some [ ("access_token", JStr "tok");
                    ("expires_at", JStr "1600000000000") ] |}.

(** *** Further vocabulary *)

(** A JSON answer of the handler: the CORS headers, one of the [allowed]
    statuses, and a [success] member that is true exactly for 200. *)
Definition well_formed_answer (allowed : list Z) (resp : http_response) : Prop :=
  res_headers resp = cors
  /\ In (res_status resp) allowed
  /\ field "success" resp = Some (JBool (res_status resp =? 200)).

(** The request carries the blob token, and only that, as its credential. *)
Definition authorized (tok : string) (rq : request) : Prop :=
  rq_authorization rq = Some ("Bearer " ++ tok).

(** The request carries no credential and no body. *)
Definition anonymous_read (rq : request) : Prop :=
  rq_method rq = "GET" /\ rq_authorization rq = None /\ rq_body rq = None.

(** The blobs of the store are where the store serves them from. *)
Definition well_kept (w : world) : Prop :=
  forall e, In e (entries w) ->
            url (descriptor e) = public_url (pathname (descriptor e)).

(** The blob a PUT to the key of instant [t] leaves in the store when it
    is served at [uploaded]. *)
Definition written (t uploaded : Z) (record : doc) : entry :=
  {| descriptor := {| url := public_url (uniqueFilename t);
                      pathname := uniqueFilename t;
                      uploadedAt := uploaded |};
     content := record |}.

(** Every blob of the store was uploaded before the store's clock reads
    now. *)
Definition all_older (w : world) : Prop :=
  forall e, In e (entries w) -> uploadedAt (descriptor e) < now w.

Section Shapes.
Context {E : Engine} {S : Type} (sv : service S).

(** The reading of the clock that the hours to expiry take, when the
    expiry is looked at at all. *)
Definition expiry_reads (expires_at : jsval) (s : S) : jsval * S * list event :=
  if truthy expires_at then
    let (t, s1) := tick sv s in
    (round_hours (new_Date (engine_parseInt expires_at)) t, s1, [Read t])
  else (VNull, s, []).

(** How the hours to expiry came about in a run: from one reading of
    the clock, or without any when the expiry is not looked at. *)
Definition expiry_read (expires_at : jsval) (reads : list event) (hours : jsval)
  : Prop :=
  if truthy expires_at then
    exists t1, reads = [Read t1]
               /\ hours = round_hours (new_Date (engine_parseInt expires_at)) t1
  else reads = [] /\ hours = VNull.

(** The report on a fetched token: the clock is read twice when the
    record has an expiry to look at, and not at all otherwise. *)
Definition token_report (tokenData : jsondata) (s : S)
  : http_response * S * list event :=
  let expires_at := token_field tokenData "expires_at" in
  if truthy expires_at then
    let (now, s1) := tick sv s in
    let (now', s2) := tick sv s1 in
    let expiry := new_Date (engine_parseInt expires_at) in
    (if date_gt now expiry then
       match expiry with
       | Some t => token_expired t
       | None => get_failure "Invalid time value"
       end
     else token_found tokenData (VBool false) (round_hours expiry now'),
     s2, [Read now; Read now'])
  else (token_found tokenData expires_at VNull, s, []).
End Shapes.

#[global] Arguments toISOString : simpl never.
#[global] Arguments dec : simpl never.
#[global] Arguments respond : simpl never.
#[global] Arguments list_request : simpl never.
#[global] Arguments delete_request : simpl never.
#[global] Arguments put_request : simpl never.
#[global] Arguments read_request : simpl never.
#[global] Arguments tokenData_of : simpl never.
#[global] Arguments round_hours : simpl never.
#[global] Arguments new_Date : simpl never.
#[global] Arguments parseInt : simpl never.
#[global] Arguments sort_by : simpl never.
#[global] Arguments includes : simpl never.
#[global] Arguments get : simpl never.
#[global] Arguments truthy : simpl never.
#[global] Arguments ok : simpl never.
#[global] Arguments handle_get : simpl never.
#[global] Arguments handle_post : simpl never.
#[global] Arguments cleanup : simpl never.

(** ** What JSON.stringify writes *)

Lemma or_else_none_r (a : option json) : or_else a None = a.
Proof. now destruct a. Qed.

Lemma stringify_get (k : string) (d : doc) :
  stringify_value (get k d) = lookup k d.
Proof. unfold get. destruct (lookup k d) as [[| | |]|]; reflexivity. Qed.

Lemma lookup_stringify (k : string) (o : list (string * jsval)) :
  lookup k (JSON_stringify o) = lookup_value k o.
Proof.
  induction o as [|[k' v] o IH]; [reflexivity|]. cbn.
  destruct (stringify_value v) as [j|]; cbn; rewrite IH; [reflexivity|].
  destruct (lookup_value k o), (k' =? k)%string; reflexivity.
Qed.

Lemma field_respond (k : string) (st : Z) (o : list (string * jsval)) :
  field k (respond st o) = lookup_value k o.
Proof. unfold field, respond. cbn. apply lookup_stringify. Qed.

Lemma stringify_round_hours {E : Engine} (v : jsval) (now : Z) :
  stringify_value (round_hours (new_Date (engine_parseInt v)) now) = Some (hours_json v now).
Proof.
  unfold hours_json, round_hours.
  destruct (new_Date (engine_parseInt v)); reflexivity.
Qed.

(** Reading a member of a literal with known names. *)
Ltac read_member :=
  rewrite ?field_respond, ?lookup_stringify;
  cbn [lookup_value String.eqb Ascii.eqb Bool.eqb or_else];
  rewrite ?or_else_none_r, ?stringify_get, ?stringify_round_hours.

(** ** How runs compose *)

Section Facts.
Context {E : Engine} {S : Type} (sv : service S).

Lemma exec_bind {A B : Type} (p : prog A) (f : A -> prog B) (s : S) :
  exec sv (bind p f) s =
  match exec sv p s with
  | (Returned a, s1, l1) =>
      let '(r, s2, l2) := exec sv (f a) s1 in (r, s2, (l1 ++ l2)%list)
  | (Uncaught m, s1, l1) => (Uncaught m, s1, l1)
  end.
Proof.
  revert s; induction p as [a|m|k IH|rq k IH|rqs k IH]; intros s; cbn.
  - destruct (exec sv (f a) s) as [[r s2] l2]; reflexivity.
  - reflexivity.
  - destruct (tick sv s) as [t s1]. rewrite IH.
    destruct (exec sv (k t) s1) as [[[a|m] s2] l]; [|reflexivity].
    destruct (exec sv (f a) s2) as [[r s3] l3]; reflexivity.
  - destruct (serve sv rq s) as [o s1]. rewrite IH.
    destruct (exec sv (k o) s1) as [[[a|m] s2] l]; [|reflexivity].
    destruct (exec sv (f a) s2) as [[r s3] l3]; reflexivity.
  - destruct (serve_all sv rqs s) as [os s1]. rewrite IH.
    destruct (exec sv (k os) s1) as [[[a|m] s2] l]; [|reflexivity].
    destruct (exec sv (f a) s2) as [[r s3] l3]; reflexivity.
Qed.

Lemma exec_try_catch {A : Type} (p : prog A) (h : string -> prog A) (s : S) :
  exec sv (try_catch p h) s =
  match exec sv p s with
  | (Returned a, s1, l1) => (Returned a, s1, l1)
  | (Uncaught m, s1, l1) =>
      let '(r, s2, l2) := exec sv (h m) s1 in (r, s2, (l1 ++ l2)%list)
  end.
Proof.
  revert s; induction p as [a|m|k IH|rq k IH|rqs k IH]; intros s; cbn.
  - reflexivity.
  - destruct (exec sv (h m) s) as [[r s2] l2]; reflexivity.
  - destruct (tick sv s) as [t s1]. rewrite IH.
    destruct (exec sv (k t) s1) as [[[a|m] s2] l]; [reflexivity|].
    destruct (exec sv (h m) s2) as [[r s3] l3]; reflexivity.
  - destruct (serve sv rq s) as [o s1]. rewrite IH.
    destruct (exec sv (k o) s1) as [[[a|m] s2] l]; [reflexivity|].
    destruct (exec sv (h m) s2) as [[r s3] l3]; reflexivity.
  - destruct (serve_all sv rqs s) as [os s1]. rewrite IH.
    destruct (exec sv (k os) s1) as [[[a|m] s2] l]; [reflexivity|].
    destruct (exec sv (h m) s2) as [[r s3] l3]; reflexivity.
Qed.

Lemma serve_all_length (rqs : list request) (s : S) :
  List.length (fst (serve_all sv rqs s)) = List.length rqs.
Proof.
  revert s; induction rqs as [|rq rqs IH]; intros s; cbn; [reflexivity|].
  destruct (serve sv rq s) as [o s1]. specialize (IH s1).
  destruct (serve_all sv rqs s1) as [os s2]. cbn in *. now rewrite IH.
Qed.

(** The cleanup never throws: it lists, asks for the listed blobs to be
    deleted in one batch, and returns whatever the answers were. *)
Lemma exec_cleanup (tok : string) (s : S) :
  exec sv (cleanup tok) s =
  let (o, s1) := serve sv (list_request tok) s in
  let (outs, s2) := serve_all sv (map (delete_request tok) (listed o)) s1 in
  (Returned tt, s2, One (list_request tok) o :: deletions tok (listed o) outs).
Proof.
  unfold cleanup, fetch, json_body; cbn.
  destruct (serve sv (list_request tok) s) as [[m|r] s1]; cbn; [reflexivity|].
  destruct (ok r); cbn; [|reflexivity].
  destruct (parsed r) as [m|[[|b bs]|d]]; cbn; try reflexivity.
  - destruct (serve sv (delete_request tok b) s1) as [o1 s2].
    destruct (serve_all sv (map (delete_request tok) bs) s2) as [os s3].
    reflexivity.
  - destruct (get "blobs" d); cbn; try reflexivity.
    destruct (s0 =? EmptyString)%string; reflexivity.
Qed.

Lemma exec_hours_left (v : jsval) (s : S) :
  exec sv (hours_left v) s =
  let '(hours, s1, reads) := expiry_reads sv v s in (Returned hours, s1, reads).
Proof.
  unfold hours_left, expiry_reads. destruct (truthy v); cbn; [|reflexivity].
  destruct (tick sv s) as [t s1]; reflexivity.
Qed.

(** A POST that carries a token, step by step. *)
Lemma exec_handle_post (tok ts : string) (req : http_request) (d : doc) (s : S) :
  body req = Some d ->
  truthy (get "access_token" d) = true ->
  exec sv (handle_post tok ts req) s =
  let '(hours, s1, reads) := expiry_reads sv (get "expires_at" d) s in
  let (o, s2) := serve sv (list_request tok) s1 in
  let (outs, s3) := serve_all sv (map (delete_request tok) (listed o)) s2 in
  let (now, s4) := tick sv s3 in
  let (o_put, s5) := serve sv (put_request tok now (tokenData_of d ts hours)) s4 in
  (Returned (post_response d ts hours o_put), s5,
   (reads ++ One (list_request tok) o :: deletions tok (listed o) outs
      ++ [Read now; One (put_request tok now (tokenData_of d ts hours)) o_put])%list).
Proof.
  intros Hb Ht. unfold handle_post. rewrite Hb, Ht. cbn [negb].
  rewrite exec_bind, exec_hours_left.
  destruct (expiry_reads sv (get "expires_at" d) s) as [[hours s1] reads].
  rewrite exec_try_catch, exec_bind, exec_cleanup.
  destruct (serve sv (list_request tok) s1) as [o s2].
  destruct (serve_all sv (map (delete_request tok) (listed o)) s2) as [outs s3].
  cbn.
  destruct (tick sv s3) as [now s4].
  destruct (serve sv (put_request tok now (tokenData_of d ts hours)) s4)
    as [[m|r] s5]; unfold post_response, json_body; cbn.
  - now rewrite app_nil_r.
  - destruct (ok r); cbn.
    + destruct (parsed r) as [m|j]; cbn; now rewrite ?app_nil_r.
    + now rewrite app_nil_r.
Qed.

(** A GET once the store is configured, step by step. *)
Lemma exec_handle_get (tok : string) (s : S) :
  exec sv (handle_get tok) s =
  let (o1, s1) := serve sv (list_request tok) s in
  match listing_result o1 with
  | inl resp => (Returned resp, s1, [One (list_request tok) o1])
  | inr latest =>
      let (o2, s2) := serve sv (read_request latest) s1 in
      match token_result o2 with
      | inl resp =>
          (Returned resp, s2,
           [One (list_request tok) o1; One (read_request latest) o2])
      | inr tokenData =>
          let '(resp, s3, reads) := token_report sv tokenData s2 in
          (Returned resp, s3,
           One (list_request tok) o1 :: One (read_request latest) o2 :: reads)
      end
  end.
Proof.
  unfold handle_get, fetch, json_body, listing_result. cbn.
  destruct (serve sv (list_request tok) s) as [[m|r] s1]; cbn; [reflexivity|].
  destruct (ok r); cbn; [|reflexivity].
  destruct (parsed r) as [m|[[|b bs]|d]]; cbn; try reflexivity.
  2: { destruct (truthy (get "blobs" d)); reflexivity. }
  destruct (sort_by newest_first (b :: bs)) as [|latest rest]; cbn; [reflexivity|].
  unfold serve_token, fetch, json_body, token_result, token_report, hours_left. cbn.
  destruct (serve sv (read_request latest) s1) as [[m|r2] s2]; cbn; [reflexivity|].
  destruct (ok r2); cbn; [|reflexivity].
  destruct (parsed r2) as [m|tokenData]; cbn; [reflexivity|].
  destruct (truthy (token_field tokenData "expires_at")) eqn:He; cbn.
  - destruct (tick sv s2) as [now s3]. cbn.
    destruct (tick sv s3) as [now' s4].
    destruct (date_gt now (new_Date (engine_parseInt (token_field tokenData "expires_at"))));
      unfold truthy; cbn; [|reflexivity].
    destruct (new_Date (engine_parseInt (token_field tokenData "expires_at"))); reflexivity.
  - rewrite He. reflexivity.
Qed.

(** Every run of a POST that carries a token, once the store is
    configured: what it asks of the store, in which order, and what it
    answers. *)
Lemma post_run (env : option string) (tok : string) (req : http_request)
      (d : doc) (s : S) :
  configured env = Some tok ->
  method req = "POST" ->
  body req = Some d ->
  truthy (get "access_token" d) = true ->
  exists t0 reads hours o outs now o_put,
    log_of (exec sv (handler env req) s) =
      (Read t0 :: reads ++ One (list_request tok) o
         :: deletions tok (listed o) outs
         ++ [Read now;
             One (put_request tok now (tokenData_of d (toISOString t0) hours)) o_put])%list
    /\ List.length outs = List.length (listed o)
    /\ expiry_read (get "expires_at" d) reads hours
    /\ outcome_of (exec sv (handler env req) s) =
         Returned (post_response d (toISOString t0) hours o_put).
Proof.
  intros Hc Hm Hb Ht. unfold handler. cbn.
  destruct (tick sv s) as [t0 s0]. rewrite Hm. cbn.
  rewrite exec_try_catch, Hc, (exec_handle_post _ _ _ d _ Hb Ht).
  unfold expiry_reads, expiry_read.
  pose proof (fun s => serve_all_length (map (delete_request tok) (listed (fst (serve sv (list_request tok) s)))) (snd (serve sv (list_request tok) s))) as Hlen.
  destruct (truthy (get "expires_at" d)).
  - destruct (tick sv s0) as [t1 s1].
    specialize (Hlen s1).
    destruct (serve sv (list_request tok) s1) as [o s2]. cbn [fst snd] in Hlen.
    destruct (serve_all sv (map (delete_request tok) (listed o)) s2) as [outs s3].
    destruct (tick sv s3) as [now s4].
    destruct (serve sv (put_request tok now _) s4) as [o_put s5].
    exists t0, [Read t1], (round_hours (new_Date (engine_parseInt (get "expires_at" d))) t1),
      o, outs, now, o_put.
    cbn in *. rewrite length_map in Hlen. repeat split; eauto.
  - specialize (Hlen s0).
    destruct (serve sv (list_request tok) s0) as [o s2]. cbn [fst snd] in Hlen.
    destruct (serve_all sv (map (delete_request tok) (listed o)) s2) as [outs s3].
    destruct (tick sv s3) as [now s4].
    destruct (serve sv (put_request tok now _) s4) as [o_put s5].
    exists t0, [], VNull, o, outs, now, o_put.
    cbn in *. rewrite length_map in Hlen. repeat split; eauto.
Qed.

(** *** The handler by method *)

Lemma exec_handler_post (env : option string) (tok : string)
      (req : http_request) (d : doc) (s : S) :
  configured env = Some tok ->
  method req = "POST" ->
  body req = Some d ->
  truthy (get "access_token" d) = true ->
  exec sv (handler env req) s =
  let (t0, s0) := tick sv s in
  let '(r, s1, l) := exec sv (handle_post tok (toISOString t0) req) s0 in
  (r, s1, Read t0 :: l).
Proof.
  intros Hc Hm Hb Ht. unfold handler. cbn.
  destruct (tick sv s) as [t0 s0]. rewrite Hm. cbn.
  rewrite exec_try_catch, Hc, (exec_handle_post _ _ _ d _ Hb Ht).
  destruct (expiry_reads sv (get "expires_at" d) s0) as [[hours s1] reads].
  destruct (serve sv (list_request tok) s1) as [o s2].
  destruct (serve_all sv (map (delete_request tok) (listed o)) s2) as [outs s3].
  destruct (tick sv s3) as [now s4].
  destruct (serve sv (put_request tok now _) s4) as [o_put s5].
  reflexivity.
Qed.

Lemma exec_handler_options (env : option string) (req : http_request) (s : S) :
  method req = "OPTIONS" ->
  exec sv (handler env req) s =
  let (t0, s0) := tick sv s in (Returned (respond_end 200), s0, [Read t0]).
Proof.
  intros Hm. unfold handler. cbn. destruct (tick sv s) as [t0 s0].
  rewrite Hm. reflexivity.
Qed.

Lemma exec_handler_unconfigured (env : option string) (req : http_request) (s : S) :
  method req <> "OPTIONS" ->
  configured env = None ->
  exec sv (handler env req) s =
  let (t0, s0) := tick sv s in (Returned not_configured, s0, [Read t0]).
Proof.
  intros Hm Hc. unfold handler. cbn. destruct (tick sv s) as [t0 s0].
  apply String.eqb_neq in Hm. rewrite Hm, Hc. reflexivity.
Qed.

Lemma exec_handler_other (env : option string) (tok : string)
      (req : http_request) (s : S) :
  method req <> "OPTIONS" -> method req <> "POST" -> method req <> "GET" ->
  configured env = Some tok ->
  exec sv (handler env req) s =
  let (t0, s0) := tick sv s in
  (Returned (method_not_allowed (method req)), s0, [Read t0]).
Proof.
  intros Ho Hp Hg Hc. unfold handler. cbn. destruct (tick sv s) as [t0 s0].
  apply String.eqb_neq in Ho, Hp, Hg. rewrite Ho, Hc, Hp, Hg. reflexivity.
Qed.

Lemma exec_handler_get (env : option string) (tok : string)
      (req : http_request) (s : S) :
  method req = "GET" ->
  configured env = Some tok ->
  exec sv (handler env req) s =
  let (t0, s0) := tick sv s in
  let '(r, s1, l) := exec sv (handle_get tok) s0 in
  (r, s1, Read t0 :: l).
Proof.
  intros Hm Hc. unfold handler. cbn. destruct (tick sv s) as [t0 s0].
  rewrite Hm, Hc. cbn. rewrite exec_try_catch, exec_handle_get.
  destruct (serve sv (list_request tok) s0) as [o1 s1].
  destruct (listing_result o1) as [resp|latest]; [reflexivity|].
  destruct (serve sv (read_request latest) s1) as [o2 s2].
  destruct (token_result o2) as [resp|tokenData]; [reflexivity|].
  destruct (token_report sv tokenData s2) as [[resp s3] reads]. reflexivity.
Qed.

Lemma exec_handler_post_no_token (env : option string) (tok : string)
      (req : http_request) (d : doc) (s : S) :
  method req = "POST" ->
  configured env = Some tok ->
  body req = Some d ->
  truthy (get "access_token" d) = false ->
  exec sv (handler env req) s =
  let (t0, s0) := tick sv s in (Returned missing_token, s0, [Read t0]).
Proof.
  intros Hm Hc Hb Ht. unfold handler, handle_post. cbn.
  destruct (tick sv s) as [t0 s0]. rewrite Hm, Hc, Hb, Ht. reflexivity.
Qed.

Lemma exec_handler_post_no_body (env : option string) (tok : string)
      (req : http_request) (s : S) :
  method req = "POST" ->
  configured env = Some tok ->
  body req = None ->
  exists msg,
    exec sv (handler env req) s =
    let (t0, s0) := tick sv s in (Returned (internal_error msg), s0, [Read t0]).
Proof.
  intros Hm Hc Hb. unfold handler, handle_post. cbn. eexists.
  destruct (tick sv s) as [t0 s0]. rewrite Hm, Hc, Hb. reflexivity.
Qed.
End Facts.

(** ** The sort *)

Lemma insert_by_head_newest (x : blob) (l : list blob) :
  (forall h t, l = h :: t -> forall b, In b l -> uploadedAt b <= uploadedAt h) ->
  exists h t, insert_by newest_first x l = h :: t
              /\ In h (x :: l)
              /\ forall b, In b (x :: l) -> uploadedAt b <= uploadedAt h.
Proof.
  intros Hl. destruct l as [|y l]; cbn.
  - exists x, []. repeat split; auto. intros b [<-|[]]. lia.
  - specialize (Hl y l eq_refl). unfold newest_first.
    destruct (uploadedAt y - uploadedAt x <=? 0) eqn:E.
    + apply Z.leb_le in E. exists x, (y :: l). repeat split; auto.
      intros b [<-|Hb]; [lia|]. specialize (Hl b Hb). lia.
    + apply Z.leb_gt in E. exists y, (insert_by newest_first x l).
      repeat split; auto. intros b [<-|Hb]; [lia|]. now apply Hl.
Qed.

Lemma insert_by_In (x b : blob) (l : list blob) :
  In b (insert_by newest_first x l) <-> In b (x :: l).
Proof.
  induction l as [|y l IH]; cbn; [tauto|].
  destruct (newest_first x y <=? 0); cbn in *; tauto.
Qed.

Lemma sort_by_In (b : blob) (l : list blob) :
  In b (sort_by newest_first l) <-> In b l.
Proof.
  induction l as [|x l IH]; [tauto|].
  change (sort_by newest_first (x :: l))
    with (insert_by newest_first x (sort_by newest_first l)).
  rewrite insert_by_In. cbn. tauto.
Qed.

(** The head of the sorted listing is a listed blob that no listed blob is
    newer than. *)
Lemma sort_by_newest (l : list blob) :
  l <> [] ->
  exists latest rest,
    sort_by newest_first l = latest :: rest
    /\ In latest l
    /\ forall b, In b l -> uploadedAt b <= uploadedAt latest.
Proof.
  induction l as [|x l IH]; [congruence|]. intros _.
  change (sort_by newest_first (x :: l))
    with (insert_by newest_first x (sort_by newest_first l)).
  destruct (insert_by_head_newest x (sort_by newest_first l)) as (h & t & E & Hin & Hmax).
  - intros h t Eh b Hb. destruct l as [|y l]; [discriminate Eh|].
    destruct IH as (latest & rest & E' & _ & Hmax); [congruence|].
    rewrite E' in Eh. injection Eh as <- <-. apply Hmax. now apply sort_by_In.
  - exists h, t. split; [exact E|]. split.
    + destruct Hin as [<-|Hin]; [now left|right; now apply sort_by_In].
    + intros b [<-|Hb]; apply Hmax; [now left|right; now apply sort_by_In].
Qed.

(** ** The blob store under reads *)

Lemma act_get_keeps_entries (rq : request) (t : Z) (es : list entry) :
  is_get rq -> snd (act rq t es) = es.
Proof.
  unfold is_get, act. intros ->. cbn [String.eqb Ascii.eqb Bool.eqb].
  destruct (strip_prefix (baseUrl ++ "?prefix=") (rq_url rq)); [reflexivity|].
  destruct (find (at_url (rq_url rq)) es); reflexivity.
Qed.

Lemma blob_serve_get_keeps_entries (rq : request) (w : world) :
  is_get rq -> entries (snd (blob_serve rq w)) = entries w.
Proof.
  intros Hg. unfold blob_serve. destruct (hd None (faults w)); [reflexivity|].
  pose proof (act_get_keeps_entries rq (now w) (entries w) Hg) as H.
  destruct (act rq (now w) (entries w)) as [o es]. exact H.
Qed.

Lemma combine_fst_serve_all {S : Type} (sv : service S) (rqs : list request) (s : S) :
  map fst (combine rqs (fst (serve_all sv rqs s))) = rqs.
Proof.
  revert s; induction rqs as [|rq rqs IH]; intros s; cbn; [reflexivity|].
  destruct (serve sv rq s) as [o s1]. specialize (IH s1).
  destruct (serve_all sv rqs s1) as [os s2]. cbn in *. now rewrite IH.
Qed.

Lemma serve_all_gets_keep_entries (rqs : list request) (w : world) :
  Forall is_get rqs ->
  entries (snd (serve_all blob_service rqs w)) = entries w.
Proof.
  revert w; induction rqs as [|rq rqs IH]; intros w Hall; cbn; [reflexivity|].
  inversion Hall as [|? ? Hrq Hrqs]; subst.
  pose proof (blob_serve_get_keeps_entries rq w Hrq) as H1.
  destruct (blob_serve rq w) as [o w1]. specialize (IH w1 Hrqs).
  destruct (serve_all blob_service rqs w1) as [os w2]. cbn in *. congruence.
Qed.

(** A program that only sends GET requests leaves the blobs as they were. *)
Lemma gets_keep_entries {A : Type} (p : prog A) (w : world) :
  Forall is_get (requests (log_of (exec blob_service p w))) ->
  entries (state_of (exec blob_service p w)) = entries w.
Proof.
  revert w; induction p as [a|m|k IH|rq k IH|rqs k IH]; intros w; cbn;
    try reflexivity.
  - specialize (IH (now w) {| now := now w + 1; entries := entries w; faults := faults w |}).
    destruct (exec blob_service (k (now w)) _) as [[r w2] l]. cbn in *. exact IH.
  - pose proof (blob_serve_get_keeps_entries rq w) as H1.
    destruct (blob_serve rq w) as [o w1]. specialize (IH o w1).
    destruct (exec blob_service (k o) w1) as [[r w2] l]. cbn in *.
    intros Hall. inversion Hall; subst. rewrite IH by assumption. auto.
  - pose proof (serve_all_gets_keep_entries rqs w) as H1.
    pose proof (combine_fst_serve_all blob_service rqs w) as H2.
    destruct (serve_all blob_service rqs w) as [os w1]. specialize (IH os w1).
    destruct (exec blob_service (k os) w1) as [[r w2] l]. cbn in *.
    rewrite H2. intros Hall. apply Forall_app in Hall as [Ha Hb].
    rewrite IH by assumption. auto.
Qed.

(** ** The blob store under a POST *)

Lemma fault_free_tl (w : world) (es : list entry) (t : Z) :
  fault_free w ->
  fault_free {| now := t; entries := es; faults := tl (faults w) |}.
Proof.
  unfold fault_free. cbn. intros H. destruct (faults w); [constructor|].
  now inversion H.
Qed.

Lemma blob_serve_fault_free (rq : request) (w : world) :
  fault_free w ->
  blob_serve rq w
  = (fst (act rq (now w) (entries w)),
     {| now := now w; entries := snd (act rq (now w) (entries w));
        faults := tl (faults w) |}).
Proof.
  unfold fault_free, blob_serve. intros H.
  destruct (faults w) as [|f fs]; cbn.
  - destruct (act rq (now w) (entries w)); reflexivity.
  - inversion H; subst. destruct (act rq (now w) (entries w)); reflexivity.
Qed.

Lemma serve_all_deletes (tok : string) (bs : list blob) (w : world) :
  fault_free w ->
  entries (snd (serve_all blob_service (map (delete_request tok) bs) w))
  = without bs (entries w)
  /\ now (snd (serve_all blob_service (map (delete_request tok) bs) w)) = now w
  /\ fault_free (snd (serve_all blob_service (map (delete_request tok) bs) w)).
Proof.
  revert w; induction bs as [|b bs IH]; intros w Hw; cbn; [auto|].
  rewrite (blob_serve_fault_free _ w Hw).
  set (w1 := {| now := now w;
                entries := snd (act (delete_request tok b) (now w) (entries w));
                faults := tl (faults w) |}).
  specialize (IH w1 (fault_free_tl w _ _ Hw)).
  destruct (serve_all blob_service (map (delete_request tok) bs) w1) as [os w2].
  cbn in *. exact IH.
Qed.

Lemma filter_none {A : Type} (f : A -> bool) (l : list A) :
  (forall x, In x l -> f x = false) -> filter f l = [].
Proof.
  induction l as [|a l IH]; intros H; cbn; [reflexivity|].
  rewrite (H a (or_introl eq_refl)). apply IH. intros x Hx. apply H. now right.
Qed.

(** Once every blob under the prefix has had its delete, none is left. *)
Lemma without_listed (p : string) (bs : list blob) (es : list entry) :
  (forall e, In e es -> has_prefix p e = true -> In (descriptor e) bs) ->
  filter (has_prefix p) (without bs es) = [].
Proof.
  revert es; induction bs as [|b bs IH]; intros es H; cbn.
  - apply filter_none. intros e He. destruct (has_prefix p e) eqn:Hp; [|reflexivity].
    destruct (H e He Hp).
  - apply IH. intros e He Hp. apply filter_In in He as [He Hu].
    destruct (H e He Hp) as [Hb|Hb]; [|exact Hb].
    subst b. unfold at_url in Hu. rewrite String.eqb_refl in Hu. discriminate Hu.
Qed.

Lemma expiry_reads_keep {E : Engine} (v : jsval) (w : world) :
  entries (snd (fst (expiry_reads blob_service v w))) = entries w
  /\ faults (snd (fst (expiry_reads blob_service v w))) = faults w.
Proof. unfold expiry_reads. destruct (truthy v); cbn; auto. Qed.

Lemma act_list (tok : string) (t : Z) (es : list entry) :
  exists raw,
    act (list_request tok) t es
    = (json_reply 200 raw
         (Listing (map descriptor (filter (has_prefix TOKEN_PREFIX) es))), es).
Proof. eexists. reflexivity. Qed.

Lemma act_put (tok : string) (t t' : Z) (o : list (string * jsval))
      (es : list entry) :
  exists ack,
    act (put_request tok t o) t' es
    = (ack,
       (filter (fun e => negb (at_path (uniqueFilename t) e)) es
          ++ [{| descriptor := {| url := public_url (uniqueFilename t);
                                  pathname := uniqueFilename t;
                                  uploadedAt := t' |};
                 content := JSON_stringify o |}])%list).
Proof. eexists. reflexivity. Qed.

Lemma filter_filter_none {A : Type} (f g : A -> bool) (l : list A) :
  filter f l = [] -> filter f (filter g l) = [].
Proof.
  intros H. apply filter_none. intros x Hx. apply filter_In in Hx as [Hx _].
  destruct (f x) eqn:Hf; [|reflexivity].
  assert (Hin : In x (filter f l)) by (apply filter_In; auto).
  rewrite H in Hin. destruct Hin.
Qed.

(** A POST that gets as far as the store, against a blob store that
    fails no request: the keys under the prefix afterwards. *)
Lemma clean_post_keys {E : Engine} (w : world) (env : option string) (tok : string)
      (req : http_request) (d : doc) :
  configured env = Some tok ->
  method req = "POST" ->
  body req = Some d ->
  truthy (get "access_token" d) = true ->
  fault_free w ->
  exists before now rq o,
    log_of (exec blob_service (handler env req) w)
    = (before ++ [Read now; One rq o])%list
    /\ rq_method rq = "PUT"
    /\ rq_url rq = (baseUrl ++ "/" ++ uniqueFilename now)%string
    /\ token_keys (state_of (exec blob_service (handler env req) w))
       = [uniqueFilename now].
Proof.
  intros Hc Hm Hb Ht Hw.
  rewrite (exec_handler_post blob_service env tok req d w Hc Hm Hb Ht).
  cbn [tick blob_service blob_tick].
  rewrite (exec_handle_post blob_service tok _ req d _ Hb Ht).
  set (w0 := {| now := now w + 1; entries := entries w; faults := faults w |}).
  destruct (expiry_reads_keep (get "expires_at" d) w0) as [He1 Hf1].
  destruct (expiry_reads blob_service (get "expires_at" d) w0)
    as [[hours w1] reads]. cbn [fst snd] in He1, Hf1.
  assert (Hw1 : fault_free w1) by (unfold fault_free; now rewrite Hf1).
  cbn [serve blob_service].
  rewrite (blob_serve_fault_free _ w1 Hw1).
  destruct (act_list tok (now w1) (entries w1)) as [raw ->]. cbn [fst snd].
  set (found := map descriptor (filter (has_prefix TOKEN_PREFIX) (entries w1))).
  change (listed (json_reply 200 raw (Listing found))) with found.
  set (w2 := {| now := now w1; entries := entries w1; faults := tl (faults w1) |}).
  destruct (serve_all_deletes tok found w2 (fault_free_tl w1 _ _ Hw1))
    as (He3 & _ & Hw3).
  change (@serve_all world blob_service) with (serve_all blob_service) in *.
  destruct (serve_all blob_service (map (delete_request tok) found) w2)
    as [outs w3]. cbn [snd] in He3, Hw3.
  cbn [tick blob_service blob_tick].
  set (w4 := {| now := now w3 + 1; entries := entries w3; faults := faults w3 |}).
  assert (Hw4 : fault_free w4) by exact Hw3.
  rewrite (blob_serve_fault_free _ w4 Hw4).
  destruct (act_put tok (now w3) (now w4)
              (tokenData_of d (toISOString (now w)) hours) (entries w4))
    as [ack ->]. cbn [fst snd].
  exists (Read (now w) :: reads ++ One (list_request tok)
            (json_reply 200 raw (Listing found)) :: deletions tok found outs)%list,
    (now w3), (put_request tok (now w3) (tokenData_of d (toISOString (now w)) hours)),
    ack.
  split; [cbn; now rewrite <- app_assoc|].
  split; [reflexivity|]. split; [reflexivity|].
  unfold token_keys, state_of. cbn [fst snd entries].
  rewrite filter_app.
  assert (Hnone : filter (has_prefix TOKEN_PREFIX) (entries w3) = []).
  { rewrite He3. apply without_listed. intros e He Hp.
    apply in_map. apply filter_In. split; assumption. }
  rewrite (filter_filter_none _ _ _ Hnone). reflexivity.
Qed.

(** ** The handler always answers *)


Lemma token_report_reads {E : Engine} {S : Type} (sv : service S) (tokenData : jsondata) (s : S) :
  requests (snd (token_report sv tokenData s)) = [].
Proof.
  unfold token_report. destruct (truthy _); [|reflexivity].
  destruct (tick sv s) as [t1 s1], (tick sv s1) as [t2 s2]. reflexivity.
Qed.

(** The requests of a GET: the listing, and then at most the fetch of one
    of the listed blobs. *)
Lemma get_requests {E : Engine} {S : Type} (sv : service S) (tok : string) (s : S) :
  exists more,
    requests (log_of (exec sv (handle_get tok) s)) = list_request tok :: more
    /\ (more = [] \/ exists b, more = [read_request b]).
Proof.
  rewrite exec_handle_get.
  destruct (serve sv (list_request tok) s) as [o1 s1].
  destruct (listing_result o1) as [resp|latest].
  - exists []. cbn. auto.
  - destruct (serve sv (read_request latest) s1) as [o2 s2].
    exists [read_request latest]. split; [|eauto].
    destruct (token_result o2) as [resp|tokenData]; [reflexivity|].
    pose proof (token_report_reads sv tokenData s2) as Hr.
    destruct (token_report sv tokenData s2) as [[resp s3] reads].
    cbn in *. now rewrite Hr.
Qed.

Lemma handle_get_returns {E : Engine} {S : Type} (sv : service S) (tok : string) (s : S) :
  exists resp, outcome_of (exec sv (handle_get tok) s) = Returned resp.
Proof.
  rewrite exec_handle_get.
  destruct (serve sv (list_request tok) s) as [o1 s1].
  destruct (listing_result o1) as [resp|latest]; [now exists resp|].
  destruct (serve sv (read_request latest) s1) as [o2 s2].
  destruct (token_result o2) as [resp|tokenData]; [now exists resp|].
  destruct (token_report sv tokenData s2) as [[resp s3] reads]. now exists resp.
Qed.

Lemma handler_returns {E : Engine} {S : Type} (sv : service S) (env : option string)
      (req : http_request) (s : S) :
  exists resp, outcome_of (exec sv (handler env req) s) = Returned resp.
Proof.
  destruct (string_dec (method req) "OPTIONS") as [Ho|Ho].
  { rewrite exec_handler_options by assumption.
    destruct (tick sv s); cbn; eauto. }
  destruct (configured env) as [tok|] eqn:Hc.
  2: { rewrite exec_handler_unconfigured by assumption.
       destruct (tick sv s); cbn; eauto. }
  destruct (string_dec (method req) "POST") as [Hp|Hp].
  { destruct (body req) as [d|] eqn:Hb.
    - destruct (truthy (get "access_token" d)) eqn:Ht.
      + destruct (post_run sv env tok req d s Hc Hp Hb Ht)
          as (t0 & reads & hours & o & outs & now & o_put & _ & _ & _ & Hr).
        eauto.
      + rewrite (exec_handler_post_no_token sv env tok req d s) by assumption.
        destruct (tick sv s); cbn; eauto.
    - destruct (exec_handler_post_no_body sv env tok req s Hp Hc Hb) as [msg ->].
      destruct (tick sv s); cbn; eauto. }
  destruct (string_dec (method req) "GET") as [Hg|Hg].
  { rewrite (exec_handler_get sv env tok) by assumption.
    destruct (tick sv s) as [t0 s0].
    destruct (handle_get_returns sv tok s0) as [resp Hr].
    destruct (exec sv (handle_get tok) s0) as [[r s1] l]. cbn in *. eauto. }
  rewrite (exec_handler_other sv env tok) by assumption.
  destruct (tick sv s); cbn; eauto.
Qed.

(** A GET whose second request, the fetch of the token file, is answered
    with an OK response and a JSON body: the rest of the run is the report
    on that body. *)
Lemma get_token_run {E : Engine} {S : Type} (sv : service S) (s : S) (env : option string)
      (req : http_request) (t0 : Z) (rq1 rq2 : request) (o1 : outcome)
      (r2 : reply) (j : jsondata) (rest : list event) :
  method req = "GET" ->
  log_of (exec sv (handler env req) s)
  = Read t0 :: One rq1 o1 :: One rq2 (Resolved r2) :: rest ->
  ok r2 = true ->
  parsed r2 = inr j ->
  exists s2 resp s3,
    token_report sv j s2 = (resp, s3, rest)
    /\ outcome_of (exec sv (handler env req) s) = Returned resp.
Proof.
  intros Hm Hlog Hok Hp.
  destruct (configured env) as [tok|] eqn:Hc.
  2: { rewrite exec_handler_unconfigured in Hlog;
         [|rewrite Hm; discriminate|assumption].
       destruct (tick sv s); discriminate Hlog. }
  revert Hlog. rewrite (exec_handler_get sv env tok req s Hm Hc).
  destruct (tick sv s) as [t0' s0]. rewrite exec_handle_get.
  destruct (serve sv (list_request tok) s0) as [o1' s1].
  destruct (listing_result o1') as [resp|latest]; [discriminate|].
  destruct (serve sv (read_request latest) s1) as [o2 s2].
  assert (Htr : o2 = Resolved r2 -> token_result o2 = inr j).
  { intros ->. unfold token_result. now rewrite Hok, Hp. }
  destruct (token_result o2) as [resp|td].
  - cbn. intros Hlog. inversion Hlog; subst.
    specialize (Htr eq_refl). discriminate Htr.
  - destruct (token_report sv td s2) as [[resp s3] reads] eqn:Hrep.
    cbn. intros Hlog. inversion Hlog; subst.
    specialize (Htr eq_refl). injection Htr as ->.
    exists s2, resp, s3. auto.
Qed.

(** ** What a POST can come to *)

(** A POST either gets as far as the store, or answers at once without a
    request and with a status other than 200. *)
Lemma post_reaches_store {E : Engine} {S : Type} (sv : service S) (s : S) (env : option string)
      (req : http_request) :
  method req = "POST" ->
  (exists tok d,
      configured env = Some tok /\ body req = Some d
      /\ truthy (get "access_token" d) = true)
  \/ (exists t0 resp,
        log_of (exec sv (handler env req) s) = [Read t0]
        /\ outcome_of (exec sv (handler env req) s) = Returned resp
        /\ res_status resp <> 200).
Proof.
  intros Hm.
  destruct (configured env) as [tok|] eqn:Hc.
  2: { right. rewrite exec_handler_unconfigured;
         [|rewrite Hm; discriminate|assumption].
       destruct (tick sv s) as [t0 s0]. exists t0, not_configured.
       repeat split. discriminate. }
  destruct (body req) as [d|] eqn:Hb.
  2: { right. destruct (exec_handler_post_no_body sv env tok req s Hm Hc Hb)
         as [msg ->].
       destruct (tick sv s) as [t0 s0]. exists t0, (internal_error msg).
       repeat split. discriminate. }
  destruct (truthy (get "access_token" d)) eqn:Ht.
  - left. eauto.
  - right. rewrite (exec_handler_post_no_token sv env tok req d s Hm Hc Hb Ht).
    destruct (tick sv s) as [t0 s0]. exists t0, missing_token.
    repeat split. discriminate.
Qed.

Lemma put_body (tok : string) (now : Z) (o : list (string * jsval)) (b : doc) :
  rq_body (put_request tok now o) = Some b -> b = JSON_stringify o.
Proof. unfold put_request. cbn [rq_body]. congruence. Qed.

Lemma deletions_no_single (tok : string) (bs : list blob) (outs : list outcome)
      (rq : request) (o : outcome) :
  ~ In (One rq o) (deletions tok bs outs).
Proof.
  unfold deletions. destruct bs; cbn; [tauto|]. intros [H|[]]. discriminate H.
Qed.

(** The one PUT of a POST: what it carries and what the answer to it makes
    of the response. *)
Lemma post_put {E : Engine} {S : Type} (sv : service S) (s : S) (env : option string)
      (req : http_request) (rq : request) (o : outcome) :
  method req = "POST" ->
  In (One rq o) (log_of (exec sv (handler env req) s)) ->
  rq_method rq = "PUT" ->
  exists tok d t0 reads hours now rest,
    body req = Some d
    /\ log_of (exec sv (handler env req) s) = (Read t0 :: reads ++ rest)%list
    /\ expiry_read (get "expires_at" d) reads hours
    /\ rq = put_request tok now (tokenData_of d (toISOString t0) hours)
    /\ outcome_of (exec sv (handler env req) s)
       = Returned (post_response d (toISOString t0) hours o).
Proof.
  intros Hm Hin Hput.
  destruct (post_reaches_store sv s env req Hm)
    as [(tok & d & Hc & Hb & Ht)|(t0 & resp & Hlog & _)].
  2: { rewrite Hlog in Hin. destruct Hin as [H|[]]. discriminate H. }
  destruct (post_run sv env tok req d s Hc Hm Hb Ht)
    as (t0 & reads & hours & o1 & outs & now & o_put & Hlog & _ & Hexp & Hout).
  rewrite Hlog in Hin.
  assert (Hreads : ~ In (One rq o) reads).
  { unfold expiry_read in Hexp. destruct (truthy (get "expires_at" d)).
    - destruct Hexp as (t1 & -> & _). intros [H|[]]. discriminate H.
    - destruct Hexp as [-> _]. tauto. }
  destruct Hin as [H|Hin]; [discriminate H|].
  apply in_app_or in Hin as [Hin|Hin]; [tauto|].
  destruct Hin as [H|Hin].
  { injection H as <- _. discriminate Hput. }
  apply in_app_or in Hin as [Hin|Hin].
  { now apply deletions_no_single in Hin. }
  destruct Hin as [H|[H|[]]]; [discriminate H|].
  injection H as <- <-.
  exists tok, d, t0, reads, hours, now. eexists.
  repeat split; eauto.
Qed.

Lemma map_fst_combine {A B : Type} (l : list A) (l' : list B) :
  List.length l' = List.length l -> map fst (combine l l') = l.
Proof.
  revert l'; induction l as [|a l IH]; intros [|b l'] H; cbn in *;
    try discriminate; [reflexivity|]. f_equal. apply IH. congruence.
Qed.

Lemma requests_deletions (tok : string) (bs : list blob) (outs : list outcome) :
  List.length outs = List.length bs ->
  requests (deletions tok bs outs) = map (delete_request tok) bs.
Proof.
  intros H. unfold deletions. destruct bs as [|b bs]; [reflexivity|].
  cbn [requests]. rewrite app_nil_r. apply map_fst_combine.
  now rewrite length_map.
Qed.

Lemma expiry_read_no_request {E : Engine} (v : jsval) (reads : list event) (hours : jsval) :
  expiry_read v reads hours -> requests reads = [].
Proof.
  unfold expiry_read. destruct (truthy v).
  - intros (t1 & -> & _). reflexivity.
  - intros [-> _]. reflexivity.
Qed.

Lemma stored_accepts (d : doc) (ts : string) (hours : jsval) (o : outcome) :
  stored o <-> res_status (post_response d ts hours o) = 200.
Proof.
  unfold stored, post_response, store_error. split.
  - intros (r & j & -> & Hok & Hp). now rewrite Hok, Hp.
  - destruct o as [m|r]; [discriminate|].
    destruct (ok r) eqn:Hok; [|discriminate].
    destruct (parsed r) as [m|j] eqn:Hp; [discriminate|]. eauto.
Qed.

Lemma post_response_accepts (d : doc) (ts : string) (hours : jsval) (o : outcome) :
  res_status (post_response d ts hours o) = 200 ->
  accepts (post_response d ts hours o).
Proof.
  unfold post_response. destruct (store_error o); [discriminate|].
  intros _. split; [reflexivity|]. unfold token_stored. read_member. reflexivity.
Qed.

(** The token record as the PUT carries it. *)
Lemma stored_record (d : doc) (ts : string) (hours : jsval) :
  let b := JSON_stringify (tokenData_of d ts hours) in
  (forall k, In k token_fields -> lookup k b = lookup k d)
  /\ lookup "stored_at" b = Some (JStr ts)
  /\ lookup "expires_in_hours" b = stringify_value hours.
Proof.
  unfold tokenData_of. cbn zeta. repeat split.
  - intros k Hk. cbn in Hk.
    destruct Hk as [<-|[<-|[<-|[<-|[<-|[]]]]]]; read_member; reflexivity.
  - read_member. reflexivity.
  - read_member. reflexivity.
Qed.

Lemma stored_record_names (d : doc) (ts : string) (hours : jsval) (j : json) :
  stringify_value hours = Some j ->
  map fst (JSON_stringify (tokenData_of d ts hours))
  = (supplied "access_token" d ++ supplied "expires_at" d
       ++ supplied "issued_at" d ++ supplied "client_id" d
       ++ supplied "user_id" d ++ ["stored_at"; "expires_in_hours"])%list.
Proof.
  intros Hh. unfold tokenData_of, supplied. cbn [JSON_stringify].
  rewrite !stringify_get, Hh. cbn [stringify_value].
  destruct (lookup "access_token" d), (lookup "expires_at" d),
    (lookup "issued_at" d), (lookup "client_id" d), (lookup "user_id" d);
    reflexivity.
Qed.

(** *** The expiry, read off the record *)

Lemma ok_range (r : reply) : 200 <= status r <= 299 -> ok r = true.
Proof.
  intros H. unfold ok. apply andb_true_intro. split; apply Z.leb_le; lia.
Qed.

Lemma truthy_get (k : string) (d : doc) :
  truthy (get k d) = false <-> no_expiry (lookup k d).
Proof.
  unfold get, no_expiry, truthy.
  destruct (lookup k d) as [[|[|]|n|s]|]; cbn [of_json]; split; intros H;
    try reflexivity; try discriminate H; auto 6.
  - destruct H as [H|[H|[H|[H|H]]]]; discriminate H.
  - apply negb_false_iff, Z.eqb_eq in H. subst n. auto 6.
  - destruct H as [H|[H|[H|[H|H]]]]; try discriminate H.
    injection H as ->. reflexivity.
  - apply negb_false_iff, String.eqb_eq in H. subst s. auto 6.
  - destruct H as [H|[H|[H|[H|H]]]]; try discriminate H.
    injection H as ->. reflexivity.
Qed.

Lemma truthy_expiry (k : string) (d : doc) (j : json) :
  lookup k d = Some j -> ~ no_expiry (Some j) ->
  truthy (get k d) = true /\ get k d = of_json j.
Proof.
  intros Hj Hno. split; [|unfold get; now rewrite Hj].
  destruct (truthy (get k d)) eqn:Ht; [reflexivity|].
  exfalso. apply Hno. rewrite <- Hj. now apply truthy_get.
Qed.

Lemma new_Date_valid (t : Z) :
  Z.abs t <= 8640000000000000 -> new_Date (Some t) = Some t.
Proof.
  intros H. unfold new_Date. now rewrite (proj2 (Z.leb_le _ _) H).
Qed.

Lemma new_Date_invalid (t : Z) :
  8640000000000000 < Z.abs t -> new_Date (Some t) = None.
Proof.
  intros H. unfold new_Date. now rewrite (proj2 (Z.leb_gt _ _) H).
Qed.

Lemma hours_json_number {E : Engine} (v : jsval) (now t : Z) :
  engine_parseInt v = Some t -> Z.abs t <= 8640000000000000 ->
  hours_json v now = JNum ((t - now + 1800000) / 3600000).
Proof.
  intros Hp Ht. unfold hours_json. now rewrite Hp, new_Date_valid.
Qed.

Lemma hours_json_null {E : Engine} (v : jsval) (now : Z) :
  engine_parseInt v = None
  \/ (exists t, engine_parseInt v = Some t /\ 8640000000000000 < Z.abs t) ->
  hours_json v now = JNull.
Proof.
  intros [Hp|(t & Hp & Ht)]; unfold hours_json; rewrite Hp.
  - reflexivity.
  - now rewrite new_Date_invalid.
Qed.

(** The batch of deletes, by what each request is. *)
Lemma deletions_batch (tok : string) (bs : list blob) (outs : list outcome) :
  List.length outs = List.length bs ->
  exists batch,
    deletions tok bs outs = match bs with [] => [] | _ :: _ => [AllOf batch] end
    /\ map (fun p => rq_method (fst p)) batch = map (fun _ => "DELETE") bs
    /\ map (fun p => rq_url (fst p)) batch = map url bs.
Proof.
  intros H. exists (combine (map (delete_request tok) bs) outs).
  assert (Hfst : map fst (combine (map (delete_request tok) bs) outs)
                 = map (delete_request tok) bs)
    by (apply map_fst_combine; now rewrite length_map).
  split; [unfold deletions; now destruct bs|].
  split.
  - rewrite <- (map_map fst rq_method), Hfst, map_map. reflexivity.
  - rewrite <- (map_map fst rq_url), Hfst, map_map. reflexivity.
Qed.

Lemma deletes_by_request (tok : string) (bs : list blob) :
  map rq_method (map (delete_request tok) bs) = map (fun _ => "DELETE") bs
  /\ map rq_url (map (delete_request tok) bs) = map url bs.
Proof. split; rewrite map_map; reflexivity. Qed.

(** ** The store is not configured (C9) *)

(** C9.  When BLOB_READ_WRITE_TOKEN is unset or empty, every GET and every
    POST is answered with status 500, [success: false] and the message
    "Blob storage not configured", and no request goes to the blob store.
    An OPTIONS request is answered with status 200 and no body whatever
    the variable holds, since it returns before the check. *)
Theorem unconfigured_store_answers_500 {E : Engine} :
  forall (S : Type) (sv : service S) (s : S) (env : option string)
         (req : http_request),
    env = None \/ env = Some EmptyString ->
    (method req = "GET" \/ method req = "POST" ->
     exists resp,
       outcome_of (exec sv (handler env req) s) = Returned resp
       /\ refuses resp 500
       /\ field "message" resp = Some (JStr "Blob storage not configured")
       /\ requests (log_of (exec sv (handler env req) s)) = [])
    /\ (method req = "OPTIONS" ->
        forall env' : option string,
        exists resp,
          outcome_of (exec sv (handler env' req) s) = Returned resp
          /\ res_status resp = 200
          /\ res_body resp = None
          /\ requests (log_of (exec sv (handler env' req) s)) = []).
Proof.
  intros S sv s env req Henv. split.
  - intros Hm.
    assert (Hc : configured env = None) by (destruct Henv; subst; reflexivity).
    assert (Ho : method req <> "OPTIONS")
      by (destruct Hm as [Hm|Hm]; rewrite Hm; discriminate).
    rewrite (exec_handler_unconfigured sv env req s Ho Hc).
    destruct (tick sv s) as [t0 s0]. exists not_configured.
    repeat split; reflexivity.
  - intros Hm env'. rewrite (exec_handler_options sv env' req s Hm).
    destruct (tick sv s) as [t0 s0]. exists (respond_end 200).
    repeat split; reflexivity.
Qed.

Lemma unconfigured_store_answers_500_witness :
  (@None string = None \/ @None string = Some EmptyString)
  /\ (method sample_post = "GET" \/ method sample_post = "POST")
  /\ exists resp,
       outcome_of (exec blob_service (handler None sample_post) sample_world)
       = Returned resp
       /\ refuses resp 500
       /\ field "message" resp = Some (JStr "Blob storage not configured")
       /\ requests (log_of (exec blob_service (handler None sample_post) sample_world))
          = [].
Proof.
  split; [left; reflexivity|]. split; [right; reflexivity|].
  apply (unconfigured_store_answers_500 world blob_service sample_world None
           sample_post (or_introl eq_refl)).
  right; reflexivity.
Defined.

(** ** A GET only reads (C8) *)

(** C8.  A GET never modifies the blob store: whatever the service
    answers, every request the handler sends for a GET has the method GET
    (the listing and the read of one blob; no DELETE, no PUT), and run
    against the blob store it leaves the stored blobs exactly as they
    were. *)
Theorem get_only_reads {E : Engine} :
  forall (env : option string) (req : http_request),
    method req = "GET" ->
    (forall (S : Type) (sv : service S) (s : S),
       Forall is_get (requests (log_of (exec sv (handler env req) s))))
    /\ (forall w : world,
          entries (state_of (exec blob_service (handler env req) w)) = entries w).
Proof.
  intros env req Hm.
  assert (Hgets : forall (S : Type) (sv : service S) (s : S),
             Forall is_get (requests (log_of (exec sv (handler env req) s)))).
  { intros S sv s. destruct (configured env) as [tok|] eqn:Hc.
    - rewrite (exec_handler_get sv env tok req s Hm Hc).
      destruct (tick sv s) as [t0 s0].
      destruct (get_requests sv tok s0) as (more & Hlog & Hmore).
      destruct (exec sv (handle_get tok) s0) as [[r s1] l]. cbn in *.
      rewrite Hlog. constructor; [reflexivity|].
      destruct Hmore as [->|[b ->]]; repeat constructor.
    - rewrite exec_handler_unconfigured; [|rewrite Hm; discriminate|assumption].
      destruct (tick sv s) as [t0 s0]. constructor. }
  split; [exact Hgets|].
  intros w. apply gets_keep_entries, Hgets.
Qed.

Lemma get_only_reads_witness :
  method sample_get = "GET"
  /\ Forall is_get
       (requests (log_of (exec blob_service (handler sample_env sample_get)
                            sample_world)))
  /\ entries (state_of (exec blob_service (handler sample_env sample_get)
                          sample_world))
     = entries sample_world.
Proof.
  split; [reflexivity|].
  destruct (get_only_reads sample_env sample_get eq_refl) as [Hlog Hstore].
  split; [apply Hlog | apply Hstore].
Defined.

(** ** The newest blob is the one fetched (C2) *)

(** C2.  In every run of a GET in which the listing call (a GET of the
    store's URL with prefix=upstox_access_token) is answered OK with a
    non-empty list of blobs, the next request is a GET of the URL of a
    listed blob whose uploadedAt is greater than or equal to that of every
    listed blob: the head of the list sorted by uploadedAt, newest first. *)
Theorem get_fetches_newest_blob {E : Engine} :
  forall (S : Type) (sv : service S) (s : S) (env : option string)
         (req : http_request) (t0 : Z) (rq : request) (r : reply)
         (blobs : list blob) (rest : list event),
    method req = "GET" ->
    log_of (exec sv (handler env req) s) = Read t0 :: One rq (Resolved r) :: rest ->
    200 <= status r <= 299 ->
    parsed r = inr (Listing blobs) ->
    blobs <> [] ->
    exists (latest : blob) (fetched : request) (o : outcome) (rest' : list event),
      rq_method rq = "GET"
      /\ rq_url rq = "https://blob.vercel-storage.com?prefix=upstox_access_token"
      /\ rest = One fetched o :: rest'
      /\ rq_method fetched = "GET"
      /\ rq_url fetched = url latest
      /\ rq_body fetched = None
      /\ hd_error (sort_by newest_first blobs) = Some latest
      /\ In latest blobs
      /\ forall b, In b blobs -> uploadedAt b <= uploadedAt latest.
Proof.
  intros S sv s env req t0 rq r blobs rest Hm Hlog Hst Hp Hne.
  pose proof (ok_range r Hst) as Hok.
  destruct (configured env) as [tok|] eqn:Hc.
  2: { rewrite exec_handler_unconfigured in Hlog;
         [|rewrite Hm; discriminate|assumption].
       destruct (tick sv s); discriminate Hlog. }
  rewrite (exec_handler_get sv env tok req s Hm Hc) in Hlog.
  destruct (tick sv s) as [t0' s0]. rewrite exec_handle_get in Hlog.
  destruct (serve sv (list_request tok) s0) as [o1 s1].
  destruct (sort_by_newest blobs Hne) as (latest & others & Hs & Hin & Hmax).
  assert (Ho1 : o1 = Resolved r /\ rq = list_request tok).
  { destruct (listing_result o1) as [resp|l].
    - cbn in Hlog. injection Hlog as _ <- <-. auto.
    - destruct (serve sv (read_request l) s1) as [o2 s2].
      destruct (token_result o2) as [resp|td].
      + cbn in Hlog. injection Hlog as _ <- <-. auto.
      + destruct (token_report sv td s2) as [[resp s3] reads].
        cbn in Hlog. injection Hlog as _ <- <-. auto. }
  destruct Ho1 as [-> ->].
  assert (Hl : listing_result (Resolved r) = inr latest).
  { unfold listing_result. rewrite Hok, Hp, Hs.
    destruct blobs; [congruence|reflexivity]. }
  rewrite Hl in Hlog.
  destruct (serve sv (read_request latest) s1) as [o2 s2].
  exists latest, (read_request latest), o2.
  destruct (token_result o2) as [resp|td].
  - cbn in Hlog. injection Hlog as _ <-.
    exists []. rewrite Hs. repeat split; auto.
  - destruct (token_report sv td s2) as [[resp s3] reads].
    cbn in Hlog. injection Hlog as _ <-.
    exists reads. rewrite Hs. repeat split; auto.
Qed.

Lemma get_fetches_newest_blob_witness :
  200 <= status sample_listing <= 299
  /\ exists (latest : blob) (fetched : request) (o : outcome) (rest' : list event),
       rq_method (list_request "secret") = "GET"
       /\ rq_url (list_request "secret")
          = "https://blob.vercel-storage.com?prefix=upstox_access_token"
       /\ tl (tl (log_of (exec (scripted 1700000000000) (handler sample_env sample_get)
                            [Resolved sample_listing])))
          = One fetched o :: rest'
       /\ rq_method fetched = "GET"
       /\ rq_url fetched = url latest
       /\ rq_body fetched = None
       /\ hd_error (sort_by newest_first sample_blobs) = Some latest
       /\ In latest sample_blobs
       /\ forall b, In b sample_blobs -> uploadedAt b <= uploadedAt latest.
Proof.
  split; [cbn; lia|].
  apply (get_fetches_newest_blob (list outcome) (scripted 1700000000000)
           [Resolved sample_listing] sample_env sample_get 1700000000000
           (list_request "secret") sample_listing sample_blobs).
  - reflexivity.
  - vm_compute. reflexivity.
  - cbn. lia.
  - reflexivity.
  - discriminate.
Defined.

(** ** Validity by the expiry (C3) *)

(** As C3 puts it, a record whose expires_at is present and lies before
    the current time is answered 410.  A record whose expires_at is the
    number 0 has an expires_at, which parseInt reads as 0 and new Date
    takes for 1 January 1970, long before the clock of the run; the GET
    answers 200 with is_valid: true all the same, because the handler tests
    expires_at for truthiness before it looks at the clock. *)
Lemma zero_expiry_is_served_as_valid :
  lookup "expires_at" sample_record_zero = Some (JNum 0)
  /\ new_Date (parseInt (VNum 0)) = Some 0
  /\ 0 < 1700000000000
  /\ exists resp,
       outcome_of (exec (scripted 1700000000000) (handler sample_env sample_get)
                     [Resolved sample_listing;
                      Resolved (json_answer 200 (Object sample_record_zero))])
       = Returned resp
       /\ log_of (exec (scripted 1700000000000) (handler sample_env sample_get)
                    [Resolved sample_listing;
                     Resolved (json_answer 200 (Object sample_record_zero))])
          = [ Read 1700000000000;
              One (list_request "secret") (Resolved sample_listing);
              One (read_request sample_newest)
                  (Resolved (json_answer 200 (Object sample_record_zero))) ]
       /\ res_status resp = 200
       /\ res_status resp <> 410
       /\ field "is_valid" resp = Some (JBool true).
Proof.
  split; [reflexivity|]. split; [reflexivity|]. split; [reflexivity|].
  eexists. split; [vm_compute; reflexivity|].
  split; [vm_compute; reflexivity|].
  split; [reflexivity|]. split; [discriminate|]. reflexivity.
Qed.

(** C3, amended.  In every run of a GET that has fetched a stored token
    record (the fetch of the token file answered OK with a JSON object), the
    answer goes by the record's expires_at.  When expires_at is missing, or
    is null, false, 0 or the empty string, the clock is not read and the
    answer is 200 with success: true, is_valid: true and the stored
    access_token.  Otherwise the clock is read, and with t the number
    parseInt(expires_at): if t makes a date (it is within 8.64e15 ms of the
    epoch) and t is strictly before the reading, the answer is 410 with
    success: false and expired_at, the ISO text of t; if t is not before
    the reading, or makes no date, or parseInt gives NaN, the answer is 200
    with success: true, is_valid: true and the stored access_token. *)
Theorem get_reports_validity {E : Engine} :
  forall (S : Type) (sv : service S) (s : S) (env : option string)
         (req : http_request) (t0 : Z) (rq1 rq2 : request) (o1 : outcome)
         (r2 : reply) (d : doc) (rest : list event),
    method req = "GET" ->
    log_of (exec sv (handler env req) s)
    = Read t0 :: One rq1 o1 :: One rq2 (Resolved r2) :: rest ->
    200 <= status r2 <= 299 ->
    parsed r2 = inr (Object d) ->
    exists resp,
      outcome_of (exec sv (handler env req) s) = Returned resp
      /\ (no_expiry (lookup "expires_at" d) ->
          rest = [] /\ reports_valid resp d)
      /\ (forall j,
            lookup "expires_at" d = Some j ->
            ~ no_expiry (Some j) ->
            exists now now',
              rest = [Read now; Read now']
              /\ (forall t,
                    engine_parseInt (of_json j) = Some t ->
                    Z.abs t <= 8640000000000000 ->
                    t < now ->
                    reports_expired resp t)
              /\ (forall t,
                    engine_parseInt (of_json j) = Some t ->
                    now <= t \/ 8640000000000000 < Z.abs t ->
                    reports_valid resp d)
              /\ (engine_parseInt (of_json j) = None -> reports_valid resp d)).
Proof.
  intros S sv s env req t0 rq1 rq2 o1 r2 d rest Hm Hlog Hst Hp.
  destruct (get_token_run sv s env req t0 rq1 rq2 o1 r2 (Object d) rest
              Hm Hlog (ok_range r2 Hst) Hp) as (s2 & resp & s3 & Hrep & Hout).
  exists resp. split; [exact Hout|].
  unfold token_report in Hrep. cbn [token_field] in Hrep.
  assert (Hvalid : forall v h, truthy v = false ->
            reports_valid (token_found (Object d) v h) d).
  { intros v h Hv. unfold reports_valid, token_found. rewrite Hv.
    cbn [token_field]. repeat split; read_member; reflexivity. }
  split.
  - intros Hno. apply truthy_get in Hno. rewrite Hno in Hrep.
    injection Hrep as <- _ <-. split; [reflexivity|]. now apply Hvalid.
  - intros j Hj Hyes. destruct (truthy_expiry _ _ _ Hj Hyes) as [Ht Hg].
    rewrite <- Hg. rewrite Ht in Hrep.
    destruct (tick sv s2) as [now s4], (tick sv s4) as [now' s5].
    injection Hrep as <- _ <-. exists now, now'. split; [reflexivity|].
    split; [|split].
    + intros t Hparse Hab Hlt. rewrite Hparse, (new_Date_valid t Hab).
      cbn [date_gt]. rewrite (proj2 (Z.ltb_lt t now) Hlt).
      unfold reports_expired, token_expired. repeat split; read_member; reflexivity.
    + intros t Hparse [Hle|Hbig]; rewrite Hparse.
      * destruct (new_Date (Some t)) as [t'|] eqn:Hd; cbn [date_gt].
        -- unfold new_Date in Hd.
           destruct (Z.abs t <=? 8640000000000000); [|discriminate Hd].
           injection Hd as <-. rewrite (proj2 (Z.ltb_ge t now) Hle).
           now apply Hvalid.
        -- now apply Hvalid.
      * rewrite (new_Date_invalid t Hbig). cbn [date_gt]. now apply Hvalid.
    + intros Hparse. rewrite Hparse. unfold new_Date. cbn [date_gt].
      now apply Hvalid.
Qed.

Lemma get_reports_validity_witness :
  (exists resp,
     outcome_of (exec (scripted 1700000000000) (handler sample_env sample_get)
                   [Resolved sample_listing;
                    Resolved (json_answer 200 (Object (sample_record "1600000000000")))])
     = Returned resp
     /\ 1600000000000 < 1700000000000
     /\ reports_expired resp 1600000000000)
  /\ (exists resp,
        outcome_of (exec (scripted 1700000000000) (handler sample_env sample_get)
                      [Resolved sample_listing;
                       Resolved (json_answer 200 (Object (sample_record "1700003600000")))])
        = Returned resp
        /\ 1700000000000 <= 1700003600000
        /\ reports_valid resp (sample_record "1700003600000")).
Proof.
  split.
  - destruct (get_reports_validity (E := model_engine)
                (list outcome) (scripted 1700000000000)
                [Resolved sample_listing;
                 Resolved (json_answer 200 (Object (sample_record "1600000000000")))]
                sample_env sample_get 1700000000000
                (list_request "secret") (read_request sample_newest)
                (Resolved sample_listing)
                (json_answer 200 (Object (sample_record "1600000000000")))
                (sample_record "1600000000000")
                [Read 1700000000000; Read 1700000000000])
      as (resp & Hout & _ & Hthere);
      [reflexivity | vm_compute; reflexivity | cbn; lia | reflexivity |].
    exists resp. split; [exact Hout|]. split; [lia|].
    destruct (Hthere (JStr "1600000000000") eq_refl)
      as (now & now' & Hrest & Hexpired & _).
    + intros [H|[H|[H|[H|H]]]]; discriminate H.
    + injection Hrest as <- _.
      apply Hexpired; [vm_compute; reflexivity | cbn; lia | lia].
  - destruct (get_reports_validity (E := model_engine)
                (list outcome) (scripted 1700000000000)
                [Resolved sample_listing;
                 Resolved (json_answer 200 (Object (sample_record "1700003600000")))]
                sample_env sample_get 1700000000000
                (list_request "secret") (read_request sample_newest)
                (Resolved sample_listing)
                (json_answer 200 (Object (sample_record "1700003600000")))
                (sample_record "1700003600000")
                [Read 1700000000000; Read 1700000000000])
      as (resp & Hout & _ & Hthere);
      [reflexivity | vm_compute; reflexivity | cbn; lia | reflexivity |].
    exists resp. split; [exact Hout|]. split; [lia|].
    destruct (Hthere (JStr "1700003600000") eq_refl)
      as (now & now' & Hrest & _ & Hvalid & _).
    + intros [H|[H|[H|[H|H]]]]; discriminate H.
    + injection Hrest as <- _.
      apply (Hvalid 1700003600000); [vm_compute; reflexivity | left; lia].
Defined.

(** ** A record without an expiry (C10) *)



(** ** Errors and their status codes (C5) *)

(** As C5 puts it, every request whose method is not GET, POST or OPTIONS
    gets 405.  A DELETE sent while BLOB_READ_WRITE_TOKEN is unset gets 500:
    the check of the variable comes before the methods are told apart. *)
Lemma unknown_method_gets_500_unconfigured :
  method sample_delete <> "GET"
  /\ method sample_delete <> "POST"
  /\ method sample_delete <> "OPTIONS"
  /\ exists resp,
       outcome_of (exec blob_service (handler None sample_delete) sample_world)
       = Returned resp
       /\ res_status resp = 500
       /\ res_status resp <> 405.
Proof.
  repeat split; try discriminate.
  eexists. split; [vm_compute; reflexivity|]. split; [reflexivity|discriminate].
Qed.

(** C5, amended.  Once BLOB_READ_WRITE_TOKEN is set: a POST whose body has
    no access_token (or a falsy one) gets 400; a GET whose listing comes
    back empty gets 404; a POST whose PUT is rejected or answered with an
    error status gets 500; a request whose method is none of GET, POST and
    OPTIONS gets 405; each with success: false. *)
Theorem error_statuses {E : Engine} :
  forall (S : Type) (sv : service S) (s : S) (env : option string) (tok : string)
         (req : http_request),
    configured env = Some tok ->
    exists resp,
      outcome_of (exec sv (handler env req) s) = Returned resp
      /\ (forall d,
            method req = "POST" ->
            body req = Some d ->
            truthy (get "access_token" d) = false ->
            refuses resp 400)
      /\ (forall t0 rq r rest,
            method req = "GET" ->
            log_of (exec sv (handler env req) s)
            = Read t0 :: One rq (Resolved r) :: rest ->
            ok r = true ->
            parsed r = inr (Listing []) ->
            refuses resp 404)
      /\ (forall rq o,
            method req = "POST" ->
            In (One rq o) (log_of (exec sv (handler env req) s)) ->
            rq_method rq = "PUT" ->
            put_failed o ->
            refuses resp 500)
      /\ (method req <> "GET" -> method req <> "POST" -> method req <> "OPTIONS" ->
          refuses resp 405).
Proof.
  intros S sv s env tok req Hc.
  destruct (handler_returns sv env req s) as [resp Hout].
  exists resp. split; [exact Hout|]. split; [|split; [|split]].
  - intros d Hm Hb Ht.
    rewrite (exec_handler_post_no_token sv env tok req d s) in Hout by assumption.
    destruct (tick sv s). injection Hout as <-. split; reflexivity.
  - intros t0 rq r rest Hm Hlog Hok Hp.
    revert Hout Hlog. rewrite (exec_handler_get sv env tok req s) by assumption.
    destruct (tick sv s) as [t0' s0]. rewrite exec_handle_get.
    destruct (serve sv (list_request tok) s0) as [o1 s1].
    assert (Hl : o1 = Resolved r -> listing_result o1 = inl not_found).
    { intros ->. unfold listing_result. now rewrite Hok, Hp. }
    destruct (listing_result o1) as [resp'|latest].
    + cbn. intros Hout Hlog. inversion Hlog; subst.
      specialize (Hl eq_refl). injection Hl as ->. injection Hout as <-.
      split; reflexivity.
    + destruct (serve sv (read_request latest) s1) as [o2 s2].
      destruct (token_result o2) as [resp'|td].
      * cbn. intros _ Hlog. inversion Hlog; subst.
        specialize (Hl eq_refl). discriminate Hl.
      * destruct (token_report sv td s2) as [[resp' s3] reads].
        cbn. intros _ Hlog. inversion Hlog; subst.
        specialize (Hl eq_refl). discriminate Hl.
  - intros rq o Hm Hin Hput Hfail.
    destruct (post_put sv s env req rq o Hm Hin Hput)
      as (tok' & d & t0 & reads & hours & now & rest & _ & _ & _ & _ & Hout').
    rewrite Hout' in Hout. injection Hout as <-.
    unfold post_response, store_error. destruct o as [m|r]; [split; reflexivity|].
    cbn in Hfail. rewrite Hfail. split; reflexivity.
  - intros Hg Hp Ho.
    rewrite (exec_handler_other sv env tok req s) in Hout by assumption.
    destruct (tick sv s). injection Hout as <-. split; reflexivity.
Qed.

Lemma error_statuses_witness :
  configured sample_env = Some "secret"
  /\ exists resp,
       outcome_of (exec blob_service (handler sample_env sample_delete) sample_world)
       = Returned resp
       /\ refuses resp 405.
Proof.
  split; [reflexivity|].
  destruct (error_statuses world blob_service sample_world sample_env "secret"
              sample_delete eq_refl) as (resp & Hout & _ & _ & _ & Hother).
  exists resp. split; [exact Hout|]. apply Hother; discriminate.
Defined.

(** ** What a POST does (C1) *)

(** As C1 puts it, every POST whose body has a non-empty access_token
    writes the record.  With BLOB_READ_WRITE_TOKEN unset such a POST sends
    nothing to the store and is answered 500. *)
Lemma post_unconfigured_writes_nothing :
  method sample_post = "POST"
  /\ (exists d, body sample_post = Some d
                /\ get "access_token" d = VStr "tok")
  /\ requests (log_of (exec blob_service (handler None sample_post) sample_world))
     = []
  /\ entries (state_of (exec blob_service (handler None sample_post) sample_world))
     = []
  /\ exists resp,
       outcome_of (exec blob_service (handler None sample_post) sample_world)
       = Returned resp
       /\ res_status resp = 500.
Proof.
  split; [reflexivity|]. split; [eexists; split; reflexivity|].
  split; [reflexivity|]. split; [reflexivity|].
  eexists. split; [vm_compute; reflexivity|reflexivity].
Qed.

(** C1, amended.  Once BLOB_READ_WRITE_TOKEN is set, every POST whose body
    has a truthy access_token (a non-empty string is one) first sends a GET
    to the store's URL with prefix=upstox_access_token, then a DELETE to
    the URL of every blob that listing reported, in the order listed, and
    only then reads the clock and PUTs one JSON object, holding the token
    fields of the body, to the key "upstox_access_token_" followed by that
    reading of the clock and ".json".  When the store takes the PUT (an OK
    status and a JSON body) the answer is 200 with success: true. *)
Theorem post_stores_token {E : Engine} :
  forall (S : Type) (sv : service S) (s : S) (env : option string) (tok : string)
         (req : http_request) (d : doc),
    configured env = Some tok ->
    method req = "POST" ->
    body req = Some d ->
    truthy (get "access_token" d) = true ->
    exists before listing o dels now put b o_put resp,
      log_of (exec sv (handler env req) s)
      = (before ++ One listing o :: dels ++ [Read now; One put o_put])%list
      /\ requests before = []
      /\ rq_method listing = "GET"
      /\ rq_url listing
         = "https://blob.vercel-storage.com?prefix=upstox_access_token"
      /\ map rq_method (requests dels) = map (fun _ => "DELETE") (listed o)
      /\ map rq_url (requests dels) = map url (listed o)
      /\ rq_method put = "PUT"
      /\ rq_url put
         = ("https://blob.vercel-storage.com/upstox_access_token_"
              ++ dec now ++ ".json")%string
      /\ prefix "upstox_access_token"
                ("upstox_access_token_" ++ dec now ++ ".json") = true
      /\ rq_body put = Some b
      /\ (forall k,
            In k ["access_token"; "expires_at"; "issued_at"; "client_id"; "user_id"] ->
            lookup k b = lookup k d)
      /\ outcome_of (exec sv (handler env req) s) = Returned resp
      /\ (stored o_put -> accepts resp).
Proof.
  intros S sv s env tok req d Hc Hm Hb Ht.
  destruct (post_run sv env tok req d s Hc Hm Hb Ht)
    as (t0 & reads & hours & o & outs & now & o_put & Hlog & Hlen & Hexp & Hout).
  destruct (deletes_by_request tok (listed o)) as [Hmeth Hurl].
  exists (Read t0 :: reads), (list_request tok), o,
    (deletions tok (listed o) outs), now,
    (put_request tok now (tokenData_of d (toISOString t0) hours)),
    (JSON_stringify (tokenData_of d (toISOString t0) hours)), o_put,
    (post_response d (toISOString t0) hours o_put).
  split; [exact Hlog|].
  split; [exact (expiry_read_no_request _ _ _ Hexp)|].
  split; [reflexivity|]. split; [reflexivity|].
  split; [rewrite (requests_deletions tok _ outs Hlen); exact Hmeth|].
  split; [rewrite (requests_deletions tok _ outs Hlen); exact Hurl|].
  split; [reflexivity|]. split; [reflexivity|]. split; [reflexivity|].
  split; [reflexivity|].
  split; [apply stored_record|].
  split; [exact Hout|].
  intros Hs. apply post_response_accepts. now apply stored_accepts.
Qed.

Lemma post_stores_token_witness :
  configured sample_env = Some "secret"
  /\ truthy (get "access_token" [("access_token", JStr "tok");
                                 ("expires_at", JStr "1700003600000");
                                 ("client_id", JStr "c1")]) = true
  /\ exists before listing o dels now put b o_put resp,
       log_of (exec blob_service (handler sample_env sample_post) sample_world_kept)
       = (before ++ One listing o :: dels ++ [Read now; One put o_put])%list
       /\ requests before = []
       /\ rq_method listing = "GET"
       /\ rq_url listing
          = "https://blob.vercel-storage.com?prefix=upstox_access_token"
       /\ map rq_method (requests dels) = map (fun _ => "DELETE") (listed o)
       /\ map rq_url (requests dels) = map url (listed o)
       /\ rq_method put = "PUT"
       /\ rq_url put
          = ("https://blob.vercel-storage.com/upstox_access_token_"
               ++ dec now ++ ".json")%string
       /\ prefix "upstox_access_token"
                 ("upstox_access_token_" ++ dec now ++ ".json") = true
       /\ rq_body put = Some b
       /\ (forall k,
             In k ["access_token"; "expires_at"; "issued_at"; "client_id"; "user_id"] ->
             lookup k b = lookup k [("access_token", JStr "tok");
                                    ("expires_at", JStr "1700003600000");
                                    ("client_id", JStr "c1")])
       /\ outcome_of (exec blob_service (handler sample_env sample_post)
                        sample_world_kept)
          = Returned resp
       /\ (stored o_put -> accepts resp).
Proof.
  split; [reflexivity|]. split; [reflexivity|].
  apply (post_stores_token world blob_service sample_world_kept sample_env
           "secret" sample_post _ eq_refl eq_refl eq_refl eq_refl).
Defined.

(** ** The cleanup is best effort (C6) *)

(** C6.  The cleanup of a POST is best effort and goes out together.  In
    every run of a POST that makes the listing call (the one GET of such a
    run, to the store's URL with prefix=upstox_access_token), whatever that
    call and the deletes come to (a rejection, an error status, a body that
    is not JSON), the deletes are one batch, all sent before any is
    awaited, with a DELETE to the URL of every listed blob; the handler
    goes on to read the clock and PUT the new record, holding the token
    fields of the body, to the key "upstox_access_token_", that reading,
    ".json"; and the PUT alone decides the answer: 200 with success: true
    when the store takes it, 500 with success: false otherwise. *)
Theorem cleanup_is_best_effort {E : Engine} :
  forall (S : Type) (sv : service S) (s : S) (env : option string)
         (req : http_request) (rq : request) (o : outcome),
    method req = "POST" ->
    In (One rq o) (log_of (exec sv (handler env req) s)) ->
    rq_method rq = "GET" ->
    exists d before batch now put b o_put resp,
      body req = Some d
      /\ rq_url rq = "https://blob.vercel-storage.com?prefix=upstox_access_token"
      /\ log_of (exec sv (handler env req) s)
         = (before ++ One rq o
              :: match listed o with [] => [] | _ :: _ => [AllOf batch] end
              ++ [Read now; One put o_put])%list
      /\ requests before = []
      /\ map (fun p => rq_method (fst p)) batch = map (fun _ => "DELETE") (listed o)
      /\ map (fun p => rq_url (fst p)) batch = map url (listed o)
      /\ rq_method put = "PUT"
      /\ rq_url put
         = ("https://blob.vercel-storage.com/upstox_access_token_"
              ++ dec now ++ ".json")%string
      /\ rq_body put = Some b
      /\ (forall k,
            In k ["access_token"; "expires_at"; "issued_at"; "client_id"; "user_id"] ->
            lookup k b = lookup k d)
      /\ outcome_of (exec sv (handler env req) s) = Returned resp
      /\ (stored o_put -> accepts resp)
      /\ (~ stored o_put -> refuses resp 500).
Proof.
  intros S sv s env req rq o Hm Hin Hget.
  destruct (post_reaches_store sv s env req Hm)
    as [(tok & d & Hc & Hb & Ht)|(t0 & resp & Hlog & _)].
  2: { rewrite Hlog in Hin. destruct Hin as [H|[]]. discriminate H. }
  destruct (post_run sv env tok req d s Hc Hm Hb Ht)
    as (t0 & reads & hours & o1 & outs & now & o_put & Hlog & Hlen & Hexp & Hout).
  assert (Hlist : rq = list_request tok /\ o = o1).
  { rewrite Hlog in Hin.
    assert (Hreads : ~ In (One rq o) reads).
    { unfold expiry_read in Hexp. destruct (truthy (get "expires_at" d)).
      - destruct Hexp as (t1 & -> & _). intros [H|[]]. discriminate H.
      - destruct Hexp as [-> _]. tauto. }
    destruct Hin as [H|Hin]; [discriminate H|].
    apply in_app_or in Hin as [Hin|Hin]; [tauto|].
    destruct Hin as [H|Hin]; [injection H as <- <-; auto|].
    apply in_app_or in Hin as [Hin|Hin].
    { now apply deletions_no_single in Hin. }
    destruct Hin as [H|[H|[]]]; [discriminate H|].
    injection H as <- _. discriminate Hget. }
  destruct Hlist as [-> ->].
  destruct (deletions_batch tok (listed o1) outs Hlen) as (batch & Hdel & Hmeth & Hurl).
  rewrite Hdel in Hlog.
  exists d, (Read t0 :: reads), batch, now,
    (put_request tok now (tokenData_of d (toISOString t0) hours)),
    (JSON_stringify (tokenData_of d (toISOString t0) hours)), o_put,
    (post_response d (toISOString t0) hours o_put).
  split; [exact Hb|]. split; [reflexivity|]. split; [exact Hlog|].
  split; [exact (expiry_read_no_request _ _ _ Hexp)|].
  split; [exact Hmeth|]. split; [exact Hurl|].
  split; [reflexivity|]. split; [reflexivity|]. split; [reflexivity|].
  split; [apply stored_record|].
  split; [exact Hout|]. split.
  - intros Hs. apply post_response_accepts. now apply stored_accepts.
  - intros Hs. unfold post_response.
    destruct (store_error o_put) as [msg|] eqn:He; [split; reflexivity|].
    exfalso. apply Hs. apply (stored_accepts d (toISOString t0) hours).
    unfold post_response. now rewrite He.
Qed.

Lemma cleanup_is_best_effort_witness :
  method sample_post = "POST"
  /\ rq_method (list_request "secret") = "GET"
  /\ exists d before batch now put b o_put resp,
       body sample_post = Some d
       /\ rq_url (list_request "secret")
          = "https://blob.vercel-storage.com?prefix=upstox_access_token"
       /\ log_of (exec (scripted 1700000000000) (handler sample_env sample_post)
                    sample_cleanup_failing)
          = (before ++ One (list_request "secret") (Resolved sample_listing)
               :: match listed (Resolved sample_listing) with
                  | [] => []
                  | _ :: _ => [AllOf batch]
                  end
               ++ [Read now; One put o_put])%list
       /\ requests before = []
       /\ map (fun p => rq_method (fst p)) batch
          = map (fun _ => "DELETE") (listed (Resolved sample_listing))
       /\ map (fun p => rq_url (fst p)) batch
          = map url (listed (Resolved sample_listing))
       /\ rq_method put = "PUT"
       /\ rq_url put
          = ("https://blob.vercel-storage.com/upstox_access_token_"
               ++ dec now ++ ".json")%string
       /\ rq_body put = Some b
       /\ (forall k,
             In k ["access_token"; "expires_at"; "issued_at"; "client_id"; "user_id"] ->
             lookup k b = lookup k d)
       /\ outcome_of (exec (scripted 1700000000000) (handler sample_env sample_post)
                        sample_cleanup_failing)
          = Returned resp
       /\ (stored o_put -> accepts resp)
       /\ (~ stored o_put -> refuses resp 500).
Proof.
  split; [reflexivity|]. split; [reflexivity|].
  apply (cleanup_is_best_effort (list outcome) (scripted 1700000000000)
           sample_cleanup_failing sample_env sample_post
           (list_request "secret") (Resolved sample_listing) eq_refl);
    [|reflexivity].
  vm_compute. right. right. left. reflexivity.
Defined.

(** ** The record that is written (C7) *)

(** As C7 puts it, the stored record always has exactly the seven fields.
    A POST that brings only the access_token is answered 200 and stores an
    object of three members: JSON.stringify leaves out what is
    undefined. *)
Lemma bare_post_stores_three_fields :
  method sample_post_bare = "POST"
  /\ exists resp rq o b,
       outcome_of (exec blob_service (handler sample_env sample_post_bare)
                     sample_world) = Returned resp
       /\ res_status resp = 200
       /\ In (One rq o)
             (log_of (exec blob_service (handler sample_env sample_post_bare)
                        sample_world))
       /\ rq_method rq = "PUT"
       /\ rq_body rq = Some b
       /\ map fst b = ["access_token"; "stored_at"; "expires_in_hours"]
       /\ map fst b <> (token_fields ++ ["stored_at"; "expires_in_hours"])%list.
Proof.
  split; [reflexivity|].
  eexists. eexists. eexists. eexists.
  split; [vm_compute; reflexivity|]. split; [reflexivity|].
  split; [vm_compute; right; right; right; left; reflexivity|].
  split; [reflexivity|]. split; [reflexivity|].
  split; [vm_compute; reflexivity|]. vm_compute. discriminate.
Qed.

(** C7, amended.  For every POST answered 200, the record that was PUT is
    a JSON object with these members, in this order: access_token; each of
    expires_at, issued_at, client_id and user_id that the request body has
    (one the body lacks is left out); stored_at, the ISO text of the clock
    as read when the handler began; expires_in_hours.  The first five hold
    what the body holds.  expires_in_hours is null, and the clock is not
    read again, when expires_at is missing, null, false, 0 or the empty
    string.  Otherwise the clock is read a second time, and with t the
    number parseInt(expires_at) and now that reading, expires_in_hours is
    (t - now) / 3600000 rounded to the nearest integer, a half going up,
    when t makes a date (it is within 8.64e15 ms of the epoch), and null
    when it does not or when parseInt gives NaN. *)
Theorem stored_record_fields {E : Engine} :
  forall (S : Type) (sv : service S) (s : S) (env : option string)
         (req : http_request) (resp : http_response),
    method req = "POST" ->
    outcome_of (exec sv (handler env req) s) = Returned resp ->
    res_status resp = 200 ->
    exists d t0 reads rest rq o b,
      body req = Some d
      /\ log_of (exec sv (handler env req) s) = (Read t0 :: reads ++ rest)%list
      /\ In (One rq o) rest
      /\ rq_method rq = "PUT"
      /\ rq_body rq = Some b
      /\ map fst b
         = ("access_token" :: supplied "expires_at" d ++ supplied "issued_at" d
              ++ supplied "client_id" d ++ supplied "user_id" d
              ++ ["stored_at"; "expires_in_hours"])%list
      /\ (forall k,
            In k ["access_token"; "expires_at"; "issued_at"; "client_id"; "user_id"] ->
            lookup k b = lookup k d)
      /\ lookup "stored_at" b = Some (JStr (toISOString t0))
      /\ (no_expiry (lookup "expires_at" d) ->
          reads = [] /\ lookup "expires_in_hours" b = Some JNull)
      /\ (forall j,
            lookup "expires_at" d = Some j ->
            ~ no_expiry (Some j) ->
            exists now,
              reads = [Read now]
              /\ (forall t,
                    engine_parseInt (of_json j) = Some t ->
                    Z.abs t <= 8640000000000000 ->
                    lookup "expires_in_hours" b
                    = Some (JNum ((t - now + 1800000) / 3600000)))
              /\ (forall t,
                    engine_parseInt (of_json j) = Some t ->
                    8640000000000000 < Z.abs t ->
                    lookup "expires_in_hours" b = Some JNull)
              /\ (engine_parseInt (of_json j) = None ->
                  lookup "expires_in_hours" b = Some JNull)).
Proof.
  intros S sv s env req resp Hm Hout H200.
  destruct (post_reaches_store sv s env req Hm)
    as [(tok & d & Hc & Hb & Ht)|(t0 & resp' & _ & Hout' & Hne)].
  2: { rewrite Hout' in Hout. injection Hout as <-. contradiction. }
  destruct (post_run sv env tok req d s Hc Hm Hb Ht)
    as (t0 & reads & hours & o & outs & now & o_put & Hlog & _ & Hexp & _).
  destruct (stored_record d (toISOString t0) hours) as (Hfields & Hstamp & Hhours).
  exists d, t0, reads. eexists. eexists. eexists. eexists.
  split; [exact Hb|]. split; [exact Hlog|].
  split; [right; apply in_or_app; right; right; left; reflexivity|].
  split; [reflexivity|]. split; [reflexivity|].
  assert (Hacc : supplied "access_token" d = ["access_token"]).
  { unfold supplied. unfold get in Ht.
    destruct (lookup "access_token" d); [reflexivity|discriminate Ht]. }
  unfold expiry_read in Hexp.
  destruct (truthy (get "expires_at" d)) eqn:Hte.
  - destruct Hexp as (t1 & -> & ->).
    split; [|split; [exact Hfields|split; [exact Hstamp|split]]].
    + rewrite (stored_record_names d _ _ _ (stringify_round_hours _ _)), Hacc.
      reflexivity.
    + intros Hno. apply truthy_get in Hno. congruence.
    + intros j Hj Hyes. destruct (truthy_expiry _ _ _ Hj Hyes) as [_ Hg].
      rewrite <- Hg. exists t1. split; [reflexivity|].
      rewrite Hhours, stringify_round_hours.
      split; [|split].
      * intros t Hp Hab. now rewrite (hours_json_number _ _ t Hp Hab).
      * intros t Hp Hbig. rewrite hours_json_null; [reflexivity|].
        right. now exists t.
      * intros Hp. rewrite hours_json_null; [reflexivity|]. now left.
  - destruct Hexp as [-> ->].
    split; [|split; [exact Hfields|split; [exact Hstamp|split]]].
    + rewrite (stored_record_names d _ VNull JNull eq_refl), Hacc. reflexivity.
    + intros _. split; [reflexivity|exact Hhours].
    + intros j Hj Hyes. destruct (truthy_expiry _ _ _ Hj Hyes) as [Hyes' _].
      congruence.
Qed.

Lemma stored_record_fields_witness :
  method sample_post = "POST"
  /\ exists d t0 reads rest rq o b now,
       body sample_post = Some d
       /\ log_of (exec blob_service (handler sample_env sample_post) sample_world)
          = (Read t0 :: reads ++ rest)%list
       /\ In (One rq o) rest
       /\ rq_method rq = "PUT"
       /\ rq_body rq = Some b
       /\ map fst b
          = ("access_token" :: supplied "expires_at" d ++ supplied "issued_at" d
               ++ supplied "client_id" d ++ supplied "user_id" d
               ++ ["stored_at"; "expires_in_hours"])%list
       /\ lookup "stored_at" b = Some (JStr (toISOString t0))
       /\ reads = [Read now]
       /\ lookup "expires_in_hours" b
          = Some (JNum ((1700003600000 - now + 1800000) / 3600000)).
Proof.
  split; [reflexivity|].
  destruct (stored_record_fields (E := model_engine)
              world blob_service sample_world sample_env sample_post _
              eq_refl ltac:(vm_compute; reflexivity) eq_refl)
    as (d & t0 & reads & rest & rq & o & b & Hb & Hlog & Hin & Hput & Hbody
        & Hnames & Hfields & Hstamp & _ & Hhours).
  destruct (Hhours (JStr "1700003600000")) as (now & Hreads & Hnum & _).
  - cbn [sample_post body] in Hb. injection Hb as <-. reflexivity.
  - intros [H|[H|[H|[H|H]]]]; discriminate H.
  - exists d, t0, reads, rest, rq, o, b, now.
    split; [exact Hb|]. split; [exact Hlog|]. split; [exact Hin|].
    split; [exact Hput|]. split; [exact Hbody|]. split; [exact Hnames|].
    split; [exact Hstamp|]. split; [exact Hreads|].
    apply (Hnum 1700003600000); [vm_compute; reflexivity | cbn; lia].
Defined.

(** ** One record after a POST? (C4) *)

(** As C4 puts it, after every POST answered 200 the new key is the only
    one under the prefix.  When the listing call fails the cleanup is
    skipped, the PUT still goes through, the answer is 200, and the earlier
    key is still there. *)
Lemma stale_key_survives_failed_listing :
  method sample_post_bare = "POST"
  /\ exists resp,
       outcome_of (exec blob_service (handler sample_env sample_post_bare)
                     sample_world_stale) = Returned resp
       /\ res_status resp = 200
       /\ token_keys (state_of (exec blob_service (handler sample_env sample_post_bare)
                                  sample_world_stale))
          = [ "upstox_access_token_1699990000000.json";
              "upstox_access_token_1700000000001.json" ].
Proof.
  split; [reflexivity|]. eexists.
  split; [vm_compute; reflexivity|]. split; [reflexivity|].
  vm_compute. reflexivity.
Qed.

(** C4, amended.  After every POST answered 200 in a run in which no call
    to the store failed (the listing, every delete and the PUT all went
    through), the key just written, "upstox_access_token_" with the reading
    of the clock and ".json", is the only key under the prefix left in the
    store. *)
Theorem clean_post_leaves_one_key {E : Engine} :
  forall (w : world) (env : option string) (req : http_request)
         (resp : http_response),
    method req = "POST" ->
    fault_free w ->
    outcome_of (exec blob_service (handler env req) w) = Returned resp ->
    res_status resp = 200 ->
    exists before now rq o,
      log_of (exec blob_service (handler env req) w)
      = (before ++ [Read now; One rq o])%list
      /\ rq_method rq = "PUT"
      /\ rq_url rq = (baseUrl ++ "/" ++ uniqueFilename now)%string
      /\ token_keys (state_of (exec blob_service (handler env req) w))
         = [uniqueFilename now].
Proof.
  intros w env req resp Hm Hw Hout H200.
  destruct (post_reaches_store blob_service w env req Hm)
    as [(tok & d & Hc & Hb & Ht)|(t0 & resp' & _ & Hout' & Hne)].
  - exact (clean_post_keys w env tok req d Hc Hm Hb Ht Hw).
  - rewrite Hout' in Hout. injection Hout as <-. contradiction.
Qed.

Lemma clean_post_leaves_one_key_witness :
  method sample_post = "POST"
  /\ fault_free {| now := 1700000000000;
                   entries := entries sample_world_stale;
                   faults := [] |}
  /\ exists before now rq o,
       log_of (exec blob_service (handler sample_env sample_post)
                 {| now := 1700000000000;
                    entries := entries sample_world_stale;
                    faults := [] |})
       = (before ++ [Read now; One rq o])%list
       /\ rq_method rq = "PUT"
       /\ rq_url rq = (baseUrl ++ "/" ++ uniqueFilename now)%string
       /\ token_keys (state_of (exec blob_service (handler sample_env sample_post)
                                  {| now := 1700000000000;
                                     entries := entries sample_world_stale;
                                     faults := [] |}))
          = [uniqueFilename now].
Proof.
  split; [reflexivity|]. split; [constructor|].
  refine (clean_post_leaves_one_key _ sample_env sample_post _ eq_refl _ _ _).
  - constructor.
  - vm_compute. reflexivity.
  - reflexivity.
Defined.

(** * Further properties of the handler *)

(** ** Every answer is well formed *)

Lemma respond_well_formed (allowed : list Z) (st : Z) (o : list (string * jsval)) :
  In st allowed ->
  lookup_value "success" o = Some (JBool (st =? 200)) ->
  well_formed_answer allowed (respond st o).
Proof.
  intros Hin Hs. unfold well_formed_answer. rewrite field_respond.
  repeat split; assumption.
Qed.

Ltac answer :=
  apply respond_well_formed; [cbn; tauto | read_member; reflexivity].

Lemma get_failure_well_formed (msg : string) :
  well_formed_answer [200; 404; 410; 500] (get_failure msg).
Proof.
  unfold get_failure, not_found, retrieve_failed.
  destruct (includes "404" msg || includes "not found" msg); answer.
Qed.

Lemma token_report_well_formed {E : Engine} {S : Type} (sv : service S) (j : jsondata) (s : S) :
  well_formed_answer [200; 404; 410; 500] (fst (fst (token_report sv j s))).
Proof.
  unfold token_report. destruct (truthy (token_field j "expires_at")).
  - destruct (tick sv s) as [t1 s1], (tick sv s1) as [t2 s2]. cbn [fst].
    destruct (date_gt t1 _).
    + destruct (new_Date _); [unfold token_expired; answer|].
      apply get_failure_well_formed.
    + unfold token_found. answer.
  - cbn [fst]. unfold token_found. answer.
Qed.

Lemma handle_get_well_formed {E : Engine} {S : Type} (sv : service S) (tok : string) (s : S) :
  exists resp,
    outcome_of (exec sv (handle_get tok) s) = Returned resp
    /\ well_formed_answer [200; 404; 410; 500] resp.
Proof.
  rewrite exec_handle_get.
  destruct (serve sv (list_request tok) s) as [o1 s1].
  destruct (listing_result o1) as [resp|latest] eqn:Hl.
  - exists resp. split; [reflexivity|].
    unfold listing_result in Hl.
    destruct o1 as [m|r]; [injection Hl as <-; apply get_failure_well_formed|].
    destruct (ok r); [|injection Hl as <-; apply get_failure_well_formed].
    destruct (parsed r) as [m|[[|b bs]|d]].
    + injection Hl as <-. apply get_failure_well_formed.
    + injection Hl as <-. unfold not_found. answer.
    + destruct (sort_by newest_first (b :: bs)); [|discriminate Hl].
      injection Hl as <-. apply get_failure_well_formed.
    + destruct (truthy (get "blobs" d)); injection Hl as <-;
        [apply get_failure_well_formed|unfold not_found; answer].
  - destruct (serve sv (read_request latest) s1) as [o2 s2].
    destruct (token_result o2) as [resp|td] eqn:Ht.
    + exists resp. split; [reflexivity|].
      unfold token_result in Ht.
      destruct o2 as [m|r]; [injection Ht as <-; apply get_failure_well_formed|].
      destruct (ok r); [|injection Ht as <-; apply get_failure_well_formed].
      destruct (parsed r); [|discriminate Ht].
      injection Ht as <-. apply get_failure_well_formed.
    + pose proof (token_report_well_formed sv td s2) as Hw.
      destruct (token_report sv td s2) as [[resp s3] reads].
      exists resp. split; [reflexivity|exact Hw].
Qed.

(** X1.  No exception escapes the handler and every answer has the same
    shape: whatever the request, the variable and the behaviour of the
    store, the handler returns a response with the three CORS headers.  An
    OPTIONS request gets 200 without a body.  Every other request gets a
    JSON body whose success member is true exactly when the status is 200,
    and the status is one of 200, 400, 500 for a POST, one of 200, 404,
    410, 500 for a GET, and 405 or 500 for any other method. *)
Theorem every_answer_is_well_formed {E : Engine} :
  forall (S : Type) (sv : service S) (s : S) (env : option string)
         (req : http_request),
  exists resp,
    outcome_of (exec sv (handler env req) s) = Returned resp
    /\ res_headers resp = cors
    /\ (method req = "OPTIONS" -> res_status resp = 200 /\ res_body resp = None)
    /\ (method req = "POST" -> well_formed_answer [200; 400; 500] resp)
    /\ (method req = "GET" -> well_formed_answer [200; 404; 410; 500] resp)
    /\ (method req <> "OPTIONS" -> method req <> "POST" -> method req <> "GET" ->
        well_formed_answer [405; 500] resp).
Proof.
  intros S sv s env req.
  destruct (string_dec (method req) "OPTIONS") as [Ho|Ho].
  { rewrite exec_handler_options by assumption.
    destruct (tick sv s) as [t0 s0]. exists (respond_end 200).
    split; [reflexivity|]. split; [reflexivity|].
    split; [auto|]. rewrite Ho.
    split; [discriminate|]. split; [discriminate|].
    intros Hne. now contradiction Hne. }
  assert (Hall : forall allowed resp,
             well_formed_answer allowed resp ->
             (method req = "POST" -> allowed = [200; 400; 500]) ->
             (method req = "GET" -> allowed = [200; 404; 410; 500]) ->
             (method req <> "POST" -> method req <> "GET" -> allowed = [405; 500]) ->
             res_headers resp = cors
             /\ (method req = "OPTIONS" ->
                 res_status resp = 200 /\ res_body resp = None)
             /\ (method req = "POST" -> well_formed_answer [200; 400; 500] resp)
             /\ (method req = "GET" ->
                 well_formed_answer [200; 404; 410; 500] resp)
             /\ (method req <> "OPTIONS" -> method req <> "POST" ->
                 method req <> "GET" -> well_formed_answer [405; 500] resp)).
  { intros allowed resp Hw Hp Hg Hother.
    split; [apply Hw|]. split; [intros; contradiction|].
    split; [intros H; now rewrite <- (Hp H)|].
    split; [intros H; now rewrite <- (Hg H)|].
    intros _ H1 H2. now rewrite <- (Hother H1 H2). }
  destruct (string_dec (method req) "POST") as [Hp|Hp].
  { assert (Hg : method req <> "GET") by (rewrite Hp; discriminate).
    destruct (configured env) as [tok|] eqn:Hc.
    2: { rewrite (exec_handler_unconfigured sv env req s Ho Hc).
         destruct (tick sv s). exists not_configured. split; [reflexivity|].
         apply (Hall [200; 400; 500]); try tauto. unfold not_configured. answer. }
    destruct (body req) as [d|] eqn:Hb.
    2: { destruct (exec_handler_post_no_body sv env tok req s Hp Hc Hb)
           as [msg Hex]. rewrite Hex. destruct (tick sv s).
         exists (internal_error msg). split; [reflexivity|].
         apply (Hall [200; 400; 500]); try tauto. unfold internal_error. answer. }
    destruct (truthy (get "access_token" d)) eqn:Ht.
    - destruct (post_run sv env tok req d s Hc Hp Hb Ht)
        as (t0 & reads & hours & o & outs & now & o_put & _ & _ & _ & Hout).
      eexists. split; [exact Hout|].
      apply (Hall [200; 400; 500]); try tauto.
      unfold post_response.
      destruct (store_error o_put);
        [unfold store_failed|unfold token_stored]; answer.
    - rewrite (exec_handler_post_no_token sv env tok req d s Hp Hc Hb Ht).
      destruct (tick sv s). exists missing_token. split; [reflexivity|].
      apply (Hall [200; 400; 500]); try tauto. unfold missing_token. answer. }
  destruct (configured env) as [tok|] eqn:Hc.
  2: { rewrite (exec_handler_unconfigured sv env req s Ho Hc).
       destruct (tick sv s). exists not_configured. split; [reflexivity|].
       destruct (string_dec (method req) "GET") as [Hg|Hg].
       - apply (Hall [200; 404; 410; 500]); try tauto. unfold not_configured. answer.
       - apply (Hall [405; 500]); try tauto. unfold not_configured. answer. }
  destruct (string_dec (method req) "GET") as [Hg|Hg].
  - rewrite (exec_handler_get sv env tok req s Hg Hc).
    destruct (tick sv s) as [t0 s0].
    destruct (handle_get_well_formed sv tok s0) as (resp & Hout & Hw).
    destruct (exec sv (handle_get tok) s0) as [[r s1] l]. cbn in Hout. subst r.
    exists resp. split; [reflexivity|].
    apply (Hall [200; 404; 410; 500]); tauto.
  - rewrite (exec_handler_other sv env tok req s Ho Hp Hg Hc).
    destruct (tick sv s). exists (method_not_allowed (method req)).
    split; [reflexivity|].
    apply (Hall [405; 500]); try tauto. unfold method_not_allowed. answer.
Qed.

Lemma every_answer_is_well_formed_witness :
  method sample_post = "POST"
  /\ exists resp,
       outcome_of (exec (scripted 1700000000000) (handler sample_env sample_post)
                     sample_cleanup_failing) = Returned resp
       /\ well_formed_answer [200; 400; 500] resp.
Proof.
  split; [reflexivity|].
  destruct (every_answer_is_well_formed (list outcome) (scripted 1700000000000)
              sample_cleanup_failing sample_env sample_post)
    as (resp & Hout & _ & _ & Hpost & _).
  exists resp. split; [exact Hout|]. apply Hpost. reflexivity.
Defined.

(** ** A POST without a body *)



(** ** What the answer to a POST says about the record *)

(** X3.  The 200 answer of a POST tells the caller what was stored: its
    stored_at, expires_in_hours and client_id are those of the record that
    was PUT (client_id is missing from both when the body had none). *)
Theorem post_answer_echoes_record {E : Engine} :
  forall (S : Type) (sv : service S) (s : S) (env : option string)
         (req : http_request) (resp : http_response) (rq : request) (o : outcome)
         (b : doc),
    method req = "POST" ->
    outcome_of (exec sv (handler env req) s) = Returned resp ->
    res_status resp = 200 ->
    In (One rq o) (log_of (exec sv (handler env req) s)) ->
    rq_method rq = "PUT" ->
    rq_body rq = Some b ->
    field "stored_at" resp = lookup "stored_at" b
    /\ field "expires_in_hours" resp = lookup "expires_in_hours" b
    /\ field "client_id" resp = lookup "client_id" b
    /\ exists ts, lookup "stored_at" b = Some (JStr ts).
Proof.
  intros S sv s env req resp rq o b Hm Hout H200 Hin Hput Hbody.
  destruct (post_put sv s env req rq o Hm Hin Hput)
    as (tok & d & t0 & reads & hours & now & rest & _ & _ & _ & -> & Hout').
  rewrite Hout' in Hout. injection Hout as <-.
  apply put_body in Hbody. subst b.
  unfold post_response in *.
  destruct (store_error o); [discriminate H200|].
  unfold token_stored, tokenData_of.
  repeat split; read_member; try reflexivity.
  exists (toISOString t0). read_member. reflexivity.
Qed.

Lemma post_answer_echoes_record_witness :
  exists resp,
    outcome_of (exec (scripted 1700000000000) (handler sample_env sample_post)
                  [Resolved (json_answer 200 (Listing []));
                   Resolved (json_answer 200 (Object []))]) = Returned resp
    /\ field "stored_at" resp
       = lookup "stored_at"
           (JSON_stringify
              (tokenData_of [("access_token", JStr "tok");
                             ("expires_at", JStr "1700003600000");
                             ("client_id", JStr "c1")]
                 (toISOString 1700000000000) (VNum 1)))
    /\ field "expires_in_hours" resp
       = lookup "expires_in_hours"
           (JSON_stringify
              (tokenData_of [("access_token", JStr "tok");
                             ("expires_at", JStr "1700003600000");
                             ("client_id", JStr "c1")]
                 (toISOString 1700000000000) (VNum 1)))
    /\ field "client_id" resp
       = lookup "client_id"
           (JSON_stringify
              (tokenData_of [("access_token", JStr "tok");
                             ("expires_at", JStr "1700003600000");
                             ("client_id", JStr "c1")]
                 (toISOString 1700000000000) (VNum 1)))
    /\ exists ts,
         lookup "stored_at"
           (JSON_stringify
              (tokenData_of [("access_token", JStr "tok");
                             ("expires_at", JStr "1700003600000");
                             ("client_id", JStr "c1")]
                 (toISOString 1700000000000) (VNum 1))) = Some (JStr ts).
Proof.
  eexists. split; [vm_compute; reflexivity|].
  eapply (post_answer_echoes_record (list outcome) (scripted 1700000000000)
            [Resolved (json_answer 200 (Listing []));
             Resolved (json_answer 200 (Object []))]
            sample_env sample_post _
            (put_request "secret" 1700000000000
               (tokenData_of [("access_token", JStr "tok");
                              ("expires_at", JStr "1700003600000");
                              ("client_id", JStr "c1")]
                  (toISOString 1700000000000) (VNum 1)))
            (Resolved (json_answer 200 (Object [])))).
  - reflexivity.
  - vm_compute. reflexivity.
  - reflexivity.
  - vm_compute. right. right. right. right. left. reflexivity.
  - reflexivity.
  - reflexivity.
Defined.

(** ** Who gets the blob token *)

Lemma requests_app (l l' : list event) :
  requests (l ++ l') = (requests l ++ requests l')%list.
Proof.
  induction l as [|[t|rq o|b] l IH]; cbn; [reflexivity|exact IH| |].
  - now rewrite IH.
  - now rewrite IH, app_assoc.
Qed.

(** X4.  The blob token goes out as the bearer credential of every
    request a POST sends (the listing, each delete, the PUT) and of the
    listing of a GET; the fetch of the token file that may follow in a GET
    is a plain GET without credential or body. *)
Theorem store_requests_carry_the_token {E : Engine} :
  forall (S : Type) (sv : service S) (s : S) (env : option string) (tok : string)
         (req : http_request),
    configured env = Some tok ->
    (method req = "POST" ->
     Forall (authorized tok) (requests (log_of (exec sv (handler env req) s))))
    /\ (method req = "GET" ->
        exists more,
          requests (log_of (exec sv (handler env req) s)) = list_request tok :: more
          /\ authorized tok (list_request tok)
          /\ Forall anonymous_read more).
Proof.
  intros S sv s env tok req Hc. split; intros Hm.
  - destruct (post_reaches_store sv s env req Hm)
      as [(tok' & d & Hc' & Hb & Ht)|(t0 & resp & Hlog & _)].
    2: { rewrite Hlog. constructor. }
    rewrite Hc in Hc'. injection Hc' as <-.
    destruct (post_run sv env tok req d s Hc Hm Hb Ht)
      as (t0 & reads & hours & o & outs & now & o_put & Hlog & Hlen & Hexp & _).
    rewrite Hlog. cbn [requests]. rewrite requests_app. cbn [requests].
    rewrite (expiry_read_no_request _ _ _ Hexp), requests_app,
      (requests_deletions _ _ _ Hlen). cbn.
    constructor; [reflexivity|]. apply Forall_app. split.
    + apply Forall_forall. intros rq Hrq. apply in_map_iff in Hrq as (b & <- & _).
      reflexivity.
    + repeat constructor.
  - rewrite (exec_handler_get sv env tok req s Hm Hc).
    destruct (tick sv s) as [t0 s0].
    destruct (get_requests sv tok s0) as (more & Hlog & Hmore).
    destruct (exec sv (handle_get tok) s0) as [[r s1] l]. cbn in *.
    exists more. split; [exact Hlog|]. split; [reflexivity|].
    destruct Hmore as [->|[b ->]]; repeat constructor.
Qed.

Lemma store_requests_carry_the_token_witness :
  configured sample_env = Some "secret"
  /\ method sample_post = "POST"
  /\ Forall (authorized "secret")
       (requests (log_of (exec (scripted 1700000000000) (handler sample_env sample_post)
                            sample_cleanup_failing))).
Proof.
  split; [reflexivity|]. split; [reflexivity|].
  apply (store_requests_carry_the_token (list outcome) (scripted 1700000000000)
           sample_cleanup_failing sample_env "secret" sample_post eq_refl).
  reflexivity.
Defined.

(** ** A GET, step by step from the handler *)

Lemma exec_get {E : Engine} {S : Type} (sv : service S) (s : S) (env : option string)
      (tok : string) (req : http_request) :
  method req = "GET" ->
  configured env = Some tok ->
  exec sv (handler env req) s =
  let (t0, s0) := tick sv s in
  let (o1, s1) := serve sv (list_request tok) s0 in
  match listing_result o1 with
  | inl resp => (Returned resp, s1, [Read t0; One (list_request tok) o1])
  | inr latest =>
      let (o2, s2) := serve sv (read_request latest) s1 in
      match token_result o2 with
      | inl resp =>
          (Returned resp, s2,
           [Read t0; One (list_request tok) o1; One (read_request latest) o2])
      | inr tokenData =>
          let '(resp, s3, reads) := token_report sv tokenData s2 in
          (Returned resp, s3,
           Read t0 :: One (list_request tok) o1
             :: One (read_request latest) o2 :: reads)
      end
  end.
Proof.
  intros Hm Hc. rewrite (exec_handler_get sv env tok req s Hm Hc).
  destruct (tick sv s) as [t0 s0]. rewrite exec_handle_get.
  destruct (serve sv (list_request tok) s0) as [o1 s1].
  destruct (listing_result o1) as [resp|latest]; [reflexivity|].
  destruct (serve sv (read_request latest) s1) as [o2 s2].
  destruct (token_result o2) as [resp|td]; [reflexivity|].
  destruct (token_report sv td s2) as [[resp s3] reads]. reflexivity.
Qed.

Lemma get_log_configured {E : Engine} {S : Type} (sv : service S) (s : S) (env : option string)
      (req : http_request) (e1 e2 : event) (rest : list event) :
  method req = "GET" ->
  log_of (exec sv (handler env req) s) = e1 :: e2 :: rest ->
  exists tok, configured env = Some tok.
Proof.
  intros Hm Hlog. destruct (configured env) as [tok|] eqn:Hc; [eauto|].
  rewrite exec_handler_unconfigured in Hlog;
    [|rewrite Hm; discriminate|assumption].
  destruct (tick sv s); discriminate Hlog.
Qed.

(** ** Which store errors a GET passes on *)

Lemma status_in_range (P : Z -> bool) :
  forallb (fun n => P (Z.of_nat n)) (seq 100 500) = true ->
  forall st, 100 <= st <= 599 -> P st = true.
Proof.
  intros H st Hst. rewrite forallb_forall in H.
  specialize (H (Z.to_nat st)). rewrite Z2Nat.id in H by lia.
  apply H. apply in_seq. lia.
Qed.

Lemma failed_listing_status (st : Z) :
  100 <= st <= 599 ->
  res_status (get_failure ("Failed to list token files: " ++ dec st))
  = if st =? 404 then 404 else 500.
Proof.
  intros Hst. apply Z.eqb_eq.
  apply (status_in_range
           (fun st => res_status (get_failure ("Failed to list token files: " ++ dec st))
                      =? (if st =? 404 then 404 else 500))); [|exact Hst].
  vm_compute. reflexivity.
Qed.

Lemma failed_fetch_status (st : Z) :
  100 <= st <= 599 ->
  res_status (get_failure ("Failed to fetch token content: " ++ dec st))
  = if st =? 404 then 404 else 500.
Proof.
  intros Hst. apply Z.eqb_eq.
  apply (status_in_range
           (fun st => res_status (get_failure ("Failed to fetch token content: " ++ dec st))
                      =? (if st =? 404 then 404 else 500))); [|exact Hst].
  vm_compute. reflexivity.
Qed.

(** X5.  Of the error statuses of the store a GET passes on only 404.
    When the listing call, or the fetch of the token file, is answered with
    a status outside 200-299, the GET stops there and answers 404 if that
    status is 404 and 500 for every other status from 100 to 599. *)
Theorem get_passes_on_404_only {E : Engine} :
  forall (S : Type) (sv : service S) (s : S) (env : option string)
         (req : http_request),
    method req = "GET" ->
    (forall t0 rq r rest,
        log_of (exec sv (handler env req) s) = Read t0 :: One rq (Resolved r) :: rest ->
        ok r = false ->
        100 <= status r <= 599 ->
        exists resp,
          outcome_of (exec sv (handler env req) s) = Returned resp
          /\ rest = []
          /\ refuses resp (if status r =? 404 then 404 else 500))
    /\ (forall t0 rq1 o1 rq2 r2 rest,
           log_of (exec sv (handler env req) s)
           = Read t0 :: One rq1 o1 :: One rq2 (Resolved r2) :: rest ->
           ok r2 = false ->
           100 <= status r2 <= 599 ->
           exists resp,
             outcome_of (exec sv (handler env req) s) = Returned resp
             /\ rest = []
             /\ refuses resp (if status r2 =? 404 then 404 else 500)).
Proof.
  intros S sv s env req Hm.
  assert (Hrefuses : forall msg st,
             res_status (get_failure msg) = st -> refuses (get_failure msg) st).
  { intros msg st <-. split; [reflexivity|].
    unfold get_failure, not_found, retrieve_failed.
    destruct (includes "404" msg || includes "not found" msg);
      read_member; reflexivity. }
  split.
  - intros t0 rq r rest Hlog Hok Hst.
    destruct (get_log_configured sv s env req _ _ _ Hm Hlog) as [tok Hc].
    revert Hlog. rewrite (exec_get sv s env tok req Hm Hc).
    destruct (tick sv s) as [t0' s0].
    destruct (serve sv (list_request tok) s0) as [o1 s1].
    assert (Hl : o1 = Resolved r ->
                 listing_result o1
                 = inl (get_failure ("Failed to list token files: " ++ dec (status r)))).
    { intros ->. unfold listing_result. now rewrite Hok. }
    destruct (listing_result o1) as [resp|latest].
    + cbn. intros Hlog. inversion Hlog; subst.
      specialize (Hl eq_refl). injection Hl as ->.
      eexists. split; [reflexivity|]. split; [reflexivity|].
      apply Hrefuses. now apply failed_listing_status.
    + destruct (serve sv (read_request latest) s1) as [o2 s2].
      destruct (token_result o2) as [resp|td].
      * cbn. intros Hlog. inversion Hlog; subst.
        specialize (Hl eq_refl). discriminate Hl.
      * destruct (token_report sv td s2) as [[resp s3] reads].
        cbn. intros Hlog. inversion Hlog; subst.
        specialize (Hl eq_refl). discriminate Hl.
  - intros t0 rq1 o1 rq2 r2 rest Hlog Hok Hst.
    destruct (get_log_configured sv s env req _ _ _ Hm Hlog) as [tok Hc].
    revert Hlog. rewrite (exec_get sv s env tok req Hm Hc).
    destruct (tick sv s) as [t0' s0].
    destruct (serve sv (list_request tok) s0) as [o1' s1].
    destruct (listing_result o1') as [resp|latest]; [discriminate|].
    destruct (serve sv (read_request latest) s1) as [o2 s2].
    assert (Ht : o2 = Resolved r2 ->
                 token_result o2
                 = inl (get_failure ("Failed to fetch token content: "
                                       ++ dec (status r2)))).
    { intros ->. unfold token_result. now rewrite Hok. }
    destruct (token_result o2) as [resp|td].
    + cbn. intros Hlog. inversion Hlog; subst.
      specialize (Ht eq_refl). injection Ht as ->.
      eexists. split; [reflexivity|]. split; [reflexivity|].
      apply Hrefuses. now apply failed_fetch_status.
    + destruct (token_report sv td s2) as [[resp s3] reads].
      cbn. intros Hlog. inversion Hlog; subst.
      specialize (Ht eq_refl). discriminate Ht.
Qed.

Lemma get_passes_on_404_only_witness :
  method sample_get = "GET"
  /\ exists resp,
       outcome_of (exec (scripted 1700000000000) (handler sample_env sample_get)
                     [Resolved sample_listing; Resolved sample_gone])
       = Returned resp
       /\ @nil event = []
       /\ refuses resp (if status sample_gone =? 404 then 404 else 500).
Proof.
  split; [reflexivity|].
  destruct (get_passes_on_404_only (list outcome) (scripted 1700000000000)
              [Resolved sample_listing; Resolved sample_gone]
              sample_env sample_get eq_refl) as [_ Hfetch].
  apply (Hfetch 1700000000000 (list_request "secret") (Resolved sample_listing)
           (read_request sample_newest) sample_gone []).
  - vm_compute. reflexivity.
  - reflexivity.
  - vm_compute. split; discriminate.
Defined.

(** ** Ties among the newest *)

(** The head of the sorted listing is the first listed of the newest
    blobs: everything listed before it is strictly older. *)
Lemma sort_by_first_newest (l : list blob) :
  l <> [] ->
  exists older latest later rest,
    l = (older ++ latest :: later)%list
    /\ sort_by newest_first l = latest :: rest
    /\ (forall b, In b older -> uploadedAt b < uploadedAt latest)
    /\ (forall b, In b later -> uploadedAt b <= uploadedAt latest).
Proof.
  induction l as [|x l IH]; [congruence|]. intros _.
  change (sort_by newest_first (x :: l))
    with (insert_by newest_first x (sort_by newest_first l)).
  destruct l as [|y l'].
  - exists [], x, [], []. cbn. repeat split; intros b [].
  - destruct IH as (older & latest & later & rest & Hl & Hs & Hold & Hlate);
      [discriminate|].
    rewrite Hs. cbn [insert_by]. unfold newest_first at 1.
    destruct (uploadedAt latest - uploadedAt x <=? 0) eqn:E.
    + apply Z.leb_le in E. exists [], x, (y :: l'), (latest :: rest).
      split; [reflexivity|]. split; [reflexivity|]. split; [intros b []|].
      intros b Hb. rewrite Hl in Hb. apply in_app_or in Hb as [Hb|[<-|Hb]].
      * specialize (Hold b Hb). lia.
      * lia.
      * specialize (Hlate b Hb). lia.
    + apply Z.leb_gt in E.
      exists (x :: older), latest, later, (insert_by newest_first x rest).
      split; [cbn; now rewrite Hl|]. split; [reflexivity|]. split; [|exact Hlate].
      intros b [<-|Hb]; [lia|now apply Hold].
Qed.

(** X6.  When several listed blobs share the newest uploadedAt, the GET
    fetches the one listed first among them: the request after the listing
    is a GET of the URL of a listed blob such that every blob listed before
    it is strictly older and every blob listed after it is no newer. *)
Theorem get_fetches_first_of_the_newest {E : Engine} :
  forall (S : Type) (sv : service S) (s : S) (env : option string)
         (req : http_request) (t0 : Z) (rq : request) (r : reply)
         (blobs : list blob) (rest : list event),
    method req = "GET" ->
    log_of (exec sv (handler env req) s) = Read t0 :: One rq (Resolved r) :: rest ->
    200 <= status r <= 299 ->
    parsed r = inr (Listing blobs) ->
    blobs <> [] ->
    exists older latest later fetched o rest',
      blobs = (older ++ latest :: later)%list
      /\ rest = One fetched o :: rest'
      /\ rq_method fetched = "GET"
      /\ rq_url fetched = url latest
      /\ (forall b, In b older -> uploadedAt b < uploadedAt latest)
      /\ (forall b, In b later -> uploadedAt b <= uploadedAt latest).
Proof.
  intros S sv s env req t0 rq r blobs rest Hm Hlog Hst Hp Hne.
  pose proof (ok_range r Hst) as Hok.
  destruct (get_log_configured sv s env req _ _ _ Hm Hlog) as [tok Hc].
  destruct (sort_by_first_newest blobs Hne)
    as (older & latest & later & others & Hl & Hs & Hold & Hlate).
  exists older, latest, later, (read_request latest).
  revert Hlog. rewrite (exec_get sv s env tok req Hm Hc).
  destruct (tick sv s) as [t0' s0].
  destruct (serve sv (list_request tok) s0) as [o1 s1].
  assert (Hres : o1 = Resolved r -> listing_result o1 = inr latest).
  { intros ->. unfold listing_result. rewrite Hok, Hp, Hs.
    destruct blobs; [congruence|reflexivity]. }
  destruct (listing_result o1) as [resp|l].
  - cbn. intros Hlog. inversion Hlog; subst.
    specialize (Hres eq_refl). discriminate Hres.
  - destruct (serve sv (read_request l) s1) as [o2 s2].
    destruct (token_result o2) as [resp|td].
    + cbn. intros Hlog. inversion Hlog; subst.
      specialize (Hres eq_refl). injection Hres as ->.
      exists o2, []. repeat split; auto.
    + destruct (token_report sv td s2) as [[resp s3] reads].
      cbn. intros Hlog. inversion Hlog; subst.
      specialize (Hres eq_refl). injection Hres as ->.
      exists o2, reads. repeat split; auto.
Qed.

Lemma get_fetches_first_of_the_newest_witness :
  200 <= status (json_answer 200 (Listing sample_tied)) <= 299
  /\ exists older latest later fetched o rest',
       sample_tied = (older ++ latest :: later)%list
       /\ tl (tl (log_of (exec (scripted 1700000000000) (handler sample_env sample_get)
                            [Resolved (json_answer 200 (Listing sample_tied))])))
          = One fetched o :: rest'
       /\ rq_method fetched = "GET"
       /\ rq_url fetched = url latest
       /\ (forall b, In b older -> uploadedAt b < uploadedAt latest)
       /\ (forall b, In b later -> uploadedAt b <= uploadedAt latest).
Proof.
  split; [cbn; lia|].
  apply (get_fetches_first_of_the_newest (list outcome) (scripted 1700000000000)
           [Resolved (json_answer 200 (Listing sample_tied))]
           sample_env sample_get 1700000000000 (list_request "secret")
           (json_answer 200 (Listing sample_tied)) sample_tied).
  - reflexivity.
  - vm_compute. reflexivity.
  - cbn. lia.
  - reflexivity.
  - discriminate.
Defined.

(** ** Keys do not collide *)

Lemma append_length (a b : string) :
  String.length (a ++ b) = (String.length a + String.length b)%nat.
Proof. induction a as [|c a IH]; cbn; [reflexivity|now rewrite IH]. Qed.

Lemma append_inj_r (a b t : string) : (a ++ t = b ++ t)%string -> a = b.
Proof.
  revert b; induction a as [|c a IH]; intros [|c' b] H; cbn in H.
  - reflexivity.
  - apply (f_equal String.length) in H. cbn in H. rewrite append_length in H. lia.
  - apply (f_equal String.length) in H. cbn in H. rewrite append_length in H. lia.
  - injection H as -> H. f_equal. now apply IH.
Qed.

Lemma dec_inj (a b : Z) : dec a = dec b -> a = b.
Proof.
  unfold dec. intros H.
  assert (Hn : forall z, Z.to_int z <> Decimal.Pos Decimal.Nil
                         /\ Z.to_int z <> Decimal.Neg Decimal.Nil).
  { intros z. split; intros E;
      (assert (Hz : z = 0) by (rewrite <- (DecimalZ.of_to z), E; reflexivity));
      subst z; vm_compute in E; discriminate E. }
  apply DecimalZ.to_int_inj.
  assert (Some (Z.to_int a) = Some (Z.to_int b)) as E; [|now injection E].
  rewrite <- (NilZero.isi (Z.to_int a)), <- (NilZero.isi (Z.to_int b));
    try apply Hn.
  now rewrite H.
Qed.

Lemma uniqueFilename_inj (a b : Z) :
  uniqueFilename a = uniqueFilename b -> a = b.
Proof.
  intros H. unfold uniqueFilename, TOKEN_PREFIX in H. cbn in H.
  injection H as H. apply dec_inj. now apply (append_inj_r _ _ ".json").
Qed.

(** X7.  The key of a record determines the instant it was written at:
    two POSTs whose readings of the clock differ PUT to different URLs, so
    a record is never overwritten by a later one. *)
Theorem keys_differ_with_the_clock :
  forall (tok tok' : string) (a b : Z) (o o' : list (string * jsval)),
    a <> b ->
    uniqueFilename a <> uniqueFilename b
    /\ rq_url (put_request tok a o) <> rq_url (put_request tok' b o').
Proof.
  intros tok tok' a b o o' Hne. split.
  - intros H. apply Hne. now apply uniqueFilename_inj.
  - unfold put_request, baseUrl, uniqueFilename, TOKEN_PREFIX. cbn.
    intros H. injection H as H.
    apply Hne, dec_inj. now apply (append_inj_r _ _ ".json").
Qed.

Lemma keys_differ_with_the_clock_witness :
  1700000000000 <> 1700000000001
  /\ uniqueFilename 1700000000000 <> uniqueFilename 1700000000001
  /\ rq_url (put_request "secret" 1700000000000 [])
     <> rq_url (put_request "secret" 1700000000001 []).
Proof.
  split; [discriminate|].
  apply (keys_differ_with_the_clock "secret" "secret" 1700000000000 1700000000001
           [] []).
  discriminate.
Defined.

(** ** The handler against the blob store *)

Lemma blob_serve_planned (rq : request) (w : world) :
  hd None (faults w) = None ->
  blob_serve rq w
  = (fst (act rq (now w) (entries w)),
     {| now := now w; entries := snd (act rq (now w) (entries w));
        faults := tl (faults w) |}).
Proof.
  unfold blob_serve. intros ->.
  destruct (act rq (now w) (entries w)); reflexivity.
Qed.

Lemma blob_serve_faulted (rq : request) (w : world) (f : fault) :
  hd None (faults w) = Some f ->
  blob_serve rq w
  = (fail f, {| now := now w; entries := entries w; faults := tl (faults w) |}).
Proof. unfold blob_serve. now intros ->. Qed.

Lemma blob_serve_now (rq : request) (w : world) :
  now (snd (blob_serve rq w)) = now w.
Proof.
  unfold blob_serve. destruct (hd None (faults w)); [reflexivity|].
  destruct (act rq (now w) (entries w)); reflexivity.
Qed.

Lemma act_subset (rq : request) (t : Z) (es : list entry) (e : entry) :
  rq_method rq <> "PUT" ->
  In e (snd (act rq t es)) -> In e es.
Proof.
  unfold act. intros Hm.
  destruct (rq_method rq =? "GET")%string.
  { destruct (strip_prefix _ _); [auto|]. destruct (find _ _); auto. }
  destruct (rq_method rq =? "DELETE")%string.
  { cbn. intros H. now apply filter_In in H. }
  apply String.eqb_neq in Hm. rewrite Hm. auto.
Qed.

Lemma blob_serve_subset (rq : request) (w : world) (e : entry) :
  rq_method rq <> "PUT" ->
  In e (entries (snd (blob_serve rq w))) -> In e (entries w).
Proof.
  intros Hm. unfold blob_serve. destruct (hd None (faults w)); [auto|].
  pose proof (act_subset rq (now w) (entries w) e Hm) as H.
  destruct (act rq (now w) (entries w)); exact H.
Qed.

Lemma serve_all_subset (rqs : list request) (w : world) :
  Forall (fun rq => rq_method rq <> "PUT") rqs ->
  now (snd (serve_all blob_service rqs w)) = now w
  /\ forall e, In e (entries (snd (serve_all blob_service rqs w))) ->
               In e (entries w).
Proof.
  revert w; induction rqs as [|rq rqs IH]; intros w Hall; cbn; [auto|].
  inversion Hall as [|? ? Hrq Hrqs]; subst.
  pose proof (blob_serve_now rq w) as Hn.
  pose proof (fun e => blob_serve_subset rq w e Hrq) as Hs.
  destruct (blob_serve rq w) as [o w1]. cbn [snd] in Hn, Hs.
  destruct (IH w1 Hrqs) as [Hn' Hs'].
  destruct (serve_all blob_service rqs w1) as [os w2]. cbn [snd] in *.
  split; [congruence|]. intros e He. apply Hs, Hs', He.
Qed.

Lemma deletes_are_not_puts (tok : string) (bs : list blob) :
  Forall (fun rq => rq_method rq <> "PUT") (map (delete_request tok) bs).
Proof.
  apply Forall_forall. intros rq Hrq. apply in_map_iff in Hrq as (b & <- & _).
  discriminate.
Qed.

Lemma expiry_reads_now {E : Engine} (v : jsval) (w : world) :
  now w <= now (snd (fst (expiry_reads blob_service v w))).
Proof. unfold expiry_reads. destruct (truthy v); cbn; lia. Qed.

Lemma fail_not_stored (f : fault) : ~ stored (fail f).
Proof.
  intros (r & j & H & _ & Hp). destruct f; cbn in H; [discriminate|].
  injection H as <-. discriminate Hp.
Qed.

Lemma fail_store_error (f : fault) : store_error (fail f) <> None.
Proof.
  destruct f as [m|st text]; cbn; [discriminate|].
  unfold store_error, text_reply. cbn. destruct (ok _); discriminate.
Qed.



Lemma serve_all_deletes_planned (tok : string) (bs : list blob) (w : world)
      (rest : list (option fault)) :
  faults w = (repeat None (List.length bs) ++ rest)%list ->
  entries (snd (serve_all blob_service (map (delete_request tok) bs) w))
  = without bs (entries w)
  /\ now (snd (serve_all blob_service (map (delete_request tok) bs) w)) = now w
  /\ faults (snd (serve_all blob_service (map (delete_request tok) bs) w)) = rest.
Proof.
  revert w; induction bs as [|b bs IH]; intros w Hf; cbn; [auto|].
  assert (Hhd : hd None (faults w) = None) by (rewrite Hf; reflexivity).
  rewrite (blob_serve_planned _ w Hhd).
  set (w1 := {| now := now w;
                entries := snd (act (delete_request tok b) (now w) (entries w));
                faults := tl (faults w) |}).
  assert (Hf1 : faults w1 = (repeat None (List.length bs) ++ rest)%list)
    by (cbn; rewrite Hf; reflexivity).
  specialize (IH w1 Hf1).
  destruct (serve_all blob_service (map (delete_request tok) bs) w1) as [os w2].
  cbn in *. exact IH.
Qed.

(** X9.  Replacing the record is not atomic.  When the listing and every
    delete go through and the PUT then fails, the POST is answered 500 and
    the store is left without any key under the prefix: the earlier records
    are gone and the new one was not written. *)
Theorem failed_put_after_cleanup_loses_token {E : Engine} :
  forall (w : world) (env : option string) (tok : string) (req : http_request)
         (d : doc) (f : fault) (rest : list (option fault)),
    configured env = Some tok ->
    method req = "POST" ->
    body req = Some d ->
    truthy (get "access_token" d) = true ->
    faults w = (repeat None (1 + List.length (token_keys w)) ++ Some f :: rest)%list ->
    exists resp,
      outcome_of (exec blob_service (handler env req) w) = Returned resp
      /\ refuses resp 500
      /\ token_keys (state_of (exec blob_service (handler env req) w)) = [].
Proof.
  intros w env tok req d f rest Hc Hm Hb Ht Hf.
  rewrite (exec_handler_post blob_service env tok req d w Hc Hm Hb Ht).
  cbn [tick blob_service blob_tick].
  rewrite (exec_handle_post blob_service tok _ req d _ Hb Ht).
  set (w0 := {| now := now w + 1; entries := entries w; faults := faults w |}).
  destruct (expiry_reads_keep (get "expires_at" d) w0) as [He1 Hf1].
  destruct (expiry_reads blob_service (get "expires_at" d) w0)
    as [[hours w1] reads]. cbn [fst snd] in He1, Hf1.
  change (entries w0) with (entries w) in He1.
  change (faults w0) with (faults w) in Hf1.
  cbn [serve blob_service].
  assert (Hhd : hd None (faults w1) = None) by (rewrite Hf1, Hf; reflexivity).
  rewrite (blob_serve_planned _ w1 Hhd).
  destruct (act_list tok (now w1) (entries w1)) as [raw ->]. cbn [fst snd].
  set (found := map descriptor (filter (has_prefix TOKEN_PREFIX) (entries w1))).
  change (listed (json_reply 200 raw (Listing found))) with found.
  set (w2 := {| now := now w1; entries := entries w1; faults := tl (faults w1) |}).
  assert (Hf2 : faults w2
                = (repeat None (List.length found) ++ Some f :: rest)%list).
  { cbn. rewrite Hf1, Hf. cbn. unfold found, token_keys.
    now rewrite He1, !length_map. }
  destruct (serve_all_deletes_planned tok found w2 _ Hf2) as (He3 & _ & Hf3).
  change (@serve_all world blob_service) with (serve_all blob_service) in *.
  destruct (serve_all blob_service (map (delete_request tok) found) w2)
    as [outs w3]. cbn [snd] in He3, Hf3.
  cbn [tick blob_service blob_tick].
  set (w4 := {| now := now w3 + 1; entries := entries w3; faults := faults w3 |}).
  assert (Hhd4 : hd None (faults w4) = Some f) by (cbn; now rewrite Hf3).
  rewrite (blob_serve_faulted _ w4 f Hhd4).
  exists (post_response d (toISOString (now w)) hours (fail f)).
  split; [reflexivity|]. split.
  - unfold post_response. pose proof (fail_store_error f) as Hne.
    destruct (store_error (fail f)); [split; reflexivity|congruence].
  - assert (Hnone : filter (has_prefix TOKEN_PREFIX) (entries w3) = []).
    { rewrite He3. apply without_listed. intros e He Hp.
      apply in_map. apply filter_In. split; assumption. }
    unfold token_keys, state_of. subst w4. cbn [fst snd entries].
    now rewrite Hnone.
Qed.

Lemma failed_put_after_cleanup_loses_token_witness :
  configured sample_env = Some "secret"
  /\ token_keys sample_world_put_fails = ["upstox_access_token_1699990000000.json"]
  /\ exists resp,
       outcome_of (exec blob_service (handler sample_env sample_post_bare)
                     sample_world_put_fails) = Returned resp
       /\ refuses resp 500
       /\ token_keys (state_of (exec blob_service (handler sample_env sample_post_bare)
                                  sample_world_put_fails)) = [].
Proof.
  split; [reflexivity|]. split; [reflexivity|].
  apply (failed_put_after_cleanup_loses_token sample_world_put_fails sample_env
           "secret" sample_post_bare [("access_token", JStr "tok")]
           (Refused 503 "Service Unavailable") []);
    reflexivity.
Defined.

(** ** A POST and then a GET *)

(** What a POST answered 200 leaves in the blob store, whatever became of
    the cleanup: blobs that were there before, and after them the new
    record, uploaded later than the POST began. *)
Lemma post_store_state {E : Engine} (w : world) (env : option string) (tok : string)
      (req : http_request) (d : doc) (resp : http_response) :
  configured env = Some tok ->
  method req = "POST" ->
  body req = Some d ->
  truthy (get "access_token" d) = true ->
  outcome_of (exec blob_service (handler env req) w) = Returned resp ->
  res_status resp = 200 ->
  exists t0 hours t_put t_up kept,
    entries (state_of (exec blob_service (handler env req) w))
    = (kept ++ [written t_put t_up
                  (JSON_stringify (tokenData_of d (toISOString t0) hours))])%list
    /\ now w < t_up
    /\ (forall e, In e kept ->
          In e (entries w) /\ at_path (uniqueFilename t_put) e = false).
Proof.
  intros Hc Hm Hb Ht. 
  rewrite (exec_handler_post blob_service env tok req d w Hc Hm Hb Ht).
  cbn [tick blob_service blob_tick].
  rewrite (exec_handle_post blob_service tok _ req d _ Hb Ht).
  set (w0 := {| now := now w + 1; entries := entries w; faults := faults w |}).
  destruct (expiry_reads_keep (get "expires_at" d) w0) as [He1 _].
  pose proof (expiry_reads_now (get "expires_at" d) w0) as Hn1.
  destruct (expiry_reads blob_service (get "expires_at" d) w0)
    as [[hours w1] reads]. cbn [fst snd] in He1, Hn1.
  change (entries w0) with (entries w) in He1.
  change (now w0) with (now w + 1) in Hn1.
  cbn [serve blob_service].
  pose proof (blob_serve_get_keeps_entries (list_request tok) w1 eq_refl) as He2.
  pose proof (blob_serve_now (list_request tok) w1) as Hn2.
  destruct (blob_serve (list_request tok) w1) as [o w2]. cbn [snd] in He2, Hn2.
  destruct (serve_all_subset (map (delete_request tok) (listed o)) w2
              (deletes_are_not_puts tok (listed o))) as [Hn3 He3].
  change (@serve_all world blob_service) with (serve_all blob_service) in *.
  destruct (serve_all blob_service (map (delete_request tok) (listed o)) w2)
    as [outs w3]. cbn [snd] in Hn3, He3.
  cbn [tick blob_service blob_tick].
  set (w4 := {| now := now w3 + 1; entries := entries w3; faults := faults w3 |}).
  destruct (hd None (faults w4)) as [f|] eqn:Hhd.
  - rewrite (blob_serve_faulted _ w4 f Hhd). cbn. intros Hout H200.
    injection Hout as <-. exfalso. apply (fail_not_stored f).
    now apply (stored_accepts d (toISOString (now w)) hours).
  - rewrite (blob_serve_planned _ w4 Hhd).
    destruct (act_put tok (now w3) (now w4)
                (tokenData_of d (toISOString (now w)) hours) (entries w4))
      as [ack ->]. cbn [fst snd]. intros _ _.
    exists (now w), hours, (now w3), (now w4),
      (filter (fun e => negb (at_path (uniqueFilename (now w3)) e)) (entries w4)).
    split; [reflexivity|]. split; [cbn; lia|].
    intros e He. apply filter_In in He as [He Hp]. split.
    + apply He3 in He. now rewrite He2, He1 in He.
    + now apply negb_true_iff in Hp.
Qed.

Lemma find_app_last {A : Type} (f : A -> bool) (l : list A) (x : A) :
  (forall a, In a l -> f a = false) -> f x = true ->
  find f (l ++ [x]) = Some x.
Proof.
  intros Hl Hx. induction l as [|a l IH]; cbn; [now rewrite Hx|].
  rewrite (Hl a (or_introl eq_refl)). apply IH. intros b Hb. apply Hl. now right.
Qed.

Lemma listing_result_newest (r : reply) (bs : list blob) (latest : blob)
      (rest : list blob) :
  ok r = true ->
  parsed r = inr (Listing bs) ->
  sort_by newest_first bs = latest :: rest ->
  listing_result (Resolved r) = inr latest.
Proof.
  intros Hok Hp Hs. unfold listing_result. rewrite Hok, Hp, Hs.
  destruct bs; [discriminate Hs|reflexivity].
Qed.

(** A GET against a store whose last blob is a token file, newer than all
    the others and the only one at its URL: the answer is the report on the
    content of that blob. *)
Lemma get_serves_last_entry {E : Engine} (w : world) (env : option string) (tok : string)
      (req : http_request) (kept : list entry) (last : entry) :
  configured env = Some tok ->
  method req = "GET" ->
  fault_free w ->
  entries w = (kept ++ [last])%list ->
  has_prefix TOKEN_PREFIX last = true ->
  strip_prefix (baseUrl ++ "?prefix=") (url (descriptor last)) = None ->
  (forall e, In e kept ->
     uploadedAt (descriptor e) < uploadedAt (descriptor last)
     /\ at_url (url (descriptor last)) e = false) ->
  exists w2 resp w3 reads before,
    token_report blob_service (Object (content last)) w2 = (resp, w3, reads)
    /\ outcome_of (exec blob_service (handler env req) w) = Returned resp
    /\ log_of (exec blob_service (handler env req) w) = (before ++ reads)%list.
Proof.
  intros Hc Hm Hw He Hpre Hurl Hkept.
  rewrite (exec_get blob_service w env tok req Hm Hc).
  cbn [tick serve blob_service blob_tick].
  set (w0 := {| now := now w + 1; entries := entries w; faults := faults w |}).
  assert (Hw0 : fault_free w0) by exact Hw.
  rewrite (blob_serve_fault_free _ w0 Hw0).
  destruct (act_list tok (now w0) (entries w0)) as [raw ->]. cbn [fst snd].
  set (found := map descriptor (filter (has_prefix TOKEN_PREFIX) (entries w0))).
  assert (Hlast : In (descriptor last) found).
  { apply in_map, filter_In. split; [|exact Hpre].
    change (entries w0) with (entries w). rewrite He.
    apply in_or_app. right. now left. }
  assert (Hne : found <> []) by (intros E0; rewrite E0 in Hlast; destruct Hlast).
  destruct (sort_by_newest found Hne) as (latest & others & Hs & Hin & Hmax).
  assert (Hlatest : latest = descriptor last).
  { apply in_map_iff in Hin as (e & <- & Hin). apply filter_In in Hin as [Hin _].
    change (entries w0) with (entries w) in Hin. rewrite He in Hin.
    apply in_app_or in Hin as [Hin|[<-|[]]]; [|reflexivity].
    destruct (Hkept e Hin) as [Hold _]. specialize (Hmax _ Hlast). lia. }
  subst latest.
  change (json_reply 200 raw (Listing found))
    with (Resolved {| status := 200; raw := raw; parsed := inr (Listing found) |}).
  rewrite (listing_result_newest
             {| status := 200; raw := raw; parsed := inr (Listing found) |}
             found (descriptor last) others eq_refl eq_refl Hs).
  set (w1 := {| now := now w0; entries := entries w0; faults := tl (faults w0) |}).
  assert (Hw1 : fault_free w1) by (apply fault_free_tl; exact Hw0).
  rewrite (blob_serve_fault_free _ w1 Hw1).
  assert (Hact : act (read_request (descriptor last)) (now w1) (entries w1)
                 = (json_reply 200 (doc_text (content last)) (Object (content last)),
                    entries w1)).
  { unfold act, read_request. cbn [rq_method rq_url String.eqb Ascii.eqb Bool.eqb].
    rewrite Hurl. change (entries w1) with (entries w). rewrite He.
    rewrite (find_app_last _ kept last); [reflexivity| |].
    - intros e Hin'. now apply Hkept.
    - unfold at_url. apply String.eqb_refl. }
  rewrite Hact. cbn [fst snd].
  change (token_result (json_reply 200 (doc_text (content last))
                          (Object (content last))))
    with (@inr http_response jsondata (Object (content last))).
  cbv beta iota.
  match goal with
  | |- context [token_report blob_service ?j ?x] =>
      destruct (token_report blob_service j x) as [[resp w3] reads] eqn:Hrep
  end.
  eexists. exists resp, w3, reads. eexists [_; _; _].
  split; [exact Hrep|]. split; reflexivity.
Qed.

Lemma public_url_inj (a b : string) : public_url a = public_url b -> a = b.
Proof. unfold public_url. cbn. intros H. now injection H. Qed.

Lemma token_found_valid (b d : doc) (v h : jsval) :
  truthy v = false ->
  lookup "access_token" b = lookup "access_token" d ->
  reports_valid (token_found (Object b) v h) d.
Proof.
  intros Hv Hacc. unfold reports_valid, token_found. rewrite Hv.
  cbn [token_field]. repeat split; read_member; try reflexivity. exact Hacc.
Qed.

(** The report on a fetched record, by its expires_at. *)
Lemma token_report_by_expiry {E : Engine} {S : Type} (sv : service S)
      (b d : doc) (s s' : S) (resp : http_response) (reads : list event) :
  token_report sv (Object b) s = (resp, s', reads) ->
  lookup "access_token" b = lookup "access_token" d ->
  lookup "expires_at" b = lookup "expires_at" d ->
  (no_expiry (lookup "expires_at" d) -> reads = [] /\ reports_valid resp d)
  /\ (forall j,
        lookup "expires_at" d = Some j ->
        ~ no_expiry (Some j) ->
        exists now now',
          reads = [Read now; Read now']
          /\ (forall t,
                engine_parseInt (of_json j) = Some t ->
                Z.abs t <= 8640000000000000 ->
                t < now ->
                reports_expired resp t)
          /\ (forall t,
                engine_parseInt (of_json j) = Some t ->
                now <= t \/ 8640000000000000 < Z.abs t ->
                reports_valid resp d)
          /\ (engine_parseInt (of_json j) = None -> reports_valid resp d)).
Proof.
  intros Hrep Hacc Hexp.
  unfold token_report in Hrep. cbn [token_field] in Hrep.
  split.
  - intros Hno. rewrite <- Hexp in Hno. apply truthy_get in Hno.
    rewrite Hno in Hrep. injection Hrep as <- _ <-.
    split; [reflexivity|]. now apply token_found_valid.
  - intros j Hj Hyes. rewrite <- Hexp in Hj.
    destruct (truthy_expiry _ _ _ Hj Hyes) as [Ht Hg].
    rewrite <- Hg. rewrite Ht in Hrep.
    destruct (tick sv s) as [now s4], (tick sv s4) as [now' s5].
    injection Hrep as <- _ <-. exists now, now'. split; [reflexivity|].
    split; [|split].
    + intros t Hparse Hab Hlt. rewrite Hparse, (new_Date_valid t Hab).
      cbn [date_gt]. rewrite (proj2 (Z.ltb_lt t now) Hlt).
      unfold reports_expired, token_expired. repeat split; read_member; reflexivity.
    + intros t Hparse [Hle|Hbig]; rewrite Hparse.
      * destruct (new_Date (Some t)) as [t'|] eqn:Hd; cbn [date_gt].
        -- unfold new_Date in Hd.
           destruct (Z.abs t <=? 8640000000000000); [|discriminate Hd].
           injection Hd as <-. rewrite (proj2 (Z.ltb_ge t now) Hle).
           now apply token_found_valid.
        -- now apply token_found_valid.
      * rewrite (new_Date_invalid t Hbig). cbn [date_gt].
        now apply token_found_valid.
    + intros Hparse. rewrite Hparse. unfold new_Date. cbn [date_gt].
      now apply token_found_valid.
Qed.

(** X10.  What a POST stores a GET gives back, also when the cleanup
    failed.  Against the blob store: after a POST answered 200, into a
    store whose blobs sit at their public URLs and were uploaded earlier, a
    GET that meets no failure answers from the record just written (older
    token files that survived are passed over), going by the expires_at
    that was posted.  When that is missing, null, false, 0 or the empty
    string the answer is 200 with is_valid: true and the access_token that
    was posted.  Otherwise the GET ends with two readings of the clock,
    and with t the number parseInt(expires_at): the answer is 410 with
    expired_at the ISO text of t when t makes a date and is strictly
    before the first of the two readings, and 200 with is_valid: true and
    the posted access_token when t is not before it, makes no date, or
    parseInt gives NaN. *)
Theorem get_after_post_serves_posted_token {E : Engine} :
  forall (w : world) (env : option string) (req get_req : http_request)
         (d : doc) (resp : http_response),
    method req = "POST" ->
    body req = Some d ->
    outcome_of (exec blob_service (handler env req) w) = Returned resp ->
    res_status resp = 200 ->
    well_kept w ->
    all_older w ->
    fault_free (state_of (exec blob_service (handler env req) w)) ->
    method get_req = "GET" ->
    exists resp',
      outcome_of (exec blob_service (handler env get_req)
                    (state_of (exec blob_service (handler env req) w)))
      = Returned resp'
      /\ (no_expiry (lookup "expires_at" d) -> reports_valid resp' d)
      /\ (forall j,
            lookup "expires_at" d = Some j ->
            ~ no_expiry (Some j) ->
            exists before now now',
              log_of (exec blob_service (handler env get_req)
                        (state_of (exec blob_service (handler env req) w)))
              = (before ++ [Read now; Read now'])%list
              /\ (forall t,
                    engine_parseInt (of_json j) = Some t ->
                    Z.abs t <= 8640000000000000 ->
                    t < now ->
                    reports_expired resp' t)
              /\ (forall t,
                    engine_parseInt (of_json j) = Some t ->
                    now <= t \/ 8640000000000000 < Z.abs t ->
                    reports_valid resp' d)
              /\ (engine_parseInt (of_json j) = None -> reports_valid resp' d)).
Proof.
  intros w env req get_req d resp Hm Hb Hout H200 Hkept Holder Hfree Hg.
  destruct (post_reaches_store blob_service w env req Hm)
    as [(tok & d' & Hc & Hb' & Ht)|(t0 & resp' & _ & Hout' & Hne)].
  2: { rewrite Hout' in Hout. injection Hout as <-. contradiction. }
  rewrite Hb in Hb'. injection Hb' as <-.
  destruct (post_store_state w env tok req d resp Hc Hm Hb Ht Hout H200)
    as (t0 & hours & t_put & t_up & kept & He & Hup & Hk).
  set (record := JSON_stringify (tokenData_of d (toISOString t0) hours)) in *.
  destruct (get_serves_last_entry _ env tok get_req kept
              (written t_put t_up record) Hc Hg Hfree He)
    as (w2 & resp' & w3 & reads & before & Hrep & Hout' & Hlog).
  - reflexivity.
  - reflexivity.
  - intros e Hin. destruct (Hk e Hin) as [Hin' Hpath]. split.
    + specialize (Holder e Hin'). cbn. lia.
    + unfold at_url. cbn [written descriptor url]. apply String.eqb_neq.
      intros Hu. rewrite (Hkept e Hin') in Hu. apply public_url_inj in Hu.
      unfold at_path in Hpath. rewrite Hu, String.eqb_refl in Hpath.
      discriminate Hpath.
  - exists resp'. split; [exact Hout'|].
    destruct (stored_record d (toISOString t0) hours) as (Hfields & _ & _).
    fold record in Hfields.
    cbn [written content] in Hrep.
    destruct (token_report_by_expiry blob_service record d w2 w3 resp' reads Hrep)
      as [Hnone Hsome]; [apply Hfields; cbn; auto | apply Hfields; cbn; auto |].
    split; [intros Hno; now apply Hnone|].
    intros j Hj Hyes.
    destruct (Hsome j Hj Hyes) as (now & now' & Hreads & Hcases).
    exists before, now, now'. split; [now rewrite Hlog, Hreads|exact Hcases].
Qed.

Lemma get_after_post_serves_posted_token_witness :
  well_kept sample_world_stale
  /\ all_older sample_world_stale
  /\ token_keys (state_of (exec blob_service (handler sample_env sample_post_past)
                             sample_world_stale))
     = [ "upstox_access_token_1699990000000.json";
         "upstox_access_token_1700000000002.json" ]
  /\ (exists resp',
        outcome_of (exec blob_service (handler sample_env sample_get)
                      (state_of (exec blob_service (handler sample_env sample_post_past)
                                   sample_world_stale)))
        = Returned resp'
        /\ reports_expired resp' 1600000000000)
  /\ (exists resp',
        outcome_of (exec blob_service (handler sample_env sample_get)
                      (state_of (exec blob_service (handler sample_env sample_post)
                                   sample_world_stale)))
        = Returned resp'
        /\ reports_valid resp' [ ("access_token", JStr "tok");
                                 ("expires_at", JStr "1700003600000");
                                 ("client_id", JStr "c1") ]).
Proof.
  assert (Hkept : well_kept sample_world_stale)
    by (intros e [<-|[]]; reflexivity).
  assert (Holder : all_older sample_world_stale)
    by (intros e [<-|[]]; reflexivity).
  split; [exact Hkept|]. split; [exact Holder|].
  split; [vm_compute; reflexivity|].
  split.
  - destruct (get_after_post_serves_posted_token (E := model_engine)
                sample_world_stale sample_env sample_post_past sample_get
                [("access_token", JStr "tok"); ("expires_at", JStr "1600000000000")]
                _ eq_refl eq_refl ltac:(vm_compute; reflexivity) eq_refl
                Hkept Holder ltac:(vm_compute; constructor) eq_refl)
      as (resp' & Hout & _ & Hsome).
    exists resp'. split; [exact Hout|].
    destruct (Hsome (JStr "1600000000000") eq_refl)
      as (before & now & now' & Hlog & Hexpired & _).
    + intros [H|[H|[H|[H|H]]]]; discriminate H.
    + apply Hexpired; [vm_compute; reflexivity | cbn; lia |].
      match type of Hlog with
      | ?l = _ =>
          assert (Hnow : hd_error (tl (rev l)) = Some (Read now))
            by (rewrite Hlog, rev_app_distr; reflexivity)
      end.
      vm_compute in Hnow. injection Hnow as <-. lia.
  - destruct (get_after_post_serves_posted_token (E := model_engine)
                sample_world_stale sample_env sample_post sample_get
                [ ("access_token", JStr "tok");
                  ("expires_at", JStr "1700003600000");
                  ("client_id", JStr "c1") ]
                _ eq_refl eq_refl ltac:(vm_compute; reflexivity) eq_refl
                Hkept Holder ltac:(vm_compute; constructor) eq_refl)
      as (resp' & Hout & _ & Hsome).
    exists resp'. split; [exact Hout|].
    destruct (Hsome (JStr "1700003600000") eq_refl)
      as (before & now & now' & Hlog & _ & Hvalid & _).
    + intros [H|[H|[H|[H|H]]]]; discriminate H.
    + apply (Hvalid 1700003600000); [vm_compute; reflexivity|].
      left.
      match type of Hlog with
      | ?l = _ =>
          assert (Hnow : hd_error (tl (rev l)) = Some (Read now))
            by (rewrite Hlog, rev_app_distr; reflexivity)
      end.
      vm_compute in Hnow. injection Hnow as <-. lia.
Defined.

(** ** What a GET hands out *)

(** X11.  The 200 answer of a GET hands out the record as stored, except
    for expires_in_hours: expires_at, client_id, user_id and stored_at are
    those of the fetched record, while expires_in_hours is worked out anew
    and the expires_in_hours that was stored is not used.  It is null when
    expires_at is missing, null, false, 0 or the empty string.  Otherwise
    the clock has been read twice, and with t the number
    parseInt(expires_at) and now' the second reading, expires_in_hours is
    (t - now') / 3600000 rounded to the nearest integer, a half going up,
    when t makes a date, and null when it does not or when parseInt gives
    NaN. *)
Theorem get_answer_recomputes_hours {E : Engine} :
  forall (S : Type) (sv : service S) (s : S) (env : option string)
         (req : http_request) (t0 : Z) (rq1 rq2 : request) (o1 : outcome)
         (r2 : reply) (d : doc) (rest : list event) (resp : http_response),
    method req = "GET" ->
    log_of (exec sv (handler env req) s)
    = Read t0 :: One rq1 o1 :: One rq2 (Resolved r2) :: rest ->
    200 <= status r2 <= 299 ->
    parsed r2 = inr (Object d) ->
    outcome_of (exec sv (handler env req) s) = Returned resp ->
    res_status resp = 200 ->
    (forall k, In k ["expires_at"; "client_id"; "user_id"; "stored_at"] ->
       field k resp = lookup k d)
    /\ (no_expiry (lookup "expires_at" d) ->
        rest = [] /\ field "expires_in_hours" resp = Some JNull)
    /\ (forall j,
          lookup "expires_at" d = Some j ->
          ~ no_expiry (Some j) ->
          exists now now',
            rest = [Read now; Read now']
            /\ (forall t,
                  engine_parseInt (of_json j) = Some t ->
                  Z.abs t <= 8640000000000000 ->
                  now <= t
                  /\ field "expires_in_hours" resp
                     = Some (JNum ((t - now' + 1800000) / 3600000)))
            /\ (forall t,
                  engine_parseInt (of_json j) = Some t ->
                  8640000000000000 < Z.abs t ->
                  field "expires_in_hours" resp = Some JNull)
            /\ (engine_parseInt (of_json j) = None ->
                field "expires_in_hours" resp = Some JNull)).
Proof.
  intros S sv s env req t0 rq1 rq2 o1 r2 d rest resp Hm Hlog Hst Hp Hout H200.
  destruct (get_token_run sv s env req t0 rq1 rq2 o1 r2 (Object d) rest
              Hm Hlog (ok_range r2 Hst) Hp) as (s2 & resp' & s3 & Hrep & Hout').
  rewrite Hout' in Hout. injection Hout as ->.
  assert (Hfields : forall v h k,
             In k ["expires_at"; "client_id"; "user_id"; "stored_at"] ->
             field k (token_found (Object d) v h) = lookup k d).
  { intros v h k Hk. unfold token_found. cbn [token_field]. cbn in Hk.
    destruct Hk as [<-|[<-|[<-|[<-|[]]]]]; read_member; reflexivity. }
  unfold token_report in Hrep. cbn [token_field] in Hrep.
  destruct (truthy (get "expires_at" d)) eqn:Hte.
  - destruct (tick sv s2) as [now s4], (tick sv s4) as [now' s5].
    destruct (date_gt now (new_Date (engine_parseInt (get "expires_at" d)))) eqn:Hgt.
    + destruct (new_Date (engine_parseInt (get "expires_at" d))); [|discriminate Hgt].
      injection Hrep as <- _ _. discriminate H200.
    + injection Hrep as <- _ <-. split; [now apply Hfields|]. split.
      * intros Hno. apply truthy_get in Hno. congruence.
      * intros j Hj Hyes. destruct (truthy_expiry _ _ _ Hj Hyes) as [_ Hg].
        rewrite <- Hg. exists now, now'. split; [reflexivity|].
        assert (Hh : field "expires_in_hours"
                       (token_found (Object d) (VBool false)
                          (round_hours
                             (new_Date (engine_parseInt (get "expires_at" d))) now'))
                     = Some (hours_json (get "expires_at" d) now'))
          by (unfold token_found; read_member; reflexivity).
        rewrite Hh. split; [|split].
        -- intros t Hparse Hab. rewrite (hours_json_number _ _ t Hparse Hab).
           split; [|reflexivity].
           rewrite Hparse, (new_Date_valid t Hab) in Hgt. cbn [date_gt] in Hgt.
           now apply Z.ltb_ge in Hgt.
        -- intros t Hparse Hbig. rewrite hours_json_null; [reflexivity|].
           right. now exists t.
        -- intros Hparse. rewrite hours_json_null; [reflexivity|]. now left.
  - injection Hrep as <- _ <-. split; [now apply Hfields|]. split.
    + intros _. split; [reflexivity|]. unfold token_found. read_member. reflexivity.
    + intros j Hj Hyes. destruct (truthy_expiry _ _ _ Hj Hyes) as [Hyes' _].
      congruence.
Qed.

Lemma get_answer_recomputes_hours_witness :
  exists resp,
    outcome_of (exec (scripted 1700000000000) (handler sample_env sample_get)
                  [Resolved sample_listing;
                   Resolved (json_answer 200 (Object (sample_record "1700090000000")))])
    = Returned resp
    /\ lookup "expires_in_hours" (sample_record "1700090000000") = Some (JNum 1)
    /\ field "expires_in_hours" resp = Some (JNum 25).
Proof.
  eexists. split; [vm_compute; reflexivity|]. split; [reflexivity|].
  destruct (get_answer_recomputes_hours (E := model_engine)
              (list outcome) (scripted 1700000000000)
              [Resolved sample_listing;
               Resolved (json_answer 200 (Object (sample_record "1700090000000")))]
              sample_env sample_get 1700000000000
              (list_request "secret") (read_request sample_newest)
              (Resolved sample_listing)
              (json_answer 200 (Object (sample_record "1700090000000")))
              (sample_record "1700090000000")
              [Read 1700000000000; Read 1700000000000] _
              eq_refl ltac:(vm_compute; reflexivity) ltac:(cbn; lia) eq_refl
              eq_refl eq_refl)
    as (_ & _ & Hsome).
  destruct (Hsome (JStr "1700090000000") eq_refl) as (now & now' & Hrest & Hnum & _).
  - intros [H|[H|[H|[H|H]]]]; discriminate H.
  - injection Hrest as _ <-.
    apply (Hnum 1700090000000); [vm_compute; reflexivity | cbn; lia].
Defined.

(** ** The hours to expiry *)

(** X12.  expires_in_hours, when it is a number, is the time left in hours
    to the nearest hour: it differs from (expiry - now) / 3600000 by at
    most half an hour, a half rounding up. *)
Theorem hours_are_nearest {E : Engine} :
  forall (expires_at : jsval) (now t : Z),
    new_Date (engine_parseInt expires_at) = Some t ->
    exists h,
      hours_json expires_at now = JNum h
      /\ round_hours (new_Date (engine_parseInt expires_at)) now = VNum h
      /\ 3600000 * h - 1800000 <= t - now < 3600000 * h + 1800000.
Proof.
  intros v now t Ht. unfold hours_json, round_hours. rewrite Ht.
  exists ((t - now + 1800000) / 3600000). split; [reflexivity|].
  split; [reflexivity|].
  pose proof (Z.div_mod (t - now + 1800000) 3600000 ltac:(lia)) as Hd.
  pose proof (Z.mod_pos_bound (t - now + 1800000) 3600000 ltac:(lia)) as Hm.
  lia.
Qed.

Lemma hours_are_nearest_witness :
  new_Date (engine_parseInt (VStr "1700005400000")) = Some 1700005400000
  /\ exists h,
       hours_json (VStr "1700005400000") 1700000000000 = JNum h
       /\ round_hours (new_Date (engine_parseInt (VStr "1700005400000"))) 1700000000000
          = VNum h
       /\ 3600000 * h - 1800000 <= 1700005400000 - 1700000000000
          < 3600000 * h + 1800000.
Proof.
  split; [reflexivity|].
  apply (hours_are_nearest (VStr "1700005400000") 1700000000000 1700005400000).
  reflexivity.
Defined.

(** ** Refusals that spare the store *)

(** X13.  A request that is turned down with 400 or 405 never reached the
    store: whenever the answer has one of these statuses, the handler has
    sent no request at all. *)
Theorem early_refusals_spare_the_store {E : Engine} :
  forall (S : Type) (sv : service S) (s : S) (env : option string)
         (req : http_request) (resp : http_response),
    outcome_of (exec sv (handler env req) s) = Returned resp ->
    res_status resp = 400 \/ res_status resp = 405 ->
    requests (log_of (exec sv (handler env req) s)) = [].
Proof.
  intros S sv s env req resp Hout Hst.
  destruct (string_dec (method req) "OPTIONS") as [Ho|Ho].
  { rewrite exec_handler_options by assumption. now destruct (tick sv s). }
  destruct (configured env) as [tok|] eqn:Hc.
  2: { rewrite exec_handler_unconfigured by assumption. now destruct (tick sv s). }
  destruct (string_dec (method req) "POST") as [Hp|Hp].
  { destruct (post_reaches_store sv s env req Hp)
      as [(tok' & d & Hc' & Hb & Ht)|(t0 & resp' & Hlog & _)].
    2: { now rewrite Hlog. }
    destruct (post_run sv env tok' req d s Hc' Hp Hb Ht)
      as (t0 & reads & hours & o & outs & now & o_put & _ & _ & _ & Hout').
    rewrite Hout' in Hout. injection Hout as <-. exfalso.
    unfold post_response in Hst.
    destruct (store_error o_put); destruct Hst as [H|H]; discriminate H. }
  destruct (string_dec (method req) "GET") as [Hg|Hg].
  - exfalso. revert Hout. rewrite (exec_handler_get sv env tok req s Hg Hc).
    destruct (tick sv s) as [t0 s0].
    destruct (handle_get_well_formed sv tok s0) as (resp' & Hout' & _ & Hin & _).
    destruct (exec sv (handle_get tok) s0) as [[r s1] l]. cbn in *.
    subst r. intros Hout. injection Hout as <-.
    destruct Hst as [H|H]; rewrite H in Hin; cbn in Hin;
      repeat (destruct Hin as [Hin|Hin]; [discriminate Hin|]); exact Hin.
  - rewrite (exec_handler_other sv env tok req s Ho Hp Hg Hc).
    now destruct (tick sv s).
Qed.

Lemma early_refusals_spare_the_store_witness :
  exists resp,
    outcome_of (exec blob_service
                  (handler sample_env {| method := "POST"; body := Some [] |})
                  sample_world_stale) = Returned resp
    /\ res_status resp = 400
    /\ requests (log_of (exec blob_service
                           (handler sample_env {| method := "POST"; body := Some [] |})
                           sample_world_stale)) = [].
Proof.
  eexists. split; [vm_compute; reflexivity|]. split; [reflexivity|].
  eapply (early_refusals_spare_the_store world blob_service sample_world_stale
            sample_env {| method := "POST"; body := Some [] |}).
  - vm_compute. reflexivity.
  - left. reflexivity.
Defined.

(** ** Numbers through parseInt *)

Lemma digits_acc (d : Decimal.uint) (p : positive) :
  digits 10 (NilEmpty.string_of_uint d) true (Z.pos p)
  = Some (Z.pos (Pos.of_uint_acc d p)).
Proof.
  revert p; induction d as [|d IH|d IH|d IH|d IH|d IH|d IH|d IH|d IH|d IH|d IH];
    intros p; [reflexivity|..];
    cbn [NilEmpty.string_of_uint digits Pos.of_uint_acc];
    match goal with
    | |- context [digit_of 10 ?c] =>
        let v := eval vm_compute in (digit_of 10 c) in
        change (digit_of 10 c) with v
    end; cbv iota; rewrite <- IH; f_equal; lia.
Qed.

Lemma digits_zero (d : Decimal.uint) :
  digits 10 (NilEmpty.string_of_uint d) true 0 = Some (Z.of_N (Pos.of_uint d)).
Proof.
  induction d as [|d IH|d IH|d IH|d IH|d IH|d IH|d IH|d IH|d IH|d IH];
    [reflexivity|..];
    cbn [NilEmpty.string_of_uint digits Pos.of_uint];
    match goal with
    | |- context [digit_of 10 ?c] =>
        let v := eval vm_compute in (digit_of 10 c) in
        change (digit_of 10 c) with v
    end; cbv iota; [exact IH|..]; cbn [Z.mul Z.add Z.of_N]; apply digits_acc.
Qed.

Lemma parse_uint (d : Decimal.uint) :
  d <> Decimal.Nil ->
  parse_int_string (NilEmpty.string_of_uint d) = Some (Z.of_N (Pos.of_uint d))
  /\ parse_int_string (String "-" (NilEmpty.string_of_uint d))
     = Some (- Z.of_N (Pos.of_uint d)).
Proof.
  intros Hd.
  destruct d as [|d|d|d|d|d|d|d|d|d|d]; [congruence|..];
    destruct d as [|d|d|d|d|d|d|d|d|d|d];
    unfold parse_int_string;
    repeat (progress
              (cbv beta iota zeta;
               cbn [skip_spaces strip_hex digits NilEmpty.string_of_uint];
               repeat match goal with
                 | |- context [is_space ?c] =>
                     let v := eval vm_compute in (is_space c) in
                     change (is_space c) with v
                 | |- context [leads_two ?c] =>
                     let v := eval vm_compute in (leads_two c) in
                     change (leads_two c) with v
                 | |- context [leads_three ?c] =>
                     let v := eval vm_compute in (leads_three c) in
                     change (leads_three c) with v
                 | |- context [digit_of 10 ?c] =>
                     let v := eval vm_compute in (digit_of 10 c) in
                     change (digit_of 10 c) with v
                 end));
    cbn [Z.mul Z.add Pos.mul Pos.add Pos.succ];
    rewrite ?digits_zero, ?digits_acc; split; f_equal; cbn; try lia;
    destruct (Z.of_N (Pos.of_uint d)); reflexivity.
Qed.

(** X14.  An integer expires_at is read back exactly: for an integer in
    the range where numbers are exact (up to 2^53 - 1 either way), parseInt
    of the number, and of its decimal text, is the number itself, so the
    expiry the handler works with is the instant that was posted. *)
Theorem parseInt_reads_integers_back :
  forall n : Z,
    Z.abs n <= 9007199254740991 ->
    parseInt (VNum n) = Some n /\ parseInt (VStr (dec n)) = Some n.
Proof.
  intros n _.
  assert (H : parse_int_string (dec n) = Some n); [|split; exact H].
  unfold dec. pose proof (DecimalZ.of_to n) as Hn.
  destruct n as [|p|p]; [reflexivity|..]; cbn [Z.to_int] in *;
    cbn [Z.of_int Z.of_uint] in Hn; unfold Z.of_uint in Hn;
    (assert (Hnil : Pos.to_uint p <> Decimal.Nil)
       by (intros E; rewrite E in Hn; discriminate Hn));
    destruct (parse_uint (Pos.to_uint p) Hnil) as [Hpos Hneg].
  - cbn [NilZero.string_of_int]. unfold NilZero.string_of_uint.
    destruct (Pos.to_uint p) eqn:E; [congruence|..]; rewrite Hpos; f_equal; exact Hn.
  - cbn [NilZero.string_of_int]. unfold NilZero.string_of_uint.
    destruct (Pos.to_uint p) eqn:E; [congruence|..]; rewrite Hneg; f_equal; exact Hn.
Qed.

Lemma parseInt_reads_integers_back_witness :
  Z.abs 1700003600000 <= 9007199254740991
  /\ parseInt (VNum 1700003600000) = Some 1700003600000
  /\ parseInt (VStr (dec 1700003600000)) = Some 1700003600000.
Proof.
  split; [discriminate|].
  apply (parseInt_reads_integers_back 1700003600000). discriminate.
Defined.
